(** * The calculator's equation editor (js/models/model.js)

    A shallow embedding of the module [models/model]: the token buffer
    [equation], the [calculated] flag, [lastCalculationResult], the
    [undoLog], and the operations the view calls on every key press.

    JavaScript strings are modelled as [string]; a character stands for one
    code unit below 256 (every token the editor builds is ASCII).  A value
    that the source types [string|null] is a [token]: [None] is [null].
    The module also reads [RegExp.$2], the second capture group of the last
    successful regular-expression match of the page; it is part of the
    state, field [regExp2], and every regular expression of the module
    updates it the way the engine does.

    Of the view (module [views/main]) the file embeds the two functions that
    put thousands separators into a component, in module [View]. *)

From Stdlib Require Import String Ascii List Bool Arith ZArith Lia.
Import ListNotations.
Open Scope list_scope.
Open Scope string_scope.

Set Implicit Arguments.

(** ** Strings *)

Module Str.

(** [s.slice(-1)]: the last character as a string, [""] on [""]. *)
Fixpoint lastChar (s : string) : string :=
  match s with
  | EmptyString => EmptyString
  | String c EmptyString => String c EmptyString
  | String _ r => lastChar r
  end.

(** [s.slice(0, -1)] and [s.substring(0, s.length - 1)]. *)
Fixpoint dropLast (s : string) : string :=
  match s with
  | EmptyString => EmptyString
  | String _ EmptyString => EmptyString
  | String c r => String c (dropLast r)
  end.

Definition isEmpty (s : string) : bool :=
  match s with EmptyString => true | _ => false end.

(** The class [\d]. *)
Definition isDigit (c : ascii) : bool :=
  let n := nat_of_ascii c in ((48 <=? n) && (n <=? 57))%nat.

(** Line terminators, which [.] does not match. *)
Definition isLineTerminator (c : ascii) : bool :=
  let n := nat_of_ascii c in ((n =? 10) || (n =? 13))%nat.

Fixpoint filter (p : ascii -> bool) (s : string) : string :=
  match s with
  | EmptyString => EmptyString
  | String c r => if p c then String c (filter p r) else filter p r
  end.

Fixpoint forallb (p : ascii -> bool) (s : string) : bool :=
  match s with
  | EmptyString => true
  | String c r => p c && forallb p r
  end.

Fixpoint existsb (p : ascii -> bool) (s : string) : bool :=
  match s with
  | EmptyString => false
  | String c r => p c || existsb p r
  end.

(** [s.indexOf(c) !== -1] for a one-character needle. *)
Definition contains (c : ascii) (s : string) : bool :=
  existsb (Ascii.eqb c) s.

(** [s.indexOf(c)] for a one-character needle; [None] is [-1]. *)
Fixpoint indexOf (c : ascii) (s : string) : option nat :=
  match s with
  | EmptyString => None
  | String d r =>
      if Ascii.eqb c d then Some 0 else option_map S (indexOf c r)
  end.

(** [s.substr(start, len)]. *)
Definition substr (start len : nat) (s : string) : string :=
  substring start len s.

(** [/^p/.test(s)] for a literal [p]. *)
Definition startsWith (p s : string) : bool := prefix p s.

(** [/c$/.test(s)] for a single character [c]. *)
Definition endsWith (c : string) (s : string) : bool :=
  String.eqb (lastChar s) c.

Fixpoint drop (n : nat) (s : string) : string :=
  match n, s with
  | S m, String _ r => drop m r
  | _, _ => s
  end.

Fixpoint takeWhile (p : ascii -> bool) (s : string) : string :=
  match s with
  | String c r => if p c then String c (takeWhile p r) else EmptyString
  | EmptyString => EmptyString
  end.

Fixpoint dropWhile (p : ascii -> bool) (s : string) : string :=
  match s with
  | String c r => if p c then dropWhile p r else s
  | EmptyString => EmptyString
  end.

End Str.

(** ** Arrays *)

Module Arr.

Section Generic.
Variable A : Type.

(** [a[a.length - k]] for [k >= 1]; [None] is [undefined] (the index is
    negative when the array is shorter than [k]). *)
Definition fromEnd (k : nat) (a : list A) : option A :=
  if (length a <? k)%nat then None else nth_error a (length a - k).

(** [a[i] = v] for an index inside the array.  Every indexed write of
    the module is guarded so that [i < a.length]; outside that range
    JavaScript would extend the array (or set a property for a negative
    index), which this model does not represent. *)
Fixpoint set (a : list A) (i : nat) (v : A) : list A :=
  match a, i with
  | [], _ => []
  | _ :: r, O => v :: r
  | x :: r, S j => x :: set r j v
  end.

(** [a.pop()]: the array without its last element. *)
Definition pop (a : list A) : list A := removelast a.

(** [a.push(v)]. *)
Definition push (a : list A) (v : A) : list A := (a ++ [v])%list.

(** [a.slice(n, a.length)]. *)
Definition sliceFrom (n : nat) (a : list A) : list A := skipn n a.

(** [a.splice(0, n)]: what is left in the array. *)
Definition spliceFront (n : nat) (a : list A) : list A := skipn n a.
End Generic.

End Arr.

(** ** The module state *)

(** A value of type [string|null]. *)
Abbreviation token := (option string).

Definition token_eqb (a b : token) : bool :=
  match a, b with
  | None, None => true
  | Some x, Some y => String.eqb x y
  | _, _ => false
  end.

(** JavaScript truthiness of a [string|null]: [null] and [""] are falsy. *)
Definition truthy (c : token) : bool :=
  match c with
  | Some s => negb (Str.isEmpty s)
  | None => false
  end.

(** [String(c)], the conversion a regular expression applies to its
    argument. *)
Definition toStr (c : token) : string :=
  match c with Some s => s | None => "null" end.

(** [c === lit]. *)
Definition isStr (c : token) (lit : string) : bool :=
  token_eqb c (Some lit).

Record Model := mkModel {
  equation : list token;
  calculated : bool;
  lastCalculationResult : string;
  undoLog : list (list token);
  regExp2 : string
}.

Definition setEquation (e : list token) (m : Model) : Model :=
  mkModel e (calculated m) (lastCalculationResult m) (undoLog m) (regExp2 m).
Definition setCalculated (b : bool) (m : Model) : Model :=
  mkModel (equation m) b (lastCalculationResult m) (undoLog m) (regExp2 m).
Definition setLastCalculationResult (r : string) (m : Model) : Model :=
  mkModel (equation m) (calculated m) r (undoLog m) (regExp2 m).
Definition setUndoLog (l : list (list token)) (m : Model) : Model :=
  mkModel (equation m) (calculated m) (lastCalculationResult m) l (regExp2 m).
Definition setRegExp2 (g : string) (m : Model) : Model :=
  mkModel (equation m) (calculated m) (lastCalculationResult m) (undoLog m) g.

(** A successful match of a regular expression with fewer than two groups
    leaves [RegExp.$2] empty; a failed match leaves it as it was. *)
Definition matched (ok : bool) (m : Model) : Model :=
  if ok then setRegExp2 "" m else m.

(** ** A state monad for the module's functions *)

Definition M (A : Type) : Type := Model -> A * Model.

Definition ret (A : Type) (a : A) : M A := fun m => (a, m).
Definition bind (A B : Type) (c : M A) (k : A -> M B) : M B :=
  fun m => k (fst (c m)) (snd (c m)).
Definition get : M Model := fun m => (m, m).
Definition modify (f : Model -> Model) : M unit := fun m => (tt, f m).
Definition exec (A : Type) (c : M A) (m : Model) : Model := snd (c m).
Definition eval (A : Type) (c : M A) (m : Model) : A := fst (c m).

Declare Scope model_scope.
Delimit Scope model_scope with model.
Notation "x <- c ;; k" := (bind c (fun x => k))
  (at level 61, c at next level, right associativity) : model_scope.
Notation "c ;; k" := (bind c (fun _ => k))
  (at level 61, right associativity) : model_scope.
Notation "'when' b 'then' c" := (if b then c else ret tt)
  (at level 60, b at level 9) : model_scope.
Open Scope model_scope.

(** ** Constants *)

Definition OPERATORS : list string := ["+"; "-"; "*"; "/"; "^"].
Definition MODIFIERS : list string := ["^2"; "^3"; "^-1"; "!"].
Definition FUNCTIONS : list string :=
  ["sqrt("; "sin("; "cos("; "tan("; "asin("; "acos("; "atan("; "log(";
   "log10("; "pow(E,"; "pow(2,"; "E"].
Definition DECIMAL : string := ".".
Definition MAX_DIGITS : nat := 9.
Definition BRACKET_OPEN : string := "(".
Definition BRACKET_CLOSE : string := ")".

(** [list.indexOf(value) !== -1]; [null] is in none of the lists. *)
Definition memberOf (l : list string) (value : token) : bool :=
  match value with
  | Some s => existsb (String.eqb s) l
  | None => false
  end.

Definition isOperator (value : token) : bool := memberOf OPERATORS value.
Definition isModifier (value : token) : bool := memberOf MODIFIERS value.
Definition isFunction (value : token) : bool := memberOf FUNCTIONS value.
Definition isBracket (val : token) : bool :=
  isStr val BRACKET_CLOSE || isStr val BRACKET_OPEN.
Definition isOpenBracket (val : token) : bool := isStr val BRACKET_OPEN.
Definition isCloseBracket (val : token) : bool := isStr val BRACKET_CLOSE.

(** ** The undo log *)

(** [arraysEqual(a, b)].  [a] may be [undefined] (the top of an empty log).
    The two arrays are never the same object: the log holds copies made by
    [Array.from], and [undo] removes from the log the array it installs. *)
Fixpoint elementsEqual (a b : list token) : bool :=
  match a, b with
  | [], [] => true
  | x :: a', y :: b' => token_eqb x y && elementsEqual a' b'
  | _, _ => false
  end.

Definition arraysEqual (a : option (list token)) (b : list token)
  : bool :=
  match a with
  | None => false
  | Some a =>
      if negb (length a =? length b)%nat then false else elementsEqual a b
  end.

Definition trimLog (l : list (list token)) : list (list token) :=
  if (300 <? length l)%nat then Arr.sliceFrom 100 l else l.

(** The log after [updateUndoLog], for the log and the equation it finds. *)
Definition recorded (log : list (list token)) (e : list token)
  : list (list token) :=
  trimLog (if negb (arraysEqual (Arr.fromEnd 1 log) e)
           then Arr.push log e
           else log).

Definition updateUndoLog : M unit :=
  modify (fun m => setUndoLog (recorded (undoLog m) (equation m)) m).

(** [equation = undoLog.pop()]; only called on a non-empty log. *)
Definition popInto : M unit :=
  modify (fun m =>
    match Arr.fromEnd 1 (undoLog m) with
    | Some top => setEquation top (setUndoLog (Arr.pop (undoLog m)) m)
    | None => m
    end).

Definition undo : M unit :=
  m <- get ;;
  when (0 <? length (undoLog m))%nat then (
    let original_equation := equation m in
    popInto ;;
    m1 <- get ;;
    when (arraysEqual (Some original_equation) (equation m1)
          && (0 <? length (undoLog m1))%nat) then popInto).

(** ** The token buffer *)

Definition resetEquation : M unit :=
  modify (fun m => setCalculated false (setEquation [] m)) ;;
  updateUndoLog.

Definition isEmpty : M bool :=
  m <- get ;; ret (length (equation m) =? 0)%nat.

(** [a[i] || null]. *)
Definition orNull (v : option token) : token :=
  match v with
  | Some c => if truthy c then c else None
  | None => None
  end.

(** The correction of a trailing decimal separator shared by
    [getLastComponent] and [getPenultimateComponent].  Both write the
    corrected value at index [length - 1].  ([last.replace('.)', ')')]
    discards its result.) *)
Definition correctInto (correct : bool) (last : token) : M token :=
  match last with
  | Some l =>
      if correct && truthy last && String.eqb (Str.lastChar l) DECIMAL then
        let last' := Some (Str.dropLast l) in
        modify (fun m =>
          setEquation (Arr.set (equation m) (length (equation m) - 1) last') m) ;;
        ret last'
      else ret last
  | None => ret last
  end.

Definition getLastComponent (correct : bool) : M token :=
  m <- get ;;
  correctInto correct (orNull (Arr.fromEnd 1 (equation m))).

Definition getPenultimateComponent (correct : bool) : M token :=
  m <- get ;;
  correctInto correct (orNull (Arr.fromEnd 2 (equation m))).

Definition replaceLastComponent (value : token) : M unit :=
  modify (fun m =>
    let len := length (equation m) in
    if (0 <? len)%nat
    then setCalculated false (setEquation (Arr.set (equation m) (len - 1) value) m)
    else m) ;;
  updateUndoLog.

Definition addComponent (value : token) : M unit :=
  modify (fun m => setCalculated false (setEquation (Arr.push (equation m) value) m)) ;;
  updateUndoLog.

(** ** Regular expressions of the module *)

(** [/^\-d+/]: a minus sign followed by the letter [d] (the source has no
    backslash before the [d]). *)
Definition checkNegativeFormat (component : token) : M token :=
  match component with
  | Some s =>
      if truthy component && Str.startsWith "-d" s
      then modify (matched true) ;; ret (Some ("(" ++ s ++ ")"))
      else ret component
  | None => ret component
  end.

(** The lazy group [(.*?)] followed by [\)]: the characters before the first
    [")"], when no line terminator comes before it. *)
Fixpoint lazyUntilClose (s : string) : option string :=
  match s with
  | EmptyString => None
  | String c r =>
      if Ascii.eqb c ")" then Some EmptyString
      else if Str.isLineTerminator c then None
      else option_map (String c) (lazyUntilClose r)
  end.

(** Group 2 of the leftmost match of [(\()\-(.*?)(\))] in [s]. *)
Fixpoint negativeGroup2 (s : string) : option string :=
  match s with
  | EmptyString => None
  | String c r =>
      let here :=
        match r with
        | String d r' =>
            if Ascii.eqb c "(" && Ascii.eqb d "-" then lazyUntilClose r'
            else None
        | EmptyString => None
        end in
      match here with
      | Some g => Some g
      | None => negativeGroup2 r
      end
  end.

Definition isNegativeComponent (component : token) : M bool :=
  match negativeGroup2 (toStr component) with
  | Some g => modify (setRegExp2 g) ;; ret true
  | None => ret false
  end.

(** The class of [isNumeric]: [\d], [.], [E], [-] and the three characters
    the source file holds where an infinity sign was meant (U+00E2, U+02C6,
    U+017E); only the first is a code unit below 256. *)
Definition isNumericChar (c : ascii) : bool :=
  Str.isDigit c || Ascii.eqb c "." || Ascii.eqb c "E" || Ascii.eqb c "-"
  || (nat_of_ascii c =? 226)%nat.

(** [/^[...]+$/.test(s)] for that class. *)
Definition matchesNumeric (s : string) : bool :=
  negb (Str.isEmpty s) && Str.forallb isNumericChar s.

Definition isNumeric (str : token) : M bool :=
  let ok := matchesNumeric (toStr str) in
  modify (matched ok) ;; ret ok.

(** [/E$/]. *)
Definition endsInE (s : string) : bool := Str.endsWith "E" s.

(** [/E-?$/]. *)
Definition endsInExponent (s : string) : bool :=
  Str.endsWith "E" s
  || (Str.endsWith "-" s && Str.endsWith "E" (Str.dropLast s)).

Definition isLetterE (c : string) : bool :=
  String.eqb c "E" || String.eqb c "e".

(** [str.replace(EXPONENTIAL_REGEXP, '')] with [/E[\-\+]?$/i]: the result
    when the expression matches. *)
Definition stripExponent (str : string) : option string :=
  if isLetterE (Str.lastChar str) then Some (Str.dropLast str)
  else if (String.eqb (Str.lastChar str) "-" || String.eqb (Str.lastChar str) "+")
          && isLetterE (Str.lastChar (Str.dropLast str))
  then Some (Str.dropLast (Str.dropLast str))
  else None.

Definition removeLastChar (str : string) : M string :=
  let cut := Str.dropLast str in
  match stripExponent cut with
  | Some t => modify (matched true) ;; ret t
  | None => ret cut
  end.

(** [/^\-[0-9]$/]. *)
Definition isMinusDigit (s : string) : bool :=
  match s with
  | String a (String b EmptyString) => Ascii.eqb a "-" && Str.isDigit b
  | _ => false
  end.

(** [last.replace(new RegExp('[^\\d]', 'g'), '').length]. *)
Definition digitCount (s : string) : nat := String.length (Str.filter Str.isDigit s).

Definition countDigits (s : string) : M nat :=
  modify (matched (Str.existsb (fun c => negb (Str.isDigit c)) s)) ;;
  ret (digitCount s).

(** ** Input rules *)

(** The first lines of the operations: [if (calculated) { resetEquation();
    ... }], where all but [addDigit] and [addFunction] then add
    [lastCalculationResult] as first component. *)
Definition restart (withResult : bool) : M unit :=
  m <- get ;;
  if calculated m then
    resetEquation ;;
    (if withResult then addComponent (Some (lastCalculationResult m)) else ret tt)
  else ret tt.

Definition addDigit (digit : string) : M bool :=
  restart false ;;
  last <- getLastComponent false ;;
  m <- get ;;
  if ((negb (truthy last) || isOperator last) || isModifier last
      || isBracket last || isFunction last)
     && (negb (isStr last "-") || (1 <? length (equation m))%nat)
  then addComponent (Some digit) ;; ret true
  else
    c <- checkNegativeFormat last ;;
    replaceLastComponent c ;;
    neg <- isNegativeComponent last ;;
    m2 <- get ;;
    let last' :=
      if neg || isStr last "-" then
        "(-" ++ (if String.eqb (regExp2 m2) "0" then "" else regExp2 m2)
             ++ digit ++ ")"
      else if isStr last "0" then digit
      else toStr last ++ digit in
    n <- countDigits last' ;;
    if (n <=? MAX_DIGITS)%nat
    then replaceLastComponent (Some last') ;; ret true
    else updateUndoLog ;; ret false.

Definition addOperator (operator : string) : M unit :=
  restart true ;;
  last <- getLastComponent true ;;
  penultimate <- getPenultimateComponent true ;;
  m <- get ;;
  if negb (truthy last) && negb (String.eqb operator "-") then ret tt
  else if isStr last "-" && (length (equation m) =? 1)%nat then ret tt
  else if isStr last "-" && isFunction penultimate then ret tt
  else
    c <- checkNegativeFormat last ;;
    replaceLastComponent c ;;
    if isOperator last then replaceLastComponent (Some operator)
    else if isFunction last then
      (if String.eqb operator "-" then addComponent (Some operator) else ret tt)
    else if truthy last && endsInE (toStr last) then
      modify (matched true) ;;
      (if String.eqb operator "-"
       then replaceLastComponent (Some (toStr last ++ "-"))
       else ret tt)
    else addComponent (Some operator).

Definition addModifier (modifier : string) : M unit :=
  restart true ;;
  last <- getLastComponent true ;;
  penultimate <- getPenultimateComponent true ;;
  if negb (truthy last) then ret tt
  else
    numeric <- isNumeric last ;;
    if numeric || isModifier last || isCloseBracket last then
      c <- checkNegativeFormat last ;;
      replaceLastComponent c ;;
      if endsInE (toStr last) then modify (matched true)
      else addComponent (Some modifier)
    else ret tt.

Definition addFunction (func : string) : M unit :=
  restart false ;;
  last <- getLastComponent true ;;
  if (negb (truthy last) || isOperator last) || isOpenBracket last
     || isFunction last
  then addComponent (Some func)
  else addOperator "*" ;; addComponent (Some func).

Definition addDecimal : M unit :=
  last <- getLastComponent false ;;
  if negb (truthy last) || isOperator last || isModifier last then
    addComponent (Some ("0" ++ DECIMAL))
  else if isFunction last then
    addComponent (Some "*") ;; addComponent (Some ("0" ++ DECIMAL))
  else
    c <- checkNegativeFormat last ;;
    replaceLastComponent c ;;
    if negb (Str.contains "." (toStr last)) then
      neg <- isNegativeComponent last ;;
      m <- get ;;
      let last' :=
        if neg then "(-" ++ regExp2 m ++ DECIMAL ++ ")"
        else toStr last ++ DECIMAL in
      replaceLastComponent (Some last')
    else ret tt.

(** [equation.pop()]. *)
Definition popEquation : M unit :=
  modify (fun m => setEquation (Arr.pop (equation m)) m).

Definition deleteLast : M unit :=
  last <- getLastComponent false ;;
  if negb (truthy last) then ret tt
  else
    c <- checkNegativeFormat last ;;
    replaceLastComponent c ;;
    neg <- isNegativeComponent last ;;
    (if neg then
       m <- get ;;
       let lastPositive := regExp2 m in
       if (String.length lastPositive =? 1)%nat then popEquation
       else
         r <- removeLastChar lastPositive ;;
         replaceLastComponent (Some ("(-" ++ r ++ ")"))
     else if (String.length (toStr last) =? 1)%nat then popEquation
     else if isMinusDigit (toStr last) then modify (matched true) ;; popEquation
     else if isFunction last || isModifier last then popEquation
     else
       r <- removeLastChar (toStr last) ;;
       replaceLastComponent (Some r)) ;;
    updateUndoLog.

Definition changeSign : M bool :=
  restart true ;;
  last <- getLastComponent false ;;
  if truthy last && negb (isOperator last) && negb (isStr last "0") then
    let minus := Str.startsWith "-" (toStr last) in
    modify (matched minus) ;;
    let last1 := if minus then "(" ++ toStr last ++ ")" else toStr last in
    neg <- isNegativeComponent (Some last1) ;;
    m <- get ;;
    let last2 := if neg then regExp2 m else "(-" ++ last1 ++ ")" in
    replaceLastComponent (Some last2) ;;
    ret true
  else ret false.

Definition countComponent (val : string) : M nat :=
  m <- get ;;
  ret (length (List.filter (fun eqComp => isStr eqComp val) (equation m))).

Definition countFunctions : M nat :=
  m <- get ;;
  ret (length (List.filter isFunction (equation m))).

(** The characters of [sign], one component each. *)
Fixpoint addComponents (sign : string) : M unit :=
  match sign with
  | EmptyString => ret tt
  | String c r => addComponent (Some (String c EmptyString)) ;; addComponents r
  end.

Definition addBracket : M unit :=
  last <- getLastComponent false ;;
  opened1 <- countComponent BRACKET_OPEN ;;
  opened2 <- countFunctions ;;
  let countOpened := opened1 + opened2 in
  countClosed <- countComponent BRACKET_CLOSE ;;
  empty <- isEmpty ;;
  sign <-
    (if empty then ret BRACKET_OPEN
     else if isBracket last then
       ret (if isStr last BRACKET_CLOSE && (countClosed <? countOpened)%nat
            then BRACKET_CLOSE else BRACKET_OPEN)
     else
       numeric <- isNumeric last ;;
       if numeric && (countOpened =? countClosed)%nat then
         ret ("*" ++ BRACKET_OPEN)
       else if isOperator last then ret BRACKET_OPEN
       else if negb (isStr last BRACKET_CLOSE)
               && negb (isStr last BRACKET_OPEN)
               && (countClosed <? countOpened)%nat
       then ret BRACKET_CLOSE
       else ret BRACKET_OPEN) ;;
  addComponents sign.

(** The module's variables as the script leaves them, and [init]. *)
Definition fresh (ambient : string) : Model :=
  mkModel [] false "" [] ambient.

Definition init : M unit := resetEquation.

Definition started (ambient : string) : Model := exec init (fresh ambient).

(** ** Key presses

    The mutating operations of the module's public interface, as the view
    dispatches them, and [undo]. *)
Inductive Key : Type :=
| KDigit (digit : string)
| KOperator (operator : string)
| KModifier (modifier : string)
| KFunction (func : string)
| KDecimal
| KDelete
| KSign
| KBracket
| KReset
| KUndo.

Definition press (k : Key) : M unit :=
  match k with
  | KDigit d => addDigit d ;; ret tt
  | KOperator o => addOperator o
  | KModifier x => addModifier x
  | KFunction f => addFunction f
  | KDecimal => addDecimal
  | KDelete => deleteLast
  | KSign => changeSign ;; ret tt
  | KBracket => addBracket
  | KReset => resetEquation
  | KUndo => undo
  end.

Fixpoint pressAll (ks : list Key) : M unit :=
  match ks with
  | [] => ret tt
  | k :: r => press k ;; pressAll r
  end.

(** The state after the keys [ks], from a freshly initialised module. *)
Definition after (ks : list Key) : Model := exec (pressAll ks) (started "").

(** ** Evaluation *)

(** What [calculate] can throw: the four error classes of [models/errors],
    the engine's [TypeError], and whatever the expression library throws. *)
Inductive Error : Type :=
| EquationInvalidFormatError
| DivisionByZeroError
| CalculationError
| InfinityError (positive : bool)
| TypeError
| LibraryError.

Inductive Outcome (A : Type) : Type :=
| Returned (a : A)
| Thrown (e : Error).
Arguments Returned {A} a.
Arguments Thrown {A} e.

(** The four error kinds of the module's error taxonomy. *)
Definition isModelError (e : Error) : bool :=
  match e with
  | EquationInvalidFormatError | DivisionByZeroError | CalculationError
  | InfinityError _ => true
  | TypeError | LibraryError => false
  end.

(** What the module takes from outside: the values of the engine, the
    expression evaluator [math.evaluate] ([None] when it throws), and
    [formatValue], whose arithmetic is floating point and which fails with
    the engine's [TypeError] on a value without [toFixed] ([None]).  Both
    may run regular expressions, so they see and return [RegExp.$2]. *)
Record Engine : Type := mkEngine {
  number : Type;
  evaluate : string -> string -> option number * string;
  zero : number;
  isTiny : number -> bool;        (* Math.abs(result) < 1.0E-300 *)
  isNaN : number -> bool;
  isInfinity : number -> bool;    (* result === Infinity *)
  isNegInfinity : number -> bool; (* result === -Infinity *)
  formatValue : number -> string -> option string * string
}.

(** [equation.join(' ')]; [null] joins as the empty string. *)
Fixpoint join (e : list token) : string :=
  match e with
  | [] => ""
  | [x] => match x with Some s => s | None => "" end
  | x :: r => match x with Some s => s | None => "" end ++ " " ++ join r
  end.

Definition isOperandChar (c : ascii) : bool :=
  Str.isDigit c || Ascii.eqb c ".".

Definition isSpace (c : ascii) : bool := Ascii.eqb c " ".

(** One optional character of a pattern: how many characters it takes. *)
Definition optionalChar (c : ascii) (s : string) : nat :=
  match s with
  | String d _ => if Ascii.eqb c d then 1 else 0
  | EmptyString => 0
  end.

(** [ *(\(?\-?([0-9\.]+)\)?)] at the start of [s], the text after a [/]:
    group 2 and the length of the match. *)
Definition divisionOperand (s : string) : option (string * nat) :=
  let spaces := String.length (Str.takeWhile isSpace s) in
  let s1 := Str.drop spaces s in
  let paren := optionalChar "(" s1 in
  let s2 := Str.drop paren s1 in
  let minus := optionalChar "-" s2 in
  let s3 := Str.drop minus s2 in
  let num := Str.takeWhile isOperandChar s3 in
  if Str.isEmpty num then None
  else
    let s4 := Str.drop (String.length num) s3 in
    Some (num, spaces + paren + minus + String.length num + optionalChar ")" s4).

(** The matches of [/\/ *(\(?\-?([0-9\.]+)\)?)/g] in a string, in order,
    with the text between them. *)
Inductive Piece : Type :=
| Text (c : ascii)
| Division (num : string).

Fixpoint divisionPieces (skip : nat) (s : string) : list Piece :=
  match s with
  | EmptyString => []
  | String c r =>
      match skip with
      | S k => divisionPieces k r
      | O =>
          if Ascii.eqb c "/" then
            match divisionOperand r with
            | Some (num, len) => Division num :: divisionPieces len r
            | None => Text c :: divisionPieces 0 r
            end
          else Text c :: divisionPieces 0 r
      end
  end.

Fixpoint digitsValue (acc : Z) (s : string) : Z :=
  match s with
  | EmptyString => acc
  | String c r => digitsValue (10 * acc + Z.of_nat (nat_of_ascii c - 48)) r
  end.

(** [parseFloat(number) === 0] for a string of digits and dots.  The longest
    prefix that is a decimal literal is read; [NaN] when there is none.  The
    value is zero when its digits are, or when it is too small for a double
    (at most 2^-1075, which rounds to 0). *)
Definition parseFloatIsZero (num : string) : bool :=
  let int := Str.takeWhile Str.isDigit num in
  let frac :=
    match Str.drop (String.length int) num with
    | String c r => if Ascii.eqb c "." then Str.takeWhile Str.isDigit r else ""
    | EmptyString => ""
    end in
  if Str.isEmpty int && Str.isEmpty frac then false
  else (digitsValue 0 (int ++ frac) * 2 ^ 1075 <=? 10 ^ Z.of_nat (String.length frac))%Z.

(** Whether [checkDivisionByZero] throws on some match. *)
Definition dividesByZero (ps : list Piece) : bool :=
  existsb (fun p => match p with Division n => parseFloatIsZero n | Text _ => false end) ps.

(** The string [replace] builds from the callback's results ['/ ' + number]. *)
Fixpoint replaced (ps : list Piece) : string :=
  match ps with
  | [] => ""
  | Text c :: r => String c (replaced r)
  | Division n :: r => "/ " ++ n ++ replaced r
  end.

(** [RegExp.$2] after the search: group 2 of the last match, when there is
    one.  (All matches are found before the callback runs.) *)
Fixpoint lastDivision (ps : list Piece) (g : string) : string :=
  match ps with
  | [] => g
  | Text _ :: r => lastDivision r g
  | Division n :: r => lastDivision r n
  end.

Definition isValidEquation : M (Outcome bool) :=
  last <- getLastComponent true ;;
  if isOperator last then ret (Returned false)
  else
    match last with
    | None => ret (Thrown TypeError)
    | Some l =>
        modify (matched (endsInExponent l)) ;;
        ret (Returned (negb (endsInExponent l)))
    end.

Definition replaceLeftOperand (value : string) : M unit :=
  m <- get ;;
  let len := length (equation m) in
  if (len =? 0)%nat then ret tt
  else
    let leftOperandSize :=
      if (len =? 1)%nat then 0 else if (len =? 2)%nat then 1 else len - 3 in
    modify (fun m =>
      setCalculated false
        (setEquation
           (Arr.set (Arr.spliceFront leftOperandSize (equation m)) 0 (Some value))
           m)) ;;
    updateUndoLog.

Section Calculate.
Variable E : Engine.

(** The body of the [try] block. *)
Definition evaluateEquation : M (Outcome (number E)) :=
  m <- get ;;
  let evaluation := join (equation m) in
  let pieces := divisionPieces 0 evaluation in
  modify (fun m => setRegExp2 (lastDivision pieces (regExp2 m)) m) ;;
  if dividesByZero pieces then ret (Thrown DivisionByZeroError)
  else
    m1 <- get ;;
    let r := evaluate E ("(" ++ replaced pieces ++ ")") (regExp2 m1) in
    modify (setRegExp2 (snd r)) ;;
    match fst r with
    | None => ret (Thrown LibraryError)
    | Some result => ret (Returned (if isTiny E result then zero E else result))
    end.

Definition calculate : M (Outcome string) :=
  m <- get ;;
  (if calculated m then replaceLeftOperand (lastCalculationResult m) else ret tt) ;;
  valid <- isValidEquation ;;
  match valid with
  | Thrown e => ret (Thrown e)
  | Returned false => ret (Thrown EquationInvalidFormatError)
  | Returned true =>
      modify (setCalculated false) ;;
      r <- evaluateEquation ;;
      match r with
      | Thrown _ => ret (Thrown CalculationError)
      | Returned result =>
          if isNaN E result then ret (Thrown CalculationError)
          else if isInfinity E result || isNegInfinity E result then
            ret (Thrown (InfinityError (isInfinity E result)))
          else
            modify (setCalculated true) ;;
            m2 <- get ;;
            let f := formatValue E result (regExp2 m2) in
            modify (setRegExp2 (snd f)) ;;
            match fst f with
            | None => ret (Thrown TypeError)
            | Some formatted =>
                modify (setLastCalculationResult formatted) ;;
                ret (Returned formatted)
            end
      end
  end.
End Calculate.

(** An engine whose evaluator rejects every expression; the examples that
    use it never reach the evaluator. *)
Definition rejectingEngine : Engine :=
  mkEngine (fun _ g => (@None unit, g)) tt (fun _ => false) (fun _ => false)
    (fun _ => false) (fun _ => false) (fun _ g => (Some "", g)).

(** ** The mantissa check of [formatValue]

    [formatValue] starts from [textValue = value.toString()] and adds 1 to
    [value] under a condition on that text alone. *)

Definition isWhiteSpace (c : ascii) : bool :=
  let n := nat_of_ascii c in
  ((n =? 32) || (n =? 9) || (n =? 10) || (n =? 11) || (n =? 12) || (n =? 13)
   || (n =? 160))%nat.

(** [parseInt(s, 10)]; [None] is [NaN]. *)
Definition parseInt10 (s : string) : option Z :=
  let s1 := Str.dropWhile isWhiteSpace s in
  let negative := optionalChar "-" s1 in
  let s2 := Str.drop (negative + optionalChar "+" s1) s1 in
  let digits := Str.takeWhile Str.isDigit s2 in
  if Str.isEmpty digits then None
  else Some (if (negative =? 1)%nat then (- digitsValue 0 digits)%Z
             else digitsValue 0 digits).

(** Whether [value += 1] runs, for [textValue = value.toString()]. *)
Definition roundsMantissa (textValue : string) : bool :=
  match Str.indexOf "." textValue with
  | None => false
  | Some dotIndex =>
      if (MAX_DIGITS <=? dotIndex)%nat then
        match parseInt10 (Str.substr (dotIndex + 1)
                            (Nat.min (String.length textValue) 2) textValue) with
        | Some n => (95 <=? n)%Z
        | None => false
        end
      else false
  end.

(** ** The text of [formatValue]

    What [formatValue] does to the text of [value.toFixed(MAX_DIGITS)]
    before it looks at the size of the value. *)

(** [formatted.replace(/\d/g, '').length]. *)
Definition nonDigitCount (s : string) : nat :=
  String.length (Str.filter (fun c => negb (Str.isDigit c)) s).

(** A run of digits without its trailing zeros. *)
Fixpoint withoutTrailingZeros (r : string) : string :=
  match r with
  | EmptyString => EmptyString
  | String c r' =>
      match withoutTrailingZeros r' with
      | EmptyString =>
          if Ascii.eqb c "0" then EmptyString else String c EmptyString
      | t => String c t
      end
  end.

(** The first [replace] of [formatValue] on the text, whose expression is a
    point, groups of zeros closed by another digit, and zeros up to the end:
    at the first point that only digits follow, the last of them a zero, the
    trailing zeros go. *)
Fixpoint stripFraction (s : string) : string :=
  match s with
  | EmptyString => EmptyString
  | String c r =>
      if Ascii.eqb c "." && Str.forallb Str.isDigit r && Str.endsWith "0" r
      then String c (withoutTrailingZeros r)
      else String c (stripFraction r)
  end.

(** [.replace(/\.$/, '')]. *)
Definition stripPoint (s : string) : string :=
  if Str.endsWith "." s then Str.dropLast s else s.

(** What [formatValue] makes of the text of [value.toFixed(MAX_DIGITS)]
    before it looks at the size of the value: the text cut to the digit
    budget, without trailing zeros and without a trailing point. *)
Definition truncated (formatted : string) : string :=
  stripPoint
    (stripFraction
       (Str.substr 0 (MAX_DIGITS + nonDigitCount formatted) formatted)).

(** ** The view: thousands separators

    [addSeparators] and [regexpReplacer] of the module [views/main], which
    render a component of the equation and the result.  They run regular
    expressions of their own and call [isNegativeComponent], so they work
    on the same state. *)

Module View.

Definition SEPARATOR : string := ",".

(** [s.split('').reverse().join('')]. *)
Fixpoint reversed (s : string) : string :=
  match s with
  | EmptyString => EmptyString
  | String c r => (reversed r ++ String c EmptyString)%string
  end.

(** [s.match(new RegExp('.{1,3}', 'g'))]: from left to right, up to three
    characters that are no line terminators; the empty list is [null]. *)
Fixpoint matchGroups (s : string) : list string :=
  match s with
  | EmptyString => []
  | String a r1 =>
      if Str.isLineTerminator a then matchGroups r1
      else
        match r1 with
        | EmptyString => [String a EmptyString]
        | String b r2 =>
            if Str.isLineTerminator b
            then String a EmptyString :: matchGroups r2
            else
              match r2 with
              | EmptyString => [String a (String b EmptyString)]
              | String c r3 =>
                  if Str.isLineTerminator c
                  then String a (String b EmptyString) :: matchGroups r3
                  else String a (String b (String c EmptyString))
                       :: matchGroups r3
              end
        end
  end.

(** [regexpReplacer(match, sign, p1)]; [null.join] raises. *)
Definition regexpReplacer (sign p1 : string) : M (Outcome string) :=
  match matchGroups (reversed p1) with
  | [] => ret (Thrown TypeError)
  | p1array =>
      modify (matched true) ;;
      ret (Returned (sign ++ reversed (String.concat SEPARATOR p1array))%string)
  end.

(** [^(\-?)([0-9]+)]: the sign, the digits, and what follows them. *)
Definition leadingNumber (s : string) : option (string * string * string) :=
  let sign := if Str.startsWith "-" s then "-"%string else EmptyString in
  let body := if Str.startsWith "-" s then Str.drop 1 s else s in
  let digits := Str.takeWhile Str.isDigit body in
  if Str.isEmpty digits then None
  else Some (sign, digits, Str.dropWhile Str.isDigit body).

Definition addSeparators (equationString : string) : M (Outcome string) :=
  negative <- isNegativeComponent (Some equationString) ;;
  m <- get ;;
  let s := if negative then regExp2 m else equationString in
  separated <-
    match leadingNumber s with
    | Some (sign, p1, rest) =>
        modify (setRegExp2 p1) ;;
        r <- regexpReplacer sign p1 ;;
        ret (match r with
             | Returned t => Returned (t ++ rest)%string
             | Thrown e => Thrown e
             end)
    | None => ret (Returned s)
    end ;;
  ret (match separated with
       | Returned t =>
           Returned (if negative then ("(-" ++ t ++ ")")%string else t)
       | Thrown e => Thrown e
       end).

(** The string with its separators deleted. *)
Definition withoutSeparators (s : string) : string :=
  Str.filter (fun c => negb (Ascii.eqb c ",")) s.

(** A string with the separators [addSeparators] puts into its leading
    number. *)
Definition grouped (s : string) : string :=
  match leadingNumber s with
  | Some (sign, p1, rest) =>
      (sign ++ reversed (String.concat SEPARATOR (matchGroups (reversed p1)))
       ++ rest)%string
  | None => s
  end.

(** No character is a line terminator. *)
Definition oneLine (s : string) : bool :=
  Str.forallb (fun c => negb (Str.isLineTerminator c)) s.

End View.

(** * Vocabulary of the properties *)

(** The top of the log is the current equation, as it is after every
    operation that ends by recording. *)
Definition inSync (m : Model) : Prop :=
  Arr.fromEnd 1 (undoLog m) = Some (equation m).

(** A token that ends in a decimal separator with nothing after it. *)
Definition dangling (t : token) : bool :=
  truthy t && Str.endsWith "." (toStr t).

(** The token with a dangling decimal separator removed. *)
Definition stripDecimal (t : token) : token :=
  if dangling t then Some (Str.dropLast (toStr t)) else t.

(** The equation after [getLastComponent(true)]. *)
Definition correctLast (e : list token) : list token :=
  match Arr.fromEnd 1 e with
  | Some x => Arr.set e (length e - 1) (stripDecimal x)
  | None => e
  end.

(** The equation with its left operand replaced, as a second [=] leaves
    it: the result alone for one or two tokens, else the result and the
    last two tokens. *)
Definition withLeftOperand (value : string) (e : list token) : list token :=
  match rev e with
  | [] => []
  | [_] | [_; _] => [Some value]
  | z :: y :: _ :: _ => [Some value; y; z]
  end.

(** A digit key: one character of ["0"] .. ["9"]. *)
Definition isDigitKey (digit : string) : Prop :=
  exists c, digit = String c EmptyString /\ Str.isDigit c = true.

(** The digits of a token: sign, separator and brackets do not count. *)
Definition tokenDigits (t : token) : nat :=
  match t with Some s => digitCount s | None => 0 end.

(** Every token has at most [MAX_DIGITS] digits. *)
Definition withinCap (e : list token) : Prop :=
  Forall (fun t => tokenDigits t <= MAX_DIGITS) e.

(** [checkNegativeFormat] on a string. *)
Definition negativeFormat (s : string) : string :=
  if Str.startsWith "-d" s then ("(" ++ s ++ ")")%string else s.

(** The token [addDigit] builds on a lone minus sign: the digits of
    [RegExp.$2], whatever the last match of the page left there, and then
    the digit. *)
Definition minusCandidate (g digit : string) : string :=
  ("(-" ++ (if String.eqb g "0" then "" else g) ++ digit ++ ")")%string.

(** The token [addDigit] builds from the last token [s], the digit, and
    [RegExp.$2] as it finds it. *)
Definition digitCandidate (s digit g : string) : string :=
  match negativeGroup2 s with
  | Some n => ("(-" ++ (if String.eqb n "0" then "" else n) ++ digit ++ ")")%string
  | None =>
      if String.eqb s "-" then minusCandidate g digit
      else if String.eqb s "0" then digit
      else (s ++ digit)%string
  end.

(** The test that starts a new component in [addDigit]. *)
Definition startsNewComponent (last : token) (len : nat) : bool :=
  ((negb (truthy last) || isOperator last) || isModifier last
   || isBracket last || isFunction last)
  && (negb (isStr last "-") || (1 <? len)%nat).

(** The tokens after which [addModifier] appends. *)
Definition acceptsModifier (last : token) : bool :=
  truthy last
  && (matchesNumeric (toStr last) || isModifier last || isCloseBracket last).

(** The digits before the decimal point of a rendered number. *)
Definition integerDigits (textValue : string) : nat :=
  digitCount (Str.takeWhile (fun c => negb (Ascii.eqb c ".")) textValue).

(** The log holds at most 300 snapshots. *)
Definition logBounded (m : Model) : Prop := length (undoLog m) <= 300.

(** A computation that keeps a property of the state. *)
Definition preserves (P : Model -> Prop) (A : Type) (c : M A) : Prop :=
  forall m, P m -> P (snd (c m)).
Arguments preserves P {A} c.

(** The first two fractional digits read as a number are at least 95. *)
Definition fractionRoundsUp (frac : string) : bool :=
  match parseInt10 (Str.substr 0 2 frac) with
  | Some n => (95 <=? n)%Z
  | None => false
  end.

(** ** Vocabulary of the operations on the last component *)

(** The keys that record the equation they leave on every path. *)
Definition recordingKey (k : Key) : bool :=
  match k with
  | KDigit _ | KDecimal | KBracket | KReset => true
  | _ => false
  end.

(** What can come out of [calculate] once the equation passed the validity
    check: a result, one of two of the module's errors, or the [TypeError]
    of a [formatValue] that fails. *)
Definition evaluationOutcome (E : Engine) (o : Outcome string) : Prop :=
  match o with
  | Returned _ | Thrown CalculationError | Thrown (InfinityError _) => True
  | Thrown TypeError => exists result g, fst (formatValue E result g) = None
  | Thrown _ => False
  end.

(** The last token, corrected, stops the validity check. *)
Definition invalidEnd (x : token) : bool :=
  isOperator (stripDecimal x) || endsInExponent (toStr (stripDecimal x)).

Section EvaluateAndFormat.
Variable E : Engine.

(** [calculate] after the validity check succeeded. *)
Definition evaluateAndFormat : M (Outcome string) :=
  modify (setCalculated false) ;;
  r <- evaluateEquation E ;;
  match r with
  | Thrown _ => ret (Thrown CalculationError)
  | Returned result =>
      if isNaN E result then ret (Thrown CalculationError)
      else if isInfinity E result || isNegInfinity E result then
        ret (Thrown (InfinityError (isInfinity E result)))
      else
        modify (setCalculated true) ;;
        m2 <- get ;;
        let f := formatValue E result (regExp2 m2) in
        modify (setRegExp2 (snd f)) ;;
        match fst f with
        | None => ret (Thrown TypeError)
        | Some formatted =>
            modify (setLastCalculationResult formatted) ;;
            ret (Returned formatted)
        end
  end.

End EvaluateAndFormat.

(** A character the lazy group of [isNegativeComponent] runs over. *)
Definition insideWrapper (c : ascii) : bool :=
  negb (Ascii.eqb c ")") && negb (Str.isLineTerminator c).

(** The test of [changeSign] on the last token. *)
Definition signable (last : token) : bool :=
  truthy last && negb (isOperator last) && negb (isStr last "0").

(** The equation [deleteLast] leaves, by the last token [s]. *)
Definition afterDelete (pre : list token) (s : string) : list token :=
  match negativeGroup2 s with
  | Some lastPositive =>
      if (String.length lastPositive =? 1)%nat then pre
      else pre ++ [Some ("(-" ++ match stripExponent (Str.dropLast lastPositive) with
                                 | Some t => t
                                 | None => Str.dropLast lastPositive
                                 end ++ ")")%string]
  | None =>
      if (String.length s =? 1)%nat || isMinusDigit s
         || isFunction (Some s) || isModifier (Some s)
      then pre
      else pre ++ [Some match stripExponent (Str.dropLast s) with
                        | Some t => t
                        | None => Str.dropLast s
                        end]
  end.

(** A literal of digits and decimal points. *)
Definition plainLiteral (t : string) : bool :=
  negb (Str.isEmpty t) && Str.forallb isOperandChar t.

(** The last component as [addDecimal] leaves it, when it is an operand. *)
Definition withDecimal (s : string) : string :=
  if Str.contains "." s then negativeFormat s
  else match negativeGroup2 s with
       | Some n => ("(-" ++ n ++ DECIMAL ++ ")")%string
       | None => (s ++ DECIMAL)%string
       end.

(** The buffer as [addDecimal] leaves it. *)
Definition afterDecimal (e : list token) : list token :=
  let last := orNull (Arr.fromEnd 1 e) in
  if negb (truthy last) || isOperator last || isModifier last then
    (e ++ [Some ("0" ++ DECIMAL)%string])%list
  else if isFunction last then
    (e ++ [Some "*"; Some ("0" ++ DECIMAL)%string])%list
  else (Arr.pop e ++ [Some (withDecimal (toStr last))])%list.

Definition hasPoint (x : option token) : bool :=
  match x with
  | Some (Some s) => Str.contains "." s
  | _ => false
  end.

(** [countOpened] and [countClosed] of [addBracket]. *)
Definition countOpened (e : list token) : nat :=
  length (List.filter (fun c => isStr c BRACKET_OPEN) e)
  + length (List.filter isFunction e).

Definition countClosed (e : list token) : nat :=
  length (List.filter (fun c => isStr c BRACKET_CLOSE) e).

(** What the bracket key appends. *)
Inductive Bracketing : Type := Opens | Closes | MultipliesAndOpens.

Definition bracketing (e : list token) : Bracketing :=
  let last := orNull (Arr.fromEnd 1 e) in
  if (length e =? 0)%nat then Opens
  else if isBracket last then
    if isStr last BRACKET_CLOSE && (countClosed e <? countOpened e)%nat
    then Closes else Opens
  else if matchesNumeric (toStr last) && (countOpened e =? countClosed e)%nat
  then MultipliesAndOpens
  else if isOperator last then Opens
  else if negb (isStr last BRACKET_CLOSE) && negb (isStr last BRACKET_OPEN)
          && (countClosed e <? countOpened e)%nat
  then Closes
  else Opens.

Definition bracketTokens (b : Bracketing) : list token :=
  match b with
  | Opens => [Some "("]
  | Closes => [Some ")"]
  | MultipliesAndOpens => [Some "*"; Some "("]
  end.

(** A last component after which [addOperator] appends: neither empty, nor
    an operator, nor a function token, nor a number that waits for its
    exponent, nor of the shape the negative-format check wraps. *)
Definition settledOperand (x : token) : bool :=
  truthy x && negb (isOperator x) && negb (isFunction x)
  && negb (endsInE (toStr x)) && negb (Str.startsWith "-d" (toStr x)).

(** A fraction as it is shown: nothing when no digit is left of it. *)
Definition fractionText (digits : string) : string :=
  if Str.isEmpty digits then EmptyString else String "." digits.

(** The sign of a rendering. *)
Definition isSign (sign : string) : bool :=
  String.eqb sign "" || String.eqb sign "-".

(** ** Vocabulary of undo *)

(** From [m] the key [k] records at most one change of the equation: it
    does not start over from a shown result, it does not first drop a
    dangling decimal point or wrap the last component, and it adds no
    multiplication sign of its own. *)
Definition singleRecord (k : Key) (m : Model) : bool :=
  let e := equation m in
  let last := orNull (Arr.fromEnd 1 e) in
  let plain := negb (Str.startsWith "-d" (toStr last)) in
  match k with
  | KReset => true
  | KDelete => plain
  | KBracket =>
      match bracketing e with MultipliesAndOpens => false | _ => true end
  | KDecimal => plain && negb (isFunction last)
  | KSign => negb (calculated m)
  | KDigit _ => negb (calculated m) && plain
  | KOperator _ =>
      negb (calculated m) && plain && negb (dangling last)
      && (truthy last || (length e =? 0)%nat)
  | KModifier _ => negb (calculated m) && plain && negb (dangling last)
  | KFunction _ =>
      negb (calculated m) && negb (dangling last)
      && (negb (truthy last) || isOperator last || isOpenBracket last
          || isFunction last)
  | KUndo => false
  end.

(** A log whose top is [e0]. *)
Definition quiet (e0 : list token) (log : list (list token)) : Prop :=
  exists l, log = (l ++ [e0])%list.

(** A log that had the top [e0] and holds at most the snapshot [e'] over
    it. *)
Definition trail (e0 e' : list token) (log : list (list token)) : Prop :=
  quiet e0 log \/ exists l, log = ((l ++ [e0]) ++ [e'])%list.

(** The state [m'] reached from a log with top [e0]. *)
Definition trailed (e0 : list token) (m' : Model) : Prop :=
  trail e0 (equation m') (undoLog m').

(** * Properties *)

Local Open Scope list_scope.
Unset Implicit Arguments.

Arguments Arr.fromEnd : simpl never.
Arguments Arr.set : simpl never.
Arguments Arr.pop : simpl never.
Arguments Arr.push : simpl never.
Arguments trimLog : simpl never.
Arguments arraysEqual : simpl never.
Arguments recorded : simpl never.

(** ** Arrays and snapshots *)

Lemma fromEnd_1_snoc (A : Type) (l : list A) (x : A) :
  Arr.fromEnd 1 (l ++ [x]) = Some x.
Proof.
  unfold Arr.fromEnd. rewrite length_app. simpl.
  replace (length l + 1 <? 1)%nat with false
    by (symmetry; apply Nat.ltb_ge; lia).
  replace (length l + 1 - 1) with (length l) by lia.
  rewrite nth_error_app2 by lia. now rewrite Nat.sub_diag.
Qed.

Lemma fromEnd_2_snoc (A : Type) (l : list A) (y x : A) :
  Arr.fromEnd 2 ((l ++ [y]) ++ [x]) = Some y.
Proof.
  unfold Arr.fromEnd. rewrite !length_app. simpl.
  replace (length l + 1 + 1 <? 2)%nat with false
    by (symmetry; apply Nat.ltb_ge; lia).
  replace (length l + 1 + 1 - 2) with (length l) by lia.
  rewrite <- app_assoc. rewrite nth_error_app2 by lia.
  now rewrite Nat.sub_diag.
Qed.

Lemma fromEnd_2_single (A : Type) (x : A) : Arr.fromEnd 2 [x] = None.
Proof. reflexivity. Qed.

Lemma set_app_last (A : Type) (l : list A) (x v : A) :
  Arr.set (l ++ [x]) (length l) v = l ++ [v].
Proof.
  induction l as [|a l IH]; [reflexivity|].
  change (a :: Arr.set (l ++ [x]) (length l) v = a :: l ++ [v]).
  now rewrite IH.
Qed.

Lemma set_last_snoc (A : Type) (l : list A) (x v : A) :
  Arr.set (l ++ [x]) (length (l ++ [x]) - 1) v = l ++ [v].
Proof.
  rewrite length_app. simpl.
  replace (length l + 1 - 1) with (length l) by lia.
  apply set_app_last.
Qed.

Lemma pop_snoc (A : Type) (l : list A) (x : A) : Arr.pop (l ++ [x]) = l.
Proof. apply removelast_last. Qed.

Lemma fromEnd_1_some_inv (A : Type) (l : list A) (x : A) :
  Arr.fromEnd 1 l = Some x -> exists l0, l = l0 ++ [x].
Proof.
  destruct l as [|a l] using rev_ind; [discriminate|].
  rewrite fromEnd_1_snoc. intros [= <-]. now exists l.
Qed.

Lemma snoc_nonempty (A : Type) (x : list A) (y : A) :
  (0 <? length (x ++ [y]))%nat = true.
Proof. rewrite length_app. apply Nat.ltb_lt. simpl. lia. Qed.

Lemma token_eqb_eq (a b : token) : token_eqb a b = true <-> a = b.
Proof.
  destruct a as [s|], b as [t|]; simpl.
  - rewrite String.eqb_eq. split; [now intros -> | now intros [=]].
  - split; discriminate.
  - split; discriminate.
  - split; reflexivity.
Qed.

Lemma elementsEqual_eq (a b : list token) :
  elementsEqual a b = true <-> a = b.
Proof.
  revert b. induction a as [|x a IH]; intros [|y b]; simpl;
    try (split; [discriminate | intros [=]]); [tauto|].
  rewrite andb_true_iff, token_eqb_eq, IH.
  split; [now intros [-> ->] | now intros [= -> ->]].
Qed.

Lemma arraysEqual_eq (a b : list token) :
  arraysEqual (Some a) b = true <-> a = b.
Proof.
  unfold arraysEqual. destruct (Nat.eqb_spec (length a) (length b)) as [H|H]; simpl.
  - apply elementsEqual_eq.
  - split; [discriminate | intros ->; contradiction].
Qed.

Lemma arraysEqual_refl (a : list token) : arraysEqual (Some a) a = true.
Proof. now apply arraysEqual_eq. Qed.

(** The log never grows past 300 snapshots. *)
Lemma trimLog_length (l : list (list token)) :
  length l <= 301 -> length (trimLog l) <= 300.
Proof.
  intros H. unfold trimLog, Arr.sliceFrom.
  destruct (Nat.ltb_spec 300 (length l)); [rewrite length_skipn|]; lia.
Qed.

Lemma updateUndoLog_length (m : Model) :
  length (undoLog m) <= 300 ->
  length (undoLog (exec updateUndoLog m)) <= 300.
Proof.
  intros H. unfold exec, updateUndoLog, modify, recorded. simpl.
  apply trimLog_length.
  destruct (negb _); unfold Arr.push; rewrite ?length_app; simpl; lia.
Qed.

(** A trimmed log keeps its two most recent snapshots. *)
Lemma trimLog_keeps_two (l : list (list token)) (a b : list token) :
  exists l', trimLog ((l ++ [a]) ++ [b]) = (l' ++ [a]) ++ [b].
Proof.
  unfold trimLog, Arr.sliceFrom.
  destruct (Nat.ltb_spec 300 (length ((l ++ [a]) ++ [b]))) as [H|H];
    [|now exists l].
  rewrite !length_app in H. simpl in H.
  exists (skipn 100 l).
  rewrite !skipn_app.
  replace (100 - length l) with 0 by lia.
  replace (100 - length (l ++ [a])) with 0
    by (rewrite length_app; simpl length; lia).
  reflexivity.
Qed.

(** ** Strings *)

Lemma filter_append (p : ascii -> bool) (s t : string) :
  Str.filter p (s ++ t)%string = (Str.filter p s ++ Str.filter p t)%string.
Proof.
  induction s as [|c s IH]; [reflexivity|].
  cbn [append Str.filter]. destruct (p c); cbn [append]; now rewrite IH.
Qed.

Lemma length_append (s t : string) :
  String.length (s ++ t)%string = String.length s + String.length t.
Proof. induction s as [|c s IH]; [reflexivity|]. cbn. now rewrite IH. Qed.

Lemma append_empty (s : string) : (s ++ "")%string = s.
Proof. induction s as [|c s IH]; [reflexivity|]. cbn. now rewrite IH. Qed.

Lemma digitCount_append (s t : string) :
  digitCount (s ++ t)%string = digitCount s + digitCount t.
Proof. unfold digitCount. now rewrite filter_append, length_append. Qed.

Lemma memberOf_In (l : list string) (s : string) :
  memberOf l (Some s) = true -> In s l.
Proof.
  unfold memberOf. rewrite existsb_exists. intros [x [Hx He]].
  apply String.eqb_eq in He. now subst.
Qed.

(** ** Running the buffer primitives *)

Lemma run_bind (A B : Type) (c : M A) (k : A -> M B) (m : Model) :
  bind c k m = k (fst (c m)) (snd (c m)).
Proof. reflexivity. Qed.

Lemma matched_run (b : bool) (e : list token) (c : bool) (r : string)
  (log : list (list token)) (g : string) :
  matched b (mkModel e c r log g) = mkModel e c r log (if b then "" else g).
Proof. now destruct b. Qed.

Lemma correctInto_run (correct : bool) (last : token) (m : Model) :
  correctInto correct last m
  = if correct && dangling last
    then (stripDecimal last,
          setEquation (Arr.set (equation m) (length (equation m) - 1)
                         (stripDecimal last)) m)
    else (last, m).
Proof.
  unfold correctInto, stripDecimal, dangling, Str.endsWith, DECIMAL.
  destruct last as [l|]; [|now rewrite andb_false_r].
  simpl toStr. destruct correct; [|reflexivity].
  destruct (truthy (Some l)); [|reflexivity].
  destruct (Str.lastChar l =? ".")%string; reflexivity.
Qed.

Lemma correctLast_snoc (pre : list token) (x : token) :
  correctLast (pre ++ [x]) = pre ++ [stripDecimal x].
Proof. unfold correctLast. now rewrite fromEnd_1_snoc, set_last_snoc. Qed.

Lemma dangling_orNull (p : token) : dangling (orNull (Some p)) = dangling p.
Proof.
  unfold orNull, dangling. destruct (truthy p) eqn:H; [now rewrite H|reflexivity].
Qed.

Lemma getLastComponent_snoc (correct : bool) (pre : list token) (x : token)
  (c : bool) (r : string) (log : list (list token)) (g : string) :
  getLastComponent correct (mkModel (pre ++ [x]) c r log g)
  = (if truthy x then (if correct then stripDecimal x else x) else None,
     mkModel (pre ++ [if correct then stripDecimal x else x]) c r log g).
Proof.
  unfold getLastComponent. rewrite run_bind. simpl.
  rewrite fromEnd_1_snoc, correctInto_run. unfold orNull.
  destruct (truthy x) eqn:Ht.
  - destruct correct; [|reflexivity]. simpl andb.
    unfold stripDecimal. destruct (dangling x); [|reflexivity].
    unfold setEquation. simpl. now rewrite set_last_snoc.
  - replace (dangling None) with false by reflexivity.
    rewrite andb_false_r. unfold stripDecimal, dangling. rewrite Ht. simpl.
    now destruct correct.
Qed.

Lemma getLastComponent_nil (correct : bool)
  (c : bool) (r : string) (log : list (list token)) (g : string) :
  getLastComponent correct (mkModel [] c r log g) = (None, mkModel [] c r log g).
Proof. reflexivity. Qed.

Lemma getPenultimateComponent_snoc (pre : list token) (p x : token)
  (c : bool) (r : string) (log : list (list token)) (g : string) :
  getPenultimateComponent true (mkModel ((pre ++ [p]) ++ [x]) c r log g)
  = (if truthy p then stripDecimal p else None,
     mkModel ((pre ++ [p]) ++ [if dangling p then stripDecimal p else x]) c r log g).
Proof.
  unfold getPenultimateComponent. rewrite run_bind. simpl.
  rewrite fromEnd_2_snoc, correctInto_run. unfold orNull.
  destruct (truthy p) eqn:Ht.
  - simpl andb. destruct (dangling p) eqn:Hd.
    + unfold setEquation. simpl. now rewrite set_last_snoc.
    + unfold stripDecimal. now rewrite Hd.
  - unfold dangling. rewrite Ht. reflexivity.
Qed.

Lemma getPenultimateComponent_single (x : token)
  (c : bool) (r : string) (log : list (list token)) (g : string) :
  getPenultimateComponent true (mkModel [x] c r log g)
  = (None, mkModel [x] c r log g).
Proof. reflexivity. Qed.

Lemma replaceLastComponent_snoc (value : token) (pre : list token) (x : token)
  (c : bool) (r : string) (log : list (list token)) (g : string) :
  replaceLastComponent value (mkModel (pre ++ [x]) c r log g)
  = (tt, mkModel (pre ++ [value]) false r (recorded log (pre ++ [value])) g).
Proof.
  unfold replaceLastComponent, updateUndoLog, modify. rewrite run_bind. simpl.
  rewrite snoc_nonempty. simpl. now rewrite set_last_snoc.
Qed.

Lemma restart_idle (withResult : bool) (e : list token)
  (r : string) (log : list (list token)) (g : string) :
  restart withResult (mkModel e false r log g) = (tt, mkModel e false r log g).
Proof. reflexivity. Qed.

Lemma restart_reset (e : list token)
  (r : string) (log : list (list token)) (g : string) :
  restart false (mkModel e true r log g)
  = (tt, mkModel [] false r (recorded log []) g).
Proof. reflexivity. Qed.

Lemma checkNegativeFormat_plain (s : string) (m : Model) :
  Str.startsWith "-d" s = false ->
  checkNegativeFormat (Some s) m = (Some s, m).
Proof.
  intros H. unfold checkNegativeFormat. rewrite H, andb_false_r. reflexivity.
Qed.

Lemma checkNegativeFormat_run (s : string) (e : list token) (c : bool)
  (r : string) (log : list (list token)) (g : string) :
  truthy (Some s) = true ->
  checkNegativeFormat (Some s) (mkModel e c r log g)
  = (Some (negativeFormat s),
     mkModel e c r log (if Str.startsWith "-d" s then "" else g)).
Proof.
  intros H. unfold checkNegativeFormat, negativeFormat. rewrite H. cbn [andb].
  destruct (Str.startsWith "-d" s); reflexivity.
Qed.

Lemma isNegativeComponent_run (s : string) (e : list token) (c : bool)
  (r : string) (log : list (list token)) (g : string) :
  isNegativeComponent (Some s) (mkModel e c r log g)
  = (match negativeGroup2 s with Some _ => true | None => false end,
     mkModel e c r log
       (match negativeGroup2 s with Some n => n | None => g end)).
Proof.
  unfold isNegativeComponent. cbn [toStr].
  destruct (negativeGroup2 s); reflexivity.
Qed.

Lemma isNumeric_run (t : token) (e : list token) (c : bool) (r : string)
  (log : list (list token)) (g : string) :
  isNumeric t (mkModel e c r log g)
  = (matchesNumeric (toStr t),
     mkModel e c r log (if matchesNumeric (toStr t) then "" else g)).
Proof. unfold isNumeric. rewrite run_bind. cbn [modify fst snd ret]. now rewrite matched_run. Qed.

Lemma countDigits_run (s : string) (e : list token) (c : bool) (r : string)
  (log : list (list token)) (g : string) :
  countDigits s (mkModel e c r log g)
  = (digitCount s,
     mkModel e c r log
       (if Str.existsb (fun c => negb (Str.isDigit c)) s then "" else g)).
Proof.
  unfold countDigits. rewrite run_bind. cbn [modify fst snd ret].
  now rewrite matched_run.
Qed.

(** ** Undo *)

Lemma undo_two_snapshots (m : Model) (l : list (list token)) (a : list token) :
  undoLog m = (l ++ [a]) ++ [equation m] ->
  equation (exec undo m) = a.
Proof.
  destruct m as [e c r log g]. simpl. intros ->.
  unfold exec, undo, bind, get, popInto, modify. simpl.
  rewrite snoc_nonempty. simpl. rewrite fromEnd_1_snoc. simpl.
  rewrite arraysEqual_refl, pop_snoc, snoc_nonempty. simpl.
  now rewrite fromEnd_1_snoc.
Qed.

(** After a single [addComponent], the recorded mutation of the buffer,
    [undo] gives the equation back. *)
Lemma undo_after_addComponent (v : token) (m : Model) :
  inSync m ->
  equation (exec undo (exec (addComponent v) m)) = equation m.
Proof.
  destruct m as [e c r log g]. unfold inSync. simpl. intros H.
  destruct (fromEnd_1_some_inv _ _ _ H) as [l0 ->].
  assert (Hne : arraysEqual (Some e) (Arr.push e v) = false).
  { unfold arraysEqual, Arr.push. rewrite length_app.
    now replace (length e =? length e + length [v])%nat with false
      by (symmetry; apply Nat.eqb_neq; simpl; lia). }
  destruct (trimLog_keeps_two l0 e (Arr.push e v)) as [l' Hl'].
  apply undo_two_snapshots with (l := l').
  unfold exec, addComponent, bind, modify, updateUndoLog, recorded. simpl.
  rewrite H, Hne. simpl. exact Hl'.
Qed.

(** C1, as the claim states it, fails: after the digit 5 the bracket key
    inserts the two components [*] and [(], each with its own snapshot, and
    [undo] steps back over the last one only. *)
Lemma undo_after_addBracket_counterexample :
  equation (after [KDigit "5"]) = [Some "5"]
  /\ equation (exec (press KBracket) (after [KDigit "5"]))
     = [Some "5"; Some "*"; Some "("]
  /\ equation (exec undo (exec (press KBracket) (after [KDigit "5"])))
     = [Some "5"; Some "*"]
  /\ equation (exec undo (exec (press KBracket) (after [KDigit "5"])))
     <> equation (after [KDigit "5"]).
Proof. repeat split; try reflexivity. discriminate. Qed.

(** After an [undo] the top of the log is an older snapshot, and the next
    operation followed by [undo] goes back to it; and a key that changes
    nothing records nothing, so that [undo] takes back the operation before
    it. *)
Lemma undo_after_undo_example :
  equation (after [KDigit "1"; KOperator "+"; KDigit "2"; KUndo])
  = [Some "1"; Some "+"]
  /\ equation (after [KDigit "1"; KOperator "+"; KDigit "2"; KUndo;
                      KDigit "3"; KUndo])
     = [Some "1"].
Proof. split; reflexivity. Qed.

Lemma undo_after_idle_key_example :
  equation (after [KDigit "0"; KSign]) = [Some "0"]
  /\ equation (after [KDigit "0"; KSign; KUndo]) = [].
Proof. split; reflexivity. Qed.

(** ** The cap of the undo log *)

Lemma updateUndoLog_full_log (m : Model) :
  length (undoLog m) = 300 ->
  arraysEqual (Arr.fromEnd 1 (undoLog m)) (equation m) = false ->
  length (undoLog (exec updateUndoLog m)) = 201.
Proof.
  intros H Hne. unfold exec, updateUndoLog, modify, recorded. simpl.
  rewrite Hne. simpl. unfold trimLog, Arr.push, Arr.sliceFrom.
  rewrite length_app, H.
  change (300 <? 300 + length [equation m])%nat with true.
  cbv iota. now rewrite length_skipn, length_app, H.
Qed.

(** C7: a log of 300 snapshots that records one more is cut to 201
    snapshots, not 200.  The keys 1, delete, 1, delete, ... fill the log. *)
Theorem undoLog_trim_keeps_201 :
  length (undoLog (after (concat (repeat [KDigit "1"; KDelete] 149)
                          ++ [KDigit "1"]))) = 300
  /\ length (undoLog (after (concat (repeat [KDigit "1"; KDelete] 149)
                             ++ [KDigit "1"; KDelete]))) = 201.
Proof. split; vm_compute; reflexivity. Qed.

(** ** The bound of the undo log *)

Section Preservation.
Variable P : Model -> Prop.

Lemma preserves_ret (A : Type) (a : A) : preserves P (ret a).
Proof. intros m H. exact H. Qed.

Lemma preserves_get : preserves P get.
Proof. intros m H. exact H. Qed.

Lemma preserves_bind (A B : Type) (c : M A) (k : A -> M B) :
  preserves P c -> (forall a, preserves P (k a)) -> preserves P (bind c k).
Proof. intros Hc Hk m H. rewrite run_bind. apply Hk, Hc, H. Qed.

Lemma preserves_modify (f : Model -> Model) :
  (forall m, P m -> P (f m)) -> preserves P (modify f).
Proof. intros Hf m H. apply Hf, H. Qed.
End Preservation.

Lemma logBounded_same_log (f : Model -> Model) :
  (forall m, undoLog (f m) = undoLog m) -> preserves logBounded (modify f).
Proof.
  intros Hf. apply preserves_modify. intros m H.
  unfold logBounded. now rewrite Hf.
Qed.

Lemma logBounded_updateUndoLog : preserves logBounded updateUndoLog.
Proof. intros m H. now apply updateUndoLog_length. Qed.

Lemma logBounded_popInto : preserves logBounded popInto.
Proof.
  intros [e c r log g]. unfold logBounded, popInto, modify. cbn [snd undoLog].
  intros H. destruct (Arr.fromEnd 1 log); [|exact H].
  cbn [setEquation setUndoLog undoLog]. unfold Arr.pop.
  destruct log as [|x log _] using rev_ind; [exact H|].
  rewrite removelast_last. rewrite length_app in H. lia.
Qed.

Ltac same_log :=
  let m := fresh "m" in
  intros m; destruct m; unfold matched; cbv beta zeta;
  repeat match goal with
         | |- context [if ?b then _ else _] => destruct b
         end;
  reflexivity.

Ltac preserve :=
  repeat first
    [ apply preserves_ret
    | apply preserves_get
    | apply logBounded_updateUndoLog
    | apply logBounded_popInto
    | apply preserves_bind; [|intros ?]
    | apply logBounded_same_log; same_log
    | progress cbv zeta
    | match goal with
      | |- preserves _ (if ?b then _ else _) => destruct b
      | |- preserves _ (match ?x with _ => _ end) => destruct x
      end ].

Lemma logBounded_replaceLastComponent (v : token) :
  preserves logBounded (replaceLastComponent v).
Proof. unfold replaceLastComponent. preserve. Qed.

Lemma logBounded_addComponent (v : token) :
  preserves logBounded (addComponent v).
Proof. unfold addComponent. preserve. Qed.

Lemma logBounded_resetEquation : preserves logBounded resetEquation.
Proof. unfold resetEquation. preserve. Qed.

Lemma logBounded_restart (w : bool) : preserves logBounded (restart w).
Proof.
  unfold restart. preserve;
    first [apply logBounded_resetEquation | apply logBounded_addComponent].
Qed.

Lemma logBounded_correctInto (c : bool) (t : token) :
  preserves logBounded (correctInto c t).
Proof. unfold correctInto. preserve. Qed.

Lemma logBounded_getLastComponent (c : bool) :
  preserves logBounded (getLastComponent c).
Proof. unfold getLastComponent, correctInto. preserve. Qed.

Lemma logBounded_getPenultimateComponent (c : bool) :
  preserves logBounded (getPenultimateComponent c).
Proof. unfold getPenultimateComponent, correctInto. preserve. Qed.

Lemma logBounded_checkNegativeFormat (t : token) :
  preserves logBounded (checkNegativeFormat t).
Proof. unfold checkNegativeFormat. preserve. Qed.

Lemma logBounded_isNegativeComponent (t : token) :
  preserves logBounded (isNegativeComponent t).
Proof. unfold isNegativeComponent. preserve. Qed.

Lemma logBounded_isNumeric (t : token) : preserves logBounded (isNumeric t).
Proof. unfold isNumeric. preserve. Qed.

Lemma logBounded_countDigits (s : string) : preserves logBounded (countDigits s).
Proof. unfold countDigits. preserve. Qed.

Lemma logBounded_removeLastChar (s : string) :
  preserves logBounded (removeLastChar s).
Proof. unfold removeLastChar. preserve. Qed.

Lemma logBounded_addComponents (sign : string) :
  preserves logBounded (addComponents sign).
Proof.
  induction sign as [|c sign IH]; cbn [addComponents]; preserve;
    first [apply logBounded_addComponent | exact IH].
Qed.

Ltac preserve_ops :=
  repeat first
    [ apply logBounded_replaceLastComponent
    | apply logBounded_addComponent
    | apply logBounded_resetEquation
    | apply logBounded_restart
    | apply logBounded_correctInto
    | apply logBounded_getLastComponent
    | apply logBounded_getPenultimateComponent
    | apply logBounded_checkNegativeFormat
    | apply logBounded_isNegativeComponent
    | apply logBounded_isNumeric
    | apply logBounded_countDigits
    | apply logBounded_removeLastChar
    | apply logBounded_addComponents
    | progress preserve ].

Lemma logBounded_addOperator (o : string) : preserves logBounded (addOperator o).
Proof. unfold addOperator. preserve_ops. Qed.

(** Every key keeps the log within 300 snapshots. *)
Lemma logBounded_press (k : Key) : preserves logBounded (press k).
Proof.
  destruct k; cbn [press];
    unfold addDigit, addModifier, addFunction, addDecimal, deleteLast,
      changeSign, addBracket, undo, popEquation, countComponent,
      countFunctions, isEmpty;
    preserve_ops; apply logBounded_addOperator.
Qed.

(** X1: whatever keys are pressed from the start, the undo log never holds
    more than 300 snapshots. *)
Lemma logBounded_after (ks : list Key) : logBounded (after ks).
Proof.
  unfold after, exec.
  assert (H : logBounded (started "")) by (apply Nat.leb_le; reflexivity).
  revert H. generalize (started ""). induction ks as [|k ks IH]; intros m H.
  - exact H.
  - cbn [pressAll]. rewrite run_bind. apply IH. now apply logBounded_press.
Qed.

Lemma logBounded_calculate (E : Engine) : preserves logBounded (calculate E).
Proof.
  unfold calculate, replaceLeftOperand, isValidEquation, evaluateEquation.
  preserve_ops.
Qed.

(** ** The nine-digit cap *)

Lemma negativeFormat_digits (s : string) :
  Str.filter Str.isDigit (negativeFormat s) = Str.filter Str.isDigit s.
Proof.
  unfold negativeFormat. destruct (Str.startsWith "-d" s); [|reflexivity].
  change ("(" ++ s ++ ")")%string with (String "(" (s ++ ")")).
  cbn [Str.filter]. change (Str.isDigit "(") with false. cbv iota.
  rewrite filter_append. cbn. now rewrite append_empty.
Qed.

(** [addDigit] from a state with the flag clear, by the test on the last
    token. *)
Lemma addDigit_new (digit : string) (pre : list token) (x : token)
  (r : string) (log : list (list token)) (g : string) :
  startsNewComponent (if truthy x then x else None) (length (pre ++ [x])) = true ->
  addDigit digit (mkModel (pre ++ [x]) false r log g)
  = (true, mkModel ((pre ++ [x]) ++ [Some digit]) false r
             (recorded log ((pre ++ [x]) ++ [Some digit])) g).
Proof.
  intros H. unfold addDigit.
  rewrite run_bind, restart_idle. cbn [fst snd].
  rewrite run_bind, getLastComponent_snoc. cbn [fst snd].
  rewrite run_bind. cbn [get fst snd equation].
  unfold startsNewComponent in H. rewrite H. reflexivity.
Qed.

Lemma addDigit_merge (digit s : string) (pre : list token)
  (r : string) (log : list (list token)) (g : string) :
  truthy (Some s) = true ->
  startsNewComponent (Some s) (length (pre ++ [Some s])) = false ->
  let cand := digitCandidate s digit (if Str.startsWith "-d" s then "" else g) in
  let ok := (digitCount cand <=? MAX_DIGITS)%nat in
  let res := addDigit digit (mkModel (pre ++ [Some s]) false r log g) in
  fst res = ok
  /\ equation (snd res) = pre ++ [Some (if ok then cand else negativeFormat s)]
  /\ calculated (snd res) = false.
Proof.
  intros Ht H cand ok res.
  assert (Hres : res = addDigit digit (mkModel (pre ++ [Some s]) false r log g))
    by reflexivity.
  clearbody res. unfold addDigit in Hres.
  rewrite run_bind, restart_idle in Hres. cbn [fst snd] in Hres.
  rewrite run_bind, getLastComponent_snoc, Ht in Hres. cbn [fst snd] in Hres.
  rewrite run_bind in Hres. cbn [get fst snd equation] in Hres.
  unfold startsNewComponent in H. rewrite H in Hres.
  rewrite run_bind, (checkNegativeFormat_run _ _ _ _ _ _ Ht) in Hres.
  cbn [fst snd] in Hres.
  rewrite run_bind, replaceLastComponent_snoc in Hres. cbn [fst snd] in Hres.
  rewrite run_bind, isNegativeComponent_run in Hres. cbn [fst snd] in Hres.
  rewrite run_bind in Hres. cbn [get fst snd regExp2] in Hres.
  assert (Hc :
    (if match negativeGroup2 s with Some _ => true | None => false end
        || isStr (Some s) "-"
     then ("(-" ++ (if String.eqb (match negativeGroup2 s with
                                   | Some n => n
                                   | None => if Str.startsWith "-d" s then "" else g
                                   end) "0"
                    then ""
                    else match negativeGroup2 s with
                         | Some n => n
                         | None => if Str.startsWith "-d" s then "" else g
                         end) ++ digit ++ ")")%string
     else if isStr (Some s) "0" then digit else (toStr (Some s) ++ digit)%string)
    = cand).
  { unfold cand, digitCandidate, minusCandidate, isStr, token_eqb. cbn [toStr].
    destruct (negativeGroup2 s); [reflexivity|]. cbn [orb].
    destruct (String.eqb s "-"); reflexivity. }
  rewrite Hc in Hres. rewrite run_bind, countDigits_run in Hres.
  cbn [fst snd] in Hres. fold ok in Hres.
  destruct ok.
  - rewrite run_bind, replaceLastComponent_snoc in Hres.
    cbn [fst snd ret] in Hres. subst res. repeat split.
  - rewrite run_bind in Hres.
    cbn [updateUndoLog modify fst snd ret setUndoLog
         equation calculated lastCalculationResult regExp2] in Hres.
    subst res. repeat split.
Qed.

Lemma addDigit_on_empty (digit : string)
  (r : string) (log : list (list token)) (g : string) :
  addDigit digit (mkModel [] false r log g)
  = (true, mkModel [Some digit] false r (recorded log [Some digit]) g).
Proof. reflexivity. Qed.

Lemma addDigit_after_result (digit : string) (e : list token)
  (r : string) (log : list (list token)) (g : string) :
  addDigit digit (mkModel e true r log g)
  = addDigit digit (mkModel [] false r (recorded log []) g).
Proof.
  unfold addDigit at 1. rewrite run_bind, restart_reset. cbn [fst snd].
  reflexivity.
Qed.

Lemma digitKey_count (digit : string) : isDigitKey digit -> digitCount digit = 1.
Proof. intros [c [-> H]]. unfold digitCount. cbn [Str.filter]. now rewrite H. Qed.

Lemma withinCap_addDigit (digit : string) (m : Model) :
  isDigitKey digit -> withinCap (equation m) ->
  withinCap (equation (exec (addDigit digit) m)).
Proof.
  intros Hd. destruct m as [e cal r log g]. cbn [equation]. intros He.
  assert (Hone : tokenDigits (Some digit) <= MAX_DIGITS).
  { cbn [tokenDigits]. rewrite (digitKey_count _ Hd). unfold MAX_DIGITS. lia. }
  unfold exec. destruct cal.
  { rewrite addDigit_after_result, addDigit_on_empty.
    constructor; [exact Hone | constructor]. }
  destruct e as [|x pre _] using rev_ind.
  { rewrite addDigit_on_empty. constructor; [exact Hone | constructor]. }
  unfold withinCap in *. apply Forall_app in He. destruct He as [Hpre Hx].
  destruct (startsNewComponent (if truthy x then x else None) (length (pre ++ [x])))
    eqn:Hnew.
  - rewrite (addDigit_new _ _ _ _ _ _ Hnew). cbn [snd equation].
    apply Forall_app. split; [apply Forall_app; now split|].
    constructor; [exact Hone | constructor].
  - destruct (truthy x) eqn:Ht; [|discriminate Hnew].
    destruct x as [s|]; [|discriminate Ht].
    destruct (addDigit_merge digit s pre r log g Ht Hnew) as [_ [Hrun _]].
    rewrite Hrun.
    apply Forall_app. split; [exact Hpre|]. constructor; [|constructor].
    cbn [tokenDigits].
    destruct (digitCount _ <=? MAX_DIGITS)%nat eqn:Hok.
    + now apply Nat.leb_le.
    + unfold digitCount. rewrite negativeFormat_digits.
      inversion Hx; assumption.
Qed.

Lemma withinCap_pressAll (ds : list string) (m : Model) :
  Forall isDigitKey ds -> withinCap (equation m) ->
  withinCap (equation (exec (pressAll (map KDigit ds)) m)).
Proof.
  intros H. revert m. induction H as [|d ds Hd _ IH]; intros m Hm; [exact Hm|].
  cbn [map pressAll]. unfold exec. rewrite run_bind.
  apply IH. unfold press. rewrite run_bind. cbn [ret snd].
  now apply withinCap_addDigit.
Qed.

Lemma nine_digits_merge (s : string) (n : nat) :
  digitCount s = MAX_DIGITS ->
  truthy (Some s) = true /\ startsNewComponent (Some s) n = false
  /\ String.eqb s "-" = false /\ String.eqb s "0" = false.
Proof.
  intros H.
  assert (Hk : forall l, (forall k, In k l -> digitCount k <> MAX_DIGITS) ->
                         memberOf l (Some s) = false).
  { intros l Hl. destruct (memberOf l (Some s)) eqn:E; [|reflexivity].
    apply memberOf_In in E. now apply Hl in E. }
  assert (Ho : isOperator (Some s) = false).
  { apply Hk. intros k Hin. cbn in Hin.
    repeat (destruct Hin as [<-|Hin]; [discriminate|]). contradiction. }
  assert (Hm : isModifier (Some s) = false).
  { apply Hk. intros k Hin. cbn in Hin.
    repeat (destruct Hin as [<-|Hin]; [discriminate|]). contradiction. }
  assert (Hf : isFunction (Some s) = false).
  { apply Hk. intros k Hin. cbn in Hin.
    repeat (destruct Hin as [<-|Hin]; [discriminate|]). contradiction. }
  assert (Hb : isBracket (Some s) = false).
  { unfold isBracket, isStr, token_eqb, BRACKET_CLOSE, BRACKET_OPEN.
    destruct (String.eqb_spec s ")") as [->|_]; [discriminate H|].
    destruct (String.eqb_spec s "(") as [->|_]; [discriminate H|]. reflexivity. }
  assert (Ht : truthy (Some s) = true).
  { destruct s; [discriminate H | reflexivity]. }
  unfold startsNewComponent. rewrite Ht, Ho, Hm, Hf, Hb.
  repeat split.
  - destruct (String.eqb_spec s "-") as [->|_]; [discriminate H | reflexivity].
  - destruct (String.eqb_spec s "0") as [->|_]; [discriminate H | reflexivity].
Qed.

Lemma tenth_digit_candidate (s digit g : string) :
  isDigitKey digit ->
  digitCount s = MAX_DIGITS ->
  (forall n, negativeGroup2 s = Some n -> digitCount n = MAX_DIGITS) ->
  digitCount (digitCandidate s digit g) = S MAX_DIGITS.
Proof.
  intros Hd Hs Hn. unfold digitCandidate.
  destruct (nine_digits_merge s 0 Hs) as [_ [_ [Hminus Hzero]]].
  destruct (negativeGroup2 s) as [n|].
  - specialize (Hn n eq_refl).
    destruct (String.eqb_spec n "0") as [->|_]; [discriminate Hn|].
    change ("(-" ++ n ++ digit ++ ")")%string
      with (String "(" (String "-" (n ++ digit ++ ")"))).
    unfold digitCount. cbn [Str.filter].
    change (Str.isDigit "(") with false. change (Str.isDigit "-") with false.
    cbv iota. fold (digitCount (n ++ digit ++ ")")).
    rewrite !digitCount_append, Hn, (digitKey_count _ Hd).
    change (digitCount ")") with 0. lia.
  - rewrite Hminus, Hzero, digitCount_append, Hs, (digitKey_count _ Hd). lia.
Qed.

(** C2: a sequence of [addDigit] calls keeps every token within nine
    digits, from any state whose tokens are; and on a last token of nine
    digits (all of them inside the negative wrapper when it has one) the
    call returns [false] and leaves the digits of the token as they are. *)
Theorem addDigit_nine_digit_cap (ds : list string) (m : Model) :
  Forall isDigitKey ds ->
  withinCap (equation m) ->
  withinCap (equation (exec (pressAll (map KDigit ds)) m))
  /\ (forall (digit s : string) (pre : list token),
        isDigitKey digit ->
        calculated (exec (pressAll (map KDigit ds)) m) = false ->
        equation (exec (pressAll (map KDigit ds)) m) = pre ++ [Some s] ->
        digitCount s = MAX_DIGITS ->
        (forall n, negativeGroup2 s = Some n -> digitCount n = MAX_DIGITS) ->
        eval (addDigit digit) (exec (pressAll (map KDigit ds)) m) = false
        /\ exists s',
             equation (exec (addDigit digit) (exec (pressAll (map KDigit ds)) m))
             = pre ++ [Some s']
             /\ Str.filter Str.isDigit s' = Str.filter Str.isDigit s).
Proof.
  intros Hds Hm. split; [now apply withinCap_pressAll|].
  generalize (exec (pressAll (map KDigit ds)) m). clear m Hm.
  intros [e cal r log g] digit s pre Hd Hcal He Hs Hn.
  cbn [calculated equation] in Hcal, He. subst cal e.
  destruct (nine_digits_merge s (length (pre ++ [Some s])) Hs) as [Ht [Hnew _]].
  destruct (addDigit_merge digit s pre r log g Ht Hnew) as [Hfst [Heq _]].
  unfold eval, exec. rewrite Hfst, Heq.
  rewrite (tenth_digit_candidate s digit _ Hd Hs Hn).
  change (S MAX_DIGITS <=? MAX_DIGITS)%nat with false.
  split; [reflexivity|]. exists (negativeFormat s).
  split; [reflexivity | apply negativeFormat_digits].
Qed.

Lemma addDigit_nine_digit_cap_witness :
  Forall isDigitKey ["1"; "2"; "3"; "4"; "5"; "6"; "7"; "8"; "9"]
  /\ withinCap (equation (started ""))
  /\ withinCap
       (equation (after (map KDigit ["1"; "2"; "3"; "4"; "5"; "6"; "7"; "8"; "9"])))
  /\ eval (addDigit "0")
       (after (map KDigit ["1"; "2"; "3"; "4"; "5"; "6"; "7"; "8"; "9"])) = false.
Proof.
  assert (H : Forall isDigitKey ["1"; "2"; "3"; "4"; "5"; "6"; "7"; "8"; "9"]).
  { repeat constructor; eexists; split; reflexivity. }
  assert (H0 : withinCap (equation (started ""))) by constructor.
  split; [exact H|]. split; [exact H0|].
  destruct (addDigit_nine_digit_cap _ (started "") H H0) as [Hall Hcap].
  split; [exact Hall|].
  apply (Hcap "0" "123456789" []); try reflexivity.
  - eexists; split; reflexivity.
  - intros n Hn. discriminate Hn.
Defined.

(** ** Operators *)

Lemma operator_shape (o : string) :
  isOperator (Some o) = true ->
  truthy (Some o) = true /\ dangling (Some o) = false
  /\ Str.startsWith "-d" o = false /\ isFunction (Some o) = false.
Proof.
  intros H. apply memberOf_In in H. unfold OPERATORS in H. simpl in H.
  repeat (destruct H as [<-|H]; [repeat split; reflexivity|]).
  contradiction.
Qed.

Lemma function_not_dangling (p : token) :
  isFunction p = true -> dangling p = false /\ truthy p = true.
Proof.
  destruct p as [s|]; [|discriminate].
  intros H. apply memberOf_In in H. unfold FUNCTIONS in H. simpl in H.
  repeat (destruct H as [<-|H]; [split; reflexivity|]).
  contradiction.
Qed.

Lemma addOperator_tail (operator o : string) (k : M unit)
  (pre : list token) (x : token)
  (c : bool) (r : string) (log : list (list token)) (g : string) :
  isOperator (Some o) = true ->
  equation (snd (
    (c <- checkNegativeFormat (Some o);;
     replaceLastComponent c;;
     (if isOperator (Some o) then replaceLastComponent (Some operator) else k))
    (mkModel (pre ++ [x]) c r log g)))
  = pre ++ [Some operator].
Proof.
  intros Ho. destruct (operator_shape o Ho) as [_ [_ [Hn _]]].
  rewrite run_bind, (checkNegativeFormat_plain _ _ Hn). cbn [fst snd].
  rewrite run_bind, replaceLastComponent_snoc. cbn [fst snd]. rewrite Ho.
  now rewrite replaceLastComponent_snoc.
Qed.

(** C6, as the claim states it, fails: the lone leading minus is not the
    only exception.  After a function-opener a minus sign is not replaced
    either. *)
Lemma addOperator_after_function_counterexample :
  equation (after [KFunction "sqrt("; KOperator "-"])
  = [Some "sqrt("; Some "-"]
  /\ isOperator (Some "-") = true
  /\ calculated (after [KFunction "sqrt("; KOperator "-"]) = false
  /\ equation (exec (addOperator "+") (after [KFunction "sqrt("; KOperator "-"]))
     = [Some "sqrt("; Some "-"]
  /\ equation (exec (addOperator "+") (after [KFunction "sqrt("; KOperator "-"]))
     <> [Some "sqrt("; Some "+"].
Proof. repeat split; try reflexivity. discriminate. Qed.

(** C6 (amended): with the calculated flag clear and an operator [o] as
    last token, [addOperator] replaces [o], except that a minus sign stays,
    and the equation with it, when it is the only token or when the token
    before it is a function-opener.  (The case of a minus sign after a
    function-opener that carries a dangling decimal separator is left
    out.) *)
Theorem addOperator_replaces_operator
  (operator o : string) (pre : list token) (m : Model) :
  calculated m = false ->
  equation m = pre ++ [Some o] ->
  isOperator (Some o) = true ->
  (o = "-" ->
   isFunction (stripDecimal (orNull (Arr.fromEnd 1 pre)))
   = isFunction (orNull (Arr.fromEnd 1 pre))) ->
  equation (exec (addOperator operator) m)
  = if String.eqb o "-"
       && ((length pre =? 0)%nat || isFunction (orNull (Arr.fromEnd 1 pre)))
    then pre ++ [Some o]
    else pre ++ [Some operator].
Proof.
  destruct m as [e c r log g]. cbn [calculated equation]. intros -> -> Ho Hp.
  destruct (operator_shape o Ho) as [Ht [Hd [Hn Hf]]].
  assert (Hs : stripDecimal (Some o) = Some o)
    by (unfold stripDecimal; now rewrite Hd).
  unfold exec, addOperator.
  rewrite run_bind, restart_idle. cbn [fst snd].
  rewrite run_bind, getLastComponent_snoc, Ht, Hs. cbn [fst snd].
  rewrite run_bind.
  destruct pre as [|p pre _] using rev_ind.
  - change ([] ++ [Some o]) with [Some o].
    rewrite getPenultimateComponent_single. cbn [fst snd].
    rewrite run_bind. cbn [get fst snd equation length].
    rewrite Ht. cbn [negb andb Nat.eqb orb]. rewrite andb_true_r.
    unfold isStr, token_eqb.
    destruct (String.eqb o "-") eqn:Hm; [reflexivity|].
    cbn [andb]. change [Some o] with ([] ++ [Some o]).
    now apply addOperator_tail.
  - rewrite getPenultimateComponent_snoc. cbn [fst snd].
    rewrite run_bind. cbn [get fst snd equation].
    rewrite fromEnd_1_snoc in *. rewrite Ht. cbn [negb andb].
    rewrite !length_app. cbn [length].
    replace (length pre + 1 + 1 =? 1)%nat with false
      by (symmetry; apply Nat.eqb_neq; lia).
    replace (length pre + 1 =? 0)%nat with false
      by (symmetry; apply Nat.eqb_neq; lia).
    rewrite andb_false_r. cbn [orb].
    unfold isStr, token_eqb.
    assert (Hpen : String.eqb o "-" = true ->
                   isFunction (if truthy p then stripDecimal p else None)
                   = isFunction (orNull (Some p))).
    { intros Hm. apply String.eqb_eq in Hm. specialize (Hp Hm).
      unfold orNull in *. now destruct (truthy p). }
    destruct (String.eqb o "-") eqn:Hm; cbn [andb].
    + rewrite (Hpen eq_refl).
      destruct (isFunction (orNull (Some p))) eqn:Hfp.
      * cbn [ret snd equation].
        unfold orNull in Hfp. destruct (truthy p) eqn:Htp; [|discriminate].
        destruct (function_not_dangling p Hfp) as [Hdp _]. now rewrite Hdp.
      * now apply addOperator_tail.
    + now apply addOperator_tail.
Qed.

Lemma addOperator_replaces_operator_witness :
  equation (exec (addOperator "*") (after [KDigit "5"; KOperator "+"]))
  = [Some "5"; Some "*"].
Proof.
  apply (addOperator_replaces_operator "*" "+" [Some "5"]
           (after [KDigit "5"; KOperator "+"]));
    reflexivity.
Defined.

(** ** Modifiers *)

Lemma numeric_not_minus_d (s : string) :
  matchesNumeric s = true -> Str.startsWith "-d" s = false.
Proof.
  unfold matchesNumeric, Str.startsWith.
  destruct s as [|a [|b s]]; try reflexivity.
  - intros _. cbn [prefix]. now destruct (Ascii.ascii_dec "-" a).
  - intros H. cbn [prefix].
    destruct (Ascii.ascii_dec "-" a) as [<-|]; [|reflexivity].
    destruct (Ascii.ascii_dec "d" b) as [<-|]; [|reflexivity].
    discriminate H.
Qed.

Lemma acceptsModifier_plain (t : token) :
  acceptsModifier t = true ->
  exists s, t = Some s /\ Str.startsWith "-d" s = false.
Proof.
  unfold acceptsModifier. destruct t as [s|]; [|discriminate].
  intros H. exists s. split; [reflexivity|].
  apply andb_true_iff in H. destruct H as [_ H].
  apply orb_true_iff in H. destruct H as [H|H];
    [apply orb_true_iff in H; destruct H as [H|H]|].
  - now apply numeric_not_minus_d.
  - apply memberOf_In in H. unfold MODIFIERS in H. simpl in H.
    repeat (destruct H as [<-|H]; [reflexivity|]). contradiction.
  - unfold isCloseBracket, isStr, token_eqb in H.
    apply String.eqb_eq in H. now subst.
Qed.

Lemma addModifier_tail (modifier : string) (last x : token) (pre : list token)
  (c : bool) (r : string) (log : list (list token)) (g : string) :
  truthy last = true ->
  equation (snd (
    (if negb (truthy last) then ret tt
     else
       numeric <- isNumeric last ;;
       if numeric || isModifier last || isCloseBracket last then
         c <- checkNegativeFormat last ;;
         replaceLastComponent c ;;
         if endsInE (toStr last) then modify (matched true)
         else addComponent (Some modifier)
       else ret tt) (mkModel (pre ++ [x]) c r log g)))
  = if acceptsModifier last
    then (if endsInE (toStr last) then pre ++ [last]
          else (pre ++ [last]) ++ [Some modifier])
    else pre ++ [x].
Proof.
  intros Ht. rewrite Ht. cbn [negb].
  rewrite run_bind, isNumeric_run. cbn [fst snd].
  unfold acceptsModifier at 1. rewrite Ht. cbn [andb].
  destruct (matchesNumeric (toStr last) || isModifier last || isCloseBracket last)
    eqn:Ha; [|reflexivity].
  destruct (acceptsModifier_plain last) as [s [-> Hs]].
  { unfold acceptsModifier. now rewrite Ht, Ha. }
  rewrite run_bind, (checkNegativeFormat_plain _ _ Hs). cbn [fst snd].
  rewrite run_bind, replaceLastComponent_snoc. cbn [fst snd].
  destruct (endsInE (toStr (Some s))); reflexivity.
Qed.

(** C5, as the claim states it, fails: after 5 and the sign key the last
    token is the wrapped negative [(-5)], which [isNumeric] does not accept,
    and [addModifier] leaves the equation as it is. *)
Lemma addModifier_wrapped_negative_counterexample :
  equation (after [KDigit "5"; KSign]) = [Some "(-5)"]
  /\ calculated (after [KDigit "5"; KSign]) = false
  /\ equation (exec (addModifier "^2") (after [KDigit "5"; KSign]))
     = [Some "(-5)"]
  /\ equation (exec (addModifier "^2") (after [KDigit "5"; KSign]))
     <> equation (after [KDigit "5"; KSign]) ++ [Some "^2"].
Proof. repeat split; try reflexivity. discriminate. Qed.

(** C5 (amended): with the calculated flag clear, [addModifier] first
    corrects a dangling decimal separator of the last token; it then appends
    the modifier when that token is a plain numeric text (the characters of
    [isNumeric]), a modifier or a close bracket and does not end in [E], and
    otherwise leaves the corrected equation as it is.  (The rejected case is
    stated for a penultimate token without dangling separator.) *)
Theorem addModifier_rule (modifier : string) (m : Model) :
  calculated m = false ->
  (acceptsModifier (orNull (Arr.fromEnd 1 (correctLast (equation m)))) = true
   \/ dangling (orNull (Arr.fromEnd 2 (equation m))) = false) ->
  equation (exec (addModifier modifier) m)
  = if acceptsModifier (orNull (Arr.fromEnd 1 (correctLast (equation m))))
       && negb (endsInE (toStr (orNull (Arr.fromEnd 1 (correctLast (equation m))))))
    then correctLast (equation m) ++ [Some modifier]
    else correctLast (equation m).
Proof.
  destruct m as [e c r log g]. cbn [calculated equation]. intros -> H.
  unfold exec, addModifier.
  rewrite run_bind, restart_idle. cbn [fst snd].
  rewrite run_bind.
  destruct e as [|x pre _] using rev_ind.
  - rewrite getLastComponent_nil. reflexivity.
  - rewrite getLastComponent_snoc, correctLast_snoc in *. cbn [fst snd].
    rewrite fromEnd_1_snoc in *. rewrite run_bind.
    (* the value [last] of the source and the last token of the corrected
       equation are both falsy or equal *)
    assert (Hlast : truthy x = false \/ truthy (stripDecimal x) = false ->
      acceptsModifier (orNull (Some (stripDecimal x))) = false
      /\ truthy (if truthy x then stripDecimal x else None) = false).
    { intros Hf. unfold orNull, acceptsModifier.
      destruct (truthy (stripDecimal x)) eqn:Hs.
      - destruct Hf as [Hf|Hf]; [|discriminate].
        unfold stripDecimal, dangling in Hs. rewrite Hf in Hs. cbn [andb] in Hs.
        congruence.
      - split; [reflexivity|]. destruct (truthy x); [exact Hs|reflexivity]. }
    destruct (truthy x && truthy (stripDecimal x)) eqn:Hboth.
    + apply andb_true_iff in Hboth. destruct Hboth as [Hx Hsx].
      rewrite Hx.
      assert (Ho : orNull (Some (stripDecimal x)) = stripDecimal x)
        by (unfold orNull; now rewrite Hsx).
      rewrite Ho in *.
      destruct pre as [|p pre _] using rev_ind.
      * change ([] ++ [stripDecimal x]) with [stripDecimal x].
        rewrite getPenultimateComponent_single. cbn [fst snd].
        change [stripDecimal x] with ([] ++ [stripDecimal x]).
        rewrite (addModifier_tail modifier _ _ _ _ _ _ _ Hsx).
        destruct (acceptsModifier (stripDecimal x)); [|reflexivity].
        now destruct (endsInE (toStr (stripDecimal x))).
      * rewrite getPenultimateComponent_snoc. cbn [fst snd].
        rewrite (addModifier_tail modifier _ _ _ _ _ _ _ Hsx).
        destruct (acceptsModifier (stripDecimal x)) eqn:Hacc.
        -- now destruct (endsInE (toStr (stripDecimal x))).
        -- cbn [andb]. destruct H as [H|H]; [discriminate|].
           rewrite fromEnd_2_snoc, dangling_orNull in H. now rewrite H.
    + destruct (Hlast) as [Hacc Hfalsy].
      { apply andb_false_iff in Hboth. exact Hboth. }
      rewrite Hacc in *. cbn [andb].
      destruct H as [H|H]; [discriminate|].
      destruct pre as [|p pre _] using rev_ind.
      * change ([] ++ [stripDecimal x]) with [stripDecimal x].
        rewrite getPenultimateComponent_single. cbn [fst snd].
        now rewrite Hfalsy.
      * rewrite getPenultimateComponent_snoc. cbn [fst snd].
        rewrite fromEnd_2_snoc, dangling_orNull in H. rewrite H, Hfalsy.
        reflexivity.
Qed.

Lemma addModifier_rule_witness :
  equation (exec (addModifier "^2") (after [KDigit "5"; KDecimal]))
  = [Some "5"; Some "^2"].
Proof.
  apply (addModifier_rule "^2" (after [KDigit "5"; KDecimal]));
    [reflexivity | left; reflexivity].
Defined.

(** ** Errors of calculate *)

(** C3: on [4 / 0] the callback throws [DivisionByZeroError] inside the
    [try] block, whose [catch] replaces it: [calculate] raises
    [CalculationError]. *)
Theorem calculate_division_by_zero_masked
  (E : Engine) (r : string) (log : list (list token)) (g : string) :
  eval (evaluateEquation E)
    (mkModel [Some "4"; Some "/"; Some "0"] false r log g)
  = Thrown DivisionByZeroError
  /\ eval (calculate E)
       (mkModel [Some "4"; Some "/"; Some "0"] false r log g)
     = Thrown CalculationError.
Proof. split; vm_compute; reflexivity. Qed.

(** C9: on an empty equation [calculate] fails with the engine's
    [TypeError], which is none of the module's four errors. *)
Theorem calculate_empty_TypeError (E : Engine) (m : Model) :
  equation m = [] ->
  eval (calculate E) m = Thrown TypeError
  /\ isModelError TypeError = false.
Proof.
  destruct m as [e c r l g]. simpl. intros ->.
  split; [|reflexivity]. destruct c; reflexivity.
Qed.

Lemma calculate_empty_TypeError_witness :
  eval (calculate rejectingEngine) (started "") = Thrown TypeError
  /\ isModelError TypeError = false.
Proof. apply (calculate_empty_TypeError rejectingEngine (started "")). reflexivity. Defined.

Lemma replaceLeftOperand_equation (value : string) (m : Model) :
  equation (snd (replaceLeftOperand value m))
  = withLeftOperand value (equation m).
Proof.
  destruct m as [e c r log g]. unfold replaceLeftOperand, withLeftOperand.
  rewrite run_bind. cbn [get fst snd equation].
  destruct e as [|z e _] using rev_ind; [reflexivity|].
  destruct e as [|y e _] using rev_ind; [reflexivity|].
  destruct e as [|x e _] using rev_ind; [reflexivity|].
  rewrite !rev_app_distr. cbn [rev app].
  rewrite !length_app. cbn [length].
  replace (length e + 1 + 1 + 1 =? 0)%nat with false
    by (symmetry; apply Nat.eqb_neq; lia).
  replace (length e + 1 + 1 + 1 =? 1)%nat with false
    by (symmetry; apply Nat.eqb_neq; lia).
  replace (length e + 1 + 1 + 1 =? 2)%nat with false
    by (symmetry; apply Nat.eqb_neq; lia).
  replace (length e + 1 + 1 + 1 - 3) with (length e) by lia.
  rewrite run_bind. cbn [modify updateUndoLog fst snd equation setCalculated setEquation setUndoLog].
  unfold Arr.spliceFront. rewrite <- !app_assoc.
  rewrite skipn_app, skipn_all, Nat.sub_diag. reflexivity.
Qed.

Lemma isValidEquation_equation (m : Model) :
  equation (snd (isValidEquation m)) = correctLast (equation m).
Proof.
  destruct m as [e c r log g]. unfold isValidEquation. rewrite run_bind.
  cbn [equation].
  destruct e as [|x e _] using rev_ind.
  - rewrite getLastComponent_nil. reflexivity.
  - rewrite getLastComponent_snoc, correctLast_snoc. cbn [fst snd].
    destruct (isOperator _); [reflexivity|].
    destruct (if truthy x then stripDecimal x else None) as [s|];
      [destruct (endsInExponent s)|]; reflexivity.
Qed.

Lemma replaceLeftOperand_lastResult (value : string) (m : Model) :
  lastCalculationResult (snd (replaceLeftOperand value m))
  = lastCalculationResult m.
Proof.
  unfold replaceLeftOperand. rewrite run_bind. cbn [get fst snd].
  destruct (length (equation m) =? 0)%nat; reflexivity.
Qed.

Lemma correctInto_lastResult (correct : bool) (last : token) (m : Model) :
  lastCalculationResult (snd (correctInto correct last m))
  = lastCalculationResult m.
Proof.
  rewrite correctInto_run. destruct (correct && dangling last); reflexivity.
Qed.

Lemma isValidEquation_lastResult (m : Model) :
  lastCalculationResult (snd (isValidEquation m)) = lastCalculationResult m.
Proof.
  unfold isValidEquation, getLastComponent. rewrite !run_bind.
  cbn [get fst snd].
  rewrite <- (correctInto_lastResult true (orNull (Arr.fromEnd 1 (equation m))) m).
  destruct (isOperator _); [reflexivity|].
  destruct (fst (correctInto _ _ _)) as [l|]; [|reflexivity].
  rewrite run_bind. cbn [modify fst snd ret].
  destruct (endsInExponent l); reflexivity.
Qed.

Section CalculateFacts.
Variable E : Engine.

Lemma evaluateEquation_buffer (m : Model) :
  equation (snd (evaluateEquation E m)) = equation m
  /\ lastCalculationResult (snd (evaluateEquation E m))
     = lastCalculationResult m.
Proof.
  unfold evaluateEquation. rewrite run_bind. cbn [get fst snd].
  rewrite run_bind. cbn [modify fst snd].
  destruct (dividesByZero _); [split; reflexivity|].
  rewrite run_bind. cbn [get fst snd]. rewrite run_bind. cbn [modify fst snd].
  destruct (fst (evaluate E _ _)); split; reflexivity.
Qed.

(** The part of [calculate] after the left operand is in place. *)
Lemma calculate_from_validity (m1 : Model) :
  let k := (valid <- isValidEquation ;;
    match valid with
    | Thrown e => ret (Thrown e)
    | Returned false => ret (Thrown EquationInvalidFormatError)
    | Returned true =>
        modify (setCalculated false) ;;
        r <- evaluateEquation E ;;
        match r with
        | Thrown _ => ret (Thrown CalculationError)
        | Returned result =>
            if isNaN E result then ret (Thrown CalculationError)
            else if isInfinity E result || isNegInfinity E result then
              ret (Thrown (InfinityError (isInfinity E result)))
            else
              modify (setCalculated true) ;;
              m2 <- get ;;
              let f := formatValue E result (regExp2 m2) in
              modify (setRegExp2 (snd f)) ;;
              match fst f with
              | None => ret (Thrown TypeError)
              | Some formatted =>
                  modify (setLastCalculationResult formatted) ;;
                  ret (Returned formatted)
              end
        end
    end) in
  equation (snd (k m1)) = correctLast (equation m1)
  /\ (forall e, fst (k m1) = Thrown e ->
      lastCalculationResult (snd (k m1)) = lastCalculationResult m1).
Proof.
  intros k. unfold k. rewrite run_bind.
  rewrite <- isValidEquation_equation, <- (isValidEquation_lastResult m1).
  destruct (fst (isValidEquation m1)) as [[|]|]; try (split; reflexivity).
  rewrite run_bind. cbn [modify fst snd]. rewrite run_bind.
  destruct (evaluateEquation_buffer (setCalculated false (snd (isValidEquation m1))))
    as [He Hr].
  cbn [setCalculated equation lastCalculationResult] in He, Hr.
  rewrite <- He, <- Hr.
  destruct (fst (evaluateEquation E _)) as [result|]; [|split; reflexivity].
  destruct (isNaN E result); [split; reflexivity|].
  destruct (isInfinity E result || isNegInfinity E result);
    [split; reflexivity|].
  rewrite run_bind. cbn [modify fst snd]. rewrite run_bind. cbn [get fst snd].
  cbv zeta. rewrite run_bind. cbn [modify fst snd].
  destruct (fst (formatValue E result _));
    [split; [reflexivity | intros e; discriminate] | split; reflexivity].
Qed.

(** C4 (amended): when [calculate] raises one of the four errors, the
    equation is the one it found, after the substitution of the left
    operand when the flag was set and after the correction of a dangling
    decimal separator of the last token; the last result is kept. *)
Theorem calculate_error_leaves_corrected_equation (m : Model) (e : Error) :
  eval (calculate E) m = Thrown e ->
  isModelError e = true ->
  equation (exec (calculate E) m)
  = correctLast (if calculated m
                 then withLeftOperand (lastCalculationResult m) (equation m)
                 else equation m)
  /\ lastCalculationResult (exec (calculate E) m) = lastCalculationResult m.
Proof.
  unfold eval, exec, calculate. rewrite run_bind. cbn [get fst snd].
  rewrite run_bind.
  set (m1 := snd ((if calculated m
                   then replaceLeftOperand (lastCalculationResult m)
                   else ret tt) m)).
  assert (H1 : equation m1
            = (if calculated m
               then withLeftOperand (lastCalculationResult m) (equation m)
               else equation m)).
  { unfold m1. destruct (calculated m);
      [apply replaceLeftOperand_equation | reflexivity]. }
  assert (H2 : lastCalculationResult m1 = lastCalculationResult m).
  { unfold m1. destruct (calculated m);
      [apply replaceLeftOperand_lastResult | reflexivity]. }
  rewrite <- H1, <- H2. clearbody m1.
  intros Hthrown _.
  destruct (calculate_from_validity m1) as [He Hr].
  split; [exact He | exact (Hr e Hthrown)].
Qed.
End CalculateFacts.

(** C4, as the claim states it, fails: the validity check writes the last
    token back without its dangling decimal separator before the error is
    raised.  (The evaluator is not reached: the zero divisor is found
    first.) *)
Lemma calculate_error_counterexample :
  equation (after [KDigit "4"; KOperator "/"; KDecimal])
  = [Some "4"; Some "/"; Some "0."]
  /\ calculated (after [KDigit "4"; KOperator "/"; KDecimal]) = false
  /\ eval (calculate rejectingEngine) (after [KDigit "4"; KOperator "/"; KDecimal])
     = Thrown CalculationError
  /\ equation (exec (calculate rejectingEngine)
                 (after [KDigit "4"; KOperator "/"; KDecimal]))
     = [Some "4"; Some "/"; Some "0"]
  /\ equation (exec (calculate rejectingEngine)
                 (after [KDigit "4"; KOperator "/"; KDecimal]))
     <> equation (after [KDigit "4"; KOperator "/"; KDecimal]).
Proof.
  repeat split; try (vm_compute; reflexivity). vm_compute. discriminate.
Qed.

Lemma calculate_error_leaves_corrected_equation_witness :
  equation (exec (calculate rejectingEngine)
              (after [KDigit "4"; KOperator "/"; KDecimal]))
  = [Some "4"; Some "/"; Some "0"]
  /\ lastCalculationResult
       (exec (calculate rejectingEngine)
          (after [KDigit "4"; KOperator "/"; KDecimal])) = "".
Proof.
  apply (calculate_error_leaves_corrected_equation rejectingEngine
           (after [KDigit "4"; KOperator "/"; KDecimal]) CalculationError);
    vm_compute; reflexivity.
Defined.

(** ** The mantissa check *)

Lemma indexOf_append (p rest : string) :
  Str.contains "." p = false ->
  Str.indexOf "." (p ++ String "." rest)%string = Some (String.length p).
Proof.
  unfold Str.contains. induction p as [|c p IH]; [reflexivity|].
  cbn [Str.existsb append Str.indexOf String.length]. intros H.
  apply orb_false_iff in H. destruct H as [Hc Hp].
  rewrite Hc, (IH Hp). reflexivity.
Qed.

Lemma substring_append (p rest : string) (n k : nat) :
  substring (String.length p + n) k (p ++ rest)%string = substring n k rest.
Proof. induction p as [|c p IH]; [reflexivity|]. exact IH. Qed.

(** The increment of [formatValue] on a rendering [p.frac], where [p] is
    what stands before the decimal point, sign included: it runs when [p]
    has nine characters or more and the fraction starts with 95 or more. *)
Lemma roundsMantissa_point (p frac : string) :
  Str.contains "." p = false ->
  roundsMantissa (p ++ String "." frac)%string
  = (MAX_DIGITS <=? String.length p)%nat && fractionRoundsUp frac.
Proof.
  intros H. unfold roundsMantissa, fractionRoundsUp.
  rewrite (indexOf_append _ _ H).
  destruct (MAX_DIGITS <=? String.length p)%nat eqn:Hlen; [|reflexivity].
  apply Nat.leb_le in Hlen. unfold MAX_DIGITS in Hlen.
  rewrite length_append. cbn [String.length].
  replace (Nat.min (String.length p + S (String.length frac)) 2) with 2 by lia.
  unfold Str.substr. rewrite substring_append. reflexivity.
Qed.

Lemma digits_no_point (int : string) :
  Str.forallb Str.isDigit int = true -> Str.contains "." int = false.
Proof.
  unfold Str.contains. induction int as [|c int IH]; [reflexivity|].
  cbn [Str.forallb Str.existsb]. intros H. apply andb_true_iff in H.
  destruct H as [Hc Hi]. rewrite (IH Hi), orb_false_r.
  destruct (Ascii.eqb_spec "." c) as [<-|_]; [discriminate Hc | reflexivity].
Qed.

(** X23: for a rendering without sign, [formatValue] adds 1 exactly when
    nine or more digits stand before the point and the fraction starts
    with 95 or more. *)
Lemma roundsMantissa_unsigned (int frac : string) :
  Str.forallb Str.isDigit int = true ->
  roundsMantissa (int ++ String "." frac)%string
  = (MAX_DIGITS <=? String.length int)%nat && fractionRoundsUp frac.
Proof. intros H. apply roundsMantissa_point. now apply digits_no_point. Qed.

(** X24: for a negative rendering the sign is counted with the digits, so
    the threshold is eight digits before the point. *)
Lemma roundsMantissa_negative (int frac : string) :
  Str.forallb Str.isDigit int = true ->
  roundsMantissa (String "-" (int ++ String "." frac))%string
  = (8 <=? String.length int)%nat && fractionRoundsUp frac.
Proof.
  intros H.
  change (String "-" (int ++ String "." frac))%string
    with (String "-" int ++ String "." frac)%string.
  rewrite roundsMantissa_point; [reflexivity|].
  unfold Str.contains. cbn [Str.existsb].
  change (Ascii.eqb "." "-") with false. now apply digits_no_point.
Qed.

(** C8: the value -12345678.95 has eight digits before the point, and
    [formatValue] adds 1 to it: the index of the point counts the sign.
    The same value without the sign is left alone. *)
Theorem roundsMantissa_negative_eight_digits :
  integerDigits "-12345678.95" = 8
  /\ roundsMantissa "-12345678.95" = true
  /\ roundsMantissa "12345678.95" = false.
Proof. repeat split; reflexivity. Qed.

(** ** The ambient capture group *)

Lemma addDigit_lone_minus (digit r g : string) (log : list (list token)) :
  equation (exec (addDigit digit) (mkModel [Some "-"%string] false r log g))
  = if (digitCount (minusCandidate g digit) <=? MAX_DIGITS)%nat
    then [Some (minusCandidate g digit)]
    else [Some "-"%string].
Proof.
  unfold exec, addDigit, restart, bind, get, minusCandidate. simpl.
  destruct (digitCount _ <=? MAX_DIGITS)%nat; reflexivity.
Qed.

(** The token is the plain [(-digit)] only when [RegExp.$2] is empty or
    ["0"]. *)
Lemma minusCandidate_pristine (g digit : string) :
  minusCandidate g digit = ("(-" ++ digit ++ ")")%string
  <-> g = ""%string \/ g = "0"%string.
Proof.
  unfold minusCandidate. split.
  - destruct (String.eqb_spec g "0") as [->|_]; [now right|].
    intros H. left. injection H as H.
    assert (Hlen : String.length (g ++ digit ++ ")")%string
                   = String.length (digit ++ ")")%string) by now rewrite H.
    rewrite length_append in Hlen. destruct g; [reflexivity|].
    cbn [String.length] in Hlen. lia.
  - intros [->| ->]; reflexivity.
Qed.

(** C10: two runs reach the buffer [-] with the same flag and last result,
    and the same digit then gives two different tokens; the token is the one
    [minusCandidate] builds from [RegExp.$2]. *)
Theorem addDigit_depends_on_ambient_capture :
  equation (after [KOperator "-"]) = [Some "-"%string]
  /\ equation (after [KDigit "7"; KSign; KSign; KDelete; KOperator "-"])
     = [Some "-"%string]
  /\ calculated (after [KOperator "-"])
     = calculated (after [KDigit "7"; KSign; KSign; KDelete; KOperator "-"])
  /\ lastCalculationResult (after [KOperator "-"])
     = lastCalculationResult
         (after [KDigit "7"; KSign; KSign; KDelete; KOperator "-"])
  /\ equation (exec (addDigit "5") (after [KOperator "-"]))
     = [Some "(-5)"%string]
  /\ equation (exec (addDigit "5")
                 (after [KDigit "7"; KSign; KSign; KDelete; KOperator "-"]))
     = [Some "(-75)"%string]
  /\ (forall (r : string) (log : list (list token)),
        equation (exec (addDigit "5") (mkModel [Some "-"%string] false r log ""))
        <> equation (exec (addDigit "5") (mkModel [Some "-"%string] false r log "7"))).
Proof.
  repeat split; try reflexivity.
  intros r log. rewrite !addDigit_lone_minus. discriminate.
Qed.

(** ** Recording and stepping back *)

Lemma trimLog_top (l : list (list token)) (x : list token) :
  Arr.fromEnd 1 (trimLog (l ++ [x])) = Some x.
Proof.
  unfold trimLog, Arr.sliceFrom.
  destruct (Nat.ltb_spec 300 (length (l ++ [x]))) as [H|H];
    [|apply fromEnd_1_snoc].
  rewrite length_app in H. cbn [length] in H.
  rewrite skipn_app. replace (100 - length l) with 0 by lia.
  apply fromEnd_1_snoc.
Qed.

Lemma recorded_top (log : list (list token)) (e : list token) :
  Arr.fromEnd 1 (recorded log e) = Some e.
Proof.
  unfold recorded.
  destruct (arraysEqual (Arr.fromEnd 1 log) e) eqn:Heq; cbn [negb].
  - destruct (Arr.fromEnd 1 log) as [a|] eqn:Htop; [|discriminate Heq].
    apply arraysEqual_eq in Heq. subst a.
    destruct (fromEnd_1_some_inv _ _ _ Htop) as [l0 ->]. apply trimLog_top.
  - apply trimLog_top.
Qed.

Lemma inSync_updateUndoLog (m : Model) : inSync (snd (updateUndoLog m)).
Proof. destruct m as [e c r log g]. apply recorded_top. Qed.

Lemma inSync_replaceLastComponent (v : token) (m : Model) :
  inSync (snd (replaceLastComponent v m)).
Proof. unfold replaceLastComponent. rewrite run_bind. apply inSync_updateUndoLog. Qed.

Lemma inSync_addComponent (v : token) (m : Model) :
  inSync (snd (addComponent v m)).
Proof. unfold addComponent. rewrite run_bind. apply inSync_updateUndoLog. Qed.

Lemma inSync_resetEquation (m : Model) : inSync (snd (resetEquation m)).
Proof. unfold resetEquation. rewrite run_bind. apply inSync_updateUndoLog. Qed.

Lemma inSync_addComponents (sign : string) (m : Model) :
  sign <> EmptyString -> inSync (snd (addComponents sign m)).
Proof.
  revert m. induction sign as [|c sign IH]; intros m H; [contradiction|].
  cbn [addComponents]. rewrite run_bind.
  destruct sign as [|d sign]; [apply inSync_addComponent|].
  apply IH. discriminate.
Qed.

Ltac in_sync :=
  repeat first
    [ rewrite run_bind
    | progress cbn [ret snd]
    | match goal with
      | |- context [if ?b then _ else _] => destruct b
      end ];
  first [ apply inSync_updateUndoLog
        | apply inSync_replaceLastComponent
        | apply inSync_addComponent
        | apply inSync_resetEquation
        | apply inSync_addComponents; discriminate ].

(** X2: after a digit, the decimal point, a bracket or a clear, the newest
    snapshot of the undo log is the equation itself, on every path through
    the operation. *)
Theorem recording_keys_leave_log_in_sync (k : Key) (m : Model) :
  recordingKey k = true -> inSync (exec (press k) m).
Proof.
  destruct k; try discriminate; intros _; unfold exec; cbn [press].
  - unfold addDigit. in_sync.
  - unfold addDecimal. in_sync.
  - unfold addBracket. in_sync.
  - apply inSync_resetEquation.
Qed.

Lemma popInto_snoc (e : list token) (c : bool) (r : string)
  (l : list (list token)) (x : list token) (g : string) :
  popInto (mkModel e c r (l ++ [x]) g) = (tt, mkModel x c r l g).
Proof.
  unfold popInto, modify. cbn [undoLog]. rewrite fromEnd_1_snoc, pop_snoc.
  reflexivity.
Qed.

(** X3: [undo] does nothing on an empty log; otherwise it installs a
    snapshot taken from the log, leaves a proper prefix of the log, and
    touches neither the calculated flag nor the last result. *)
Theorem undo_installs_logged_snapshot (m : Model) :
  (undoLog m = [] -> exec undo m = m)
  /\ (undoLog m <> [] ->
      In (equation (exec undo m)) (undoLog m)
      /\ length (undoLog (exec undo m)) < length (undoLog m)
      /\ exists rest, undoLog m = undoLog (exec undo m) ++ rest)
  /\ calculated (exec undo m) = calculated m
  /\ lastCalculationResult (exec undo m) = lastCalculationResult m.
Proof.
  destruct m as [e c r log g]. cbn [undoLog calculated lastCalculationResult].
  destruct log as [|x l _] using rev_ind.
  { split; [reflexivity|]. split; [intros Hne; now elim Hne|].
    split; reflexivity. }
  assert (Hrun : exec undo (mkModel e c r (l ++ [x]) g)
    = if arraysEqual (Some e) x && (0 <? length l)%nat
      then match Arr.fromEnd 1 l with
           | Some y => mkModel y c r (Arr.pop l) g
           | None => mkModel x c r l g
           end
      else mkModel x c r l g).
  { unfold exec, undo. rewrite run_bind. cbn [get fst snd undoLog].
    rewrite snoc_nonempty. cbv iota. rewrite run_bind, popInto_snoc.
    cbn [fst snd]. rewrite run_bind. cbn [get fst snd equation undoLog].
    destruct (arraysEqual (Some e) x && (0 <? length l)%nat); [|reflexivity].
    unfold popInto. cbn [modify snd undoLog].
    destruct (Arr.fromEnd 1 l); reflexivity. }
  rewrite Hrun. clear Hrun.
  split; [intros Hnil; now destruct l|].
  destruct (arraysEqual (Some e) x && (0 <? length l)%nat).
  - destruct l as [|y l' _] using rev_ind.
    + unfold Arr.fromEnd. cbn.
      split; [|split; reflexivity]. intros _.
      split; [now left|]. split; [lia|]. now exists [x].
    + rewrite fromEnd_1_snoc, pop_snoc.
      cbn [equation undoLog calculated lastCalculationResult].
      split; [|split; reflexivity]. intros _. split; [|split].
      * apply in_or_app. left. apply in_or_app. right. now left.
      * rewrite !length_app. cbn [length]. lia.
      * exists [y; x]. now rewrite <- !app_assoc.
  - cbn [equation undoLog calculated lastCalculationResult].
    split; [|split; reflexivity]. intros _. split; [|split].
    + apply in_or_app. right. now left.
    + rewrite length_app. cbn [length]. lia.
    + now exists [x].
Qed.

(** X4: [undo] right after a clear brings the cleared equation back, when
    the log was in step with the equation. *)
Theorem undo_reaches_across_reset (m : Model) :
  inSync m -> equation m <> [] ->
  equation (exec undo (exec resetEquation m)) = equation m.
Proof.
  destruct m as [e c r log g]. unfold inSync. cbn [equation undoLog].
  intros Hs Hne. destruct (fromEnd_1_some_inv _ _ _ Hs) as [l0 ->].
  assert (Hd : arraysEqual (Some e) [] = false).
  { destruct e; [contradiction|reflexivity]. }
  destruct (trimLog_keeps_two l0 e []) as [l' Hl'].
  apply undo_two_snapshots with (l := l').
  unfold exec, resetEquation. rewrite run_bind.
  cbn [modify updateUndoLog fst snd setCalculated setEquation setUndoLog
       equation undoLog calculated lastCalculationResult regExp2].
  unfold recorded. rewrite fromEnd_1_snoc, Hd. exact Hl'.
Qed.

Lemma undo_reaches_across_reset_witness :
  equation (exec undo (exec resetEquation (after [KDigit "4"; KDigit "2"])))
  = [Some "42"].
Proof.
  apply (undo_reaches_across_reset (after [KDigit "4"; KDigit "2"]));
    [reflexivity | discriminate].
Defined.

Lemma recording_keys_leave_log_in_sync_witness :
  inSync (exec (press KBracket) (after [KDigit "5"; KUndo])).
Proof.
  apply (recording_keys_leave_log_in_sync KBracket (after [KDigit "5"; KUndo])).
  reflexivity.
Defined.


(** ** What [calculate] raises *)

Section CalculateOutcomes.
Variable E : Engine.

Lemma calculate_unfold (m : Model) :
  calculate E m
  = (valid <- isValidEquation ;;
     match valid with
     | Thrown e => ret (Thrown e)
     | Returned false => ret (Thrown EquationInvalidFormatError)
     | Returned true => evaluateAndFormat E
     end)
    (snd ((if calculated m
           then replaceLeftOperand (lastCalculationResult m)
           else ret tt) m)).
Proof. reflexivity. Qed.

Lemma evaluateEquation_flag (m : Model) :
  calculated (snd (evaluateEquation E m)) = calculated m.
Proof.
  unfold evaluateEquation. rewrite run_bind. cbn [get fst snd].
  rewrite run_bind. cbn [modify fst snd].
  destruct (dividesByZero _); [reflexivity|].
  rewrite run_bind. cbn [get fst snd]. rewrite run_bind. cbn [modify fst snd].
  destruct (fst (evaluate E _ _)); reflexivity.
Qed.

(** After the validity check: a result with the flag set and the result
    kept, one of two of the module's errors with the flag clear, or the
    [TypeError] of [formatValue]. *)
Lemma evaluateAndFormat_outcome (m : Model) :
  evaluationOutcome E (fst (evaluateAndFormat E m))
  /\ match fst (evaluateAndFormat E m) with
     | Returned s =>
         calculated (snd (evaluateAndFormat E m)) = true
         /\ lastCalculationResult (snd (evaluateAndFormat E m)) = s
     | Thrown e =>
         isModelError e = true ->
         calculated (snd (evaluateAndFormat E m)) = false
     end.
Proof.
  unfold evaluateAndFormat. rewrite run_bind. cbn [modify fst snd].
  rewrite run_bind.
  pose proof (evaluateEquation_flag (setCalculated false m)) as Hflag.
  cbn [setCalculated calculated] in Hflag.
  destruct (fst (evaluateEquation E (setCalculated false m))) as [result|];
    [|now split].
  destruct (isNaN E result); [now split|].
  destruct (isInfinity E result || isNegInfinity E result); [now split|].
  rewrite run_bind. cbn [modify fst snd]. rewrite run_bind. cbn [get fst snd].
  cbv zeta. rewrite run_bind. cbn [modify fst snd].
  destruct (fst (formatValue E result _)) as [formatted|] eqn:Hf.
  - split; [exact I|]. split; reflexivity.
  - split; [|discriminate]. cbn [ret fst evaluationOutcome]. eauto.
Qed.

Lemma isValidEquation_run (m : Model) :
  fst (isValidEquation m)
  = match Arr.fromEnd 1 (equation m) with
    | Some x =>
        if truthy x
        then Returned (negb (invalidEnd x))
        else Thrown TypeError
    | None => Thrown TypeError
    end
  /\ calculated (snd (isValidEquation m)) = calculated m.
Proof.
  destruct m as [e c r log g]. unfold isValidEquation. rewrite run_bind.
  cbn [equation calculated].
  destruct e as [|x e _] using rev_ind.
  - rewrite getLastComponent_nil. split; reflexivity.
  - rewrite getLastComponent_snoc, fromEnd_1_snoc. cbn [fst snd].
    unfold invalidEnd.
    destruct (truthy x) eqn:Ht; [|split; reflexivity].
    destruct (isOperator (stripDecimal x)); [split; reflexivity|].
    cbn [orb].
    destruct (stripDecimal x) as [l|] eqn:Hs.
    + rewrite run_bind. cbn [modify fst snd ret toStr].
      split; [reflexivity|]. now rewrite matched_run.
    + unfold stripDecimal in Hs. destruct (dangling x); [discriminate|].
      subst x. discriminate Ht.
Qed.

Lemma replaceLeftOperand_flag (value : string) (m : Model) :
  equation m <> [] -> calculated (snd (replaceLeftOperand value m)) = false.
Proof.
  intros H. unfold replaceLeftOperand. rewrite run_bind. cbn [get fst snd].
  destruct (equation m) as [|x e]; [contradiction|]. reflexivity.
Qed.

Lemma replaceLeftOperand_empty (value : string) (m : Model) :
  equation m = [] -> snd (replaceLeftOperand value m) = m.
Proof.
  intros H. unfold replaceLeftOperand. rewrite run_bind. cbn [get fst snd].
  now rewrite H.
Qed.

(** X5: [calculate] lets no [DivisionByZeroError] out, nor an error of the
    expression library: what it raises is one of three of its own errors
    or the engine's [TypeError]. *)
Theorem calculate_raises_only (m : Model) (e : Error) :
  eval (calculate E) m = Thrown e ->
  e = EquationInvalidFormatError \/ e = CalculationError
  \/ (exists positive, e = InfinityError positive) \/ e = TypeError.
Proof.
  unfold eval. rewrite calculate_unfold, run_bind.
  set (m1 := snd ((if calculated m
                   then replaceLeftOperand (lastCalculationResult m)
                   else ret tt) m)).
  destruct (isValidEquation_run m1) as [Hv _]. rewrite Hv. clear Hv.
  destruct (Arr.fromEnd 1 (equation m1)) as [x|];
    [|cbn [ret fst]; intros [= <-]; tauto].
  destruct (truthy x); [|cbn [ret fst]; intros [= <-]; tauto].
  destruct (negb (invalidEnd x)); [|cbn [ret fst]; intros [= <-]; tauto].
  destruct (evaluateAndFormat_outcome (snd (isValidEquation m1))) as [Ho _].
  intros H. rewrite H in Ho. destruct e; cbn in Ho; try contradiction; eauto.
Qed.

(** X6: the calculated flag is set exactly on success, together with the
    last result; after one of the module's own errors it is clear. *)
Theorem calculate_sets_flag_on_success (m : Model) :
  match eval (calculate E) m with
  | Returned s =>
      calculated (exec (calculate E) m) = true
      /\ lastCalculationResult (exec (calculate E) m) = s
  | Thrown e =>
      isModelError e = true -> calculated (exec (calculate E) m) = false
  end.
Proof.
  unfold eval, exec. rewrite calculate_unfold, run_bind.
  set (m1 := snd ((if calculated m
                   then replaceLeftOperand (lastCalculationResult m)
                   else ret tt) m)).
  assert (Hm1 : equation m1 <> [] -> calculated m1 = false).
  { unfold m1. destruct (calculated m) eqn:Hc; [|intros _; exact Hc].
    destruct (equation m) as [|x e] eqn:He.
    - rewrite (replaceLeftOperand_empty _ _ He). intros H. now elim H.
    - intros _. apply replaceLeftOperand_flag. rewrite He. discriminate. }
  destruct (isValidEquation_run m1) as [Hv Hc]. rewrite Hv.
  destruct (Arr.fromEnd 1 (equation m1)) as [x|] eqn:Hx;
    [|cbn [ret fst snd]; discriminate].
  assert (Hne : equation m1 <> []).
  { intros Hnil. rewrite Hnil in Hx. discriminate Hx. }
  destruct (truthy x); [|cbn [ret fst snd]; discriminate].
  destruct (negb (invalidEnd x)).
  - destruct (evaluateAndFormat_outcome (snd (isValidEquation m1))) as [_ Ho].
    destruct (fst (evaluateAndFormat E (snd (isValidEquation m1)))); exact Ho.
  - cbn [ret fst snd]. intros _. rewrite Hc. now apply Hm1.
Qed.

End CalculateOutcomes.

Lemma calculate_raises_only_witness :
  CalculationError = EquationInvalidFormatError
  \/ CalculationError = CalculationError
  \/ (exists positive, CalculationError = InfinityError positive)
  \/ CalculationError = TypeError.
Proof.
  apply (calculate_raises_only rejectingEngine
           (after [KDigit "4"; KOperator "/"; KDigit "0"]) CalculationError).
  vm_compute. reflexivity.
Defined.


(** ** Changing the sign *)

Lemma lazyUntilClose_wrapped (s : string) :
  Str.forallb insideWrapper s = true ->
  lazyUntilClose (s ++ ")")%string = Some s.
Proof.
  induction s as [|c s IH]; [reflexivity|].
  cbn [Str.forallb append lazyUntilClose]. intros H.
  apply andb_true_iff in H. destruct H as [Hc Hs].
  unfold insideWrapper in Hc. apply andb_true_iff in Hc.
  destruct Hc as [H1 H2]. apply negb_true_iff in H1, H2.
  rewrite H1, H2, (IH Hs). reflexivity.
Qed.

Lemma negativeGroup2_wrapped (s : string) :
  Str.forallb insideWrapper s = true ->
  negativeGroup2 ("(-" ++ s ++ ")")%string = Some s.
Proof.
  intros H. cbn [append negativeGroup2]. cbn [Ascii.eqb Bool.eqb andb].
  now rewrite (lazyUntilClose_wrapped _ H).
Qed.

Lemma lazyUntilClose_none (s : string) :
  Str.forallb insideWrapper s = true -> lazyUntilClose s = None.
Proof.
  induction s as [|c s IH]; [reflexivity|].
  cbn [Str.forallb lazyUntilClose]. intros H.
  apply andb_true_iff in H. destruct H as [Hc Hs].
  unfold insideWrapper in Hc. apply andb_true_iff in Hc.
  destruct Hc as [H1 H2]. apply negb_true_iff in H1, H2.
  rewrite H1, H2, (IH Hs). reflexivity.
Qed.

Lemma lazyUntilClose_suffix (c : ascii) (s : string) :
  lazyUntilClose s = None -> Ascii.eqb c ")" = false ->
  lazyUntilClose (String c s) = None.
Proof.
  intros H Hc. cbn [lazyUntilClose]. rewrite Hc, H.
  now destruct (Str.isLineTerminator c).
Qed.

Lemma negativeGroup2_unwrapped (s : string) :
  Str.forallb insideWrapper s = true -> negativeGroup2 s = None.
Proof.
  induction s as [|c s IH]; [reflexivity|].
  intros H. pose proof H as H'. cbn [Str.forallb] in H.
  apply andb_true_iff in H. destruct H as [Hc Hs].
  cbn [negativeGroup2]. rewrite (IH Hs).
  destruct s as [|d s']; [reflexivity|].
  destruct (Ascii.eqb c "(" && Ascii.eqb d "-"); [|reflexivity].
  cbn [Str.forallb] in Hs. apply andb_true_iff in Hs. destruct Hs as [_ Hs'].
  now rewrite (lazyUntilClose_none _ Hs').
Qed.

Lemma changeSign_run (s : string) (pre : list token)
  (r : string) (log : list (list token)) (g : string) :
  signable (Some s) = true ->
  let last1 := if Str.startsWith "-" s then ("(" ++ s ++ ")")%string else s in
  let last2 := match negativeGroup2 last1 with
               | Some n => n
               | None => ("(-" ++ last1 ++ ")")%string
               end in
  let res := changeSign (mkModel (pre ++ [Some s]) false r log g) in
  fst res = true
  /\ equation (snd res) = pre ++ [Some last2]
  /\ calculated (snd res) = false.
Proof.
  intros Hs last1 last2 res.
  assert (Hres : res = changeSign (mkModel (pre ++ [Some s]) false r log g))
    by reflexivity.
  clearbody res. unfold changeSign in Hres.
  rewrite run_bind, restart_idle in Hres. cbn [fst snd] in Hres.
  rewrite run_bind, getLastComponent_snoc in Hres.
  unfold signable in Hs.
  assert (Ht : truthy (Some s) = true).
  { apply andb_true_iff in Hs. destruct Hs as [Hs _].
    now apply andb_true_iff in Hs. }
  rewrite Ht in Hres. cbn [fst snd] in Hres. rewrite Hs in Hres.
  rewrite run_bind in Hres. cbn [modify fst snd toStr] in Hres.
  rewrite matched_run in Hres. fold last1 in Hres.
  rewrite run_bind, isNegativeComponent_run in Hres. cbn [fst snd] in Hres.
  rewrite run_bind in Hres. cbn [get fst snd regExp2] in Hres.
  assert (Hl : (if match negativeGroup2 last1 with Some _ => true | None => false end
                then match negativeGroup2 last1 with
                     | Some n => n
                     | None => if Str.startsWith "-" s then "" else g
                     end
                else ("(-" ++ last1 ++ ")")%string) = last2).
  { unfold last2. destruct (negativeGroup2 last1); reflexivity. }
  rewrite Hl in Hres.
  rewrite run_bind, replaceLastComponent_snoc in Hres.
  cbn [fst snd ret] in Hres. subst res. repeat split.
Qed.

(** X8: with the calculated flag clear, on a token without sign, two
    presses of the sign key give the token back: the first wraps it as
    [(-s)], the second unwraps it. *)
Theorem changeSign_twice (s : string) (pre : list token) (m : Model) :
  calculated m = false ->
  equation m = pre ++ [Some s] ->
  signable (Some s) = true ->
  Str.startsWith "-" s = false ->
  Str.forallb insideWrapper s = true ->
  equation (exec changeSign m) = pre ++ [Some ("(-" ++ s ++ ")")%string]
  /\ equation (exec changeSign (exec changeSign m)) = equation m.
Proof.
  destruct m as [e c r log g]. cbn [calculated equation].
  intros -> -> Hs Hminus Hin. unfold exec.
  destruct (changeSign_run s pre r log g Hs) as [_ [He Hc]].
  rewrite Hminus, (negativeGroup2_unwrapped _ Hin) in He.
  split; [exact He|].
  destruct (snd (changeSign (mkModel (pre ++ [Some s]) false r log g)))
    as [e' c' r' log' g'].
  cbn [equation calculated] in He, Hc. subst e' c'.
  assert (Hs' : signable (Some ("(-" ++ s ++ ")")%string) = true) by reflexivity.
  destruct (changeSign_run _ pre r' log' g' Hs') as [_ [He' _]].
  rewrite He'.
  change (Str.startsWith "-" ("(-" ++ s ++ ")")%string) with false.
  cbv iota. now rewrite (negativeGroup2_wrapped _ Hin).
Qed.

Lemma changeSign_twice_witness :
  equation (exec changeSign (after [KDigit "1"; KDecimal; KDigit "5"]))
  = [Some "(-1.5)"]
  /\ equation (exec changeSign
                 (exec changeSign (after [KDigit "1"; KDecimal; KDigit "5"])))
     = [Some "1.5"].
Proof.
  apply (changeSign_twice "1.5" [] (after [KDigit "1"; KDecimal; KDigit "5"]));
    reflexivity.
Defined.

(** X9: without a token to sign (none, an operator, or a plain zero) the
    sign key reports [false] and leaves the whole state as it is. *)
Theorem changeSign_refuses (m : Model) :
  calculated m = false ->
  eval changeSign m = signable (orNull (Arr.fromEnd 1 (equation m)))
  /\ (signable (orNull (Arr.fromEnd 1 (equation m))) = false ->
      exec changeSign m = m).
Proof.
  destruct m as [e c r log g]. cbn [calculated equation]. intros ->.
  unfold eval, exec.
  destruct e as [|x pre _] using rev_ind.
  { split; reflexivity. }
  rewrite fromEnd_1_snoc. unfold orNull.
  destruct (truthy x) eqn:Ht.
  - destruct x as [s|]; [|discriminate Ht].
    destruct (signable (Some s)) eqn:Hs.
    + destruct (changeSign_run s pre r log g Hs) as [Hf _].
      split; [exact Hf | discriminate].
    + assert (Hrun : changeSign (mkModel (pre ++ [Some s]) false r log g)
                     = (false, mkModel (pre ++ [Some s]) false r log g)).
      { unfold changeSign. rewrite run_bind, restart_idle. cbn [fst snd].
        rewrite run_bind, getLastComponent_snoc, Ht. cbn [fst snd].
        unfold signable in Hs. now rewrite Hs. }
      rewrite Hrun. split; reflexivity.
  - assert (Hrun : changeSign (mkModel (pre ++ [x]) false r log g)
                   = (false, mkModel (pre ++ [x]) false r log g)).
    { unfold changeSign. rewrite run_bind, restart_idle. cbn [fst snd].
      rewrite run_bind, getLastComponent_snoc, Ht. reflexivity. }
    rewrite Hrun. split; reflexivity.
Qed.

Lemma changeSign_refuses_witness :
  eval changeSign (after [KDigit "0"]) = false
  /\ exec changeSign (after [KDigit "0"]) = after [KDigit "0"].
Proof.
  destruct (changeSign_refuses (after [KDigit "0"]) eq_refl) as [H1 H2].
  split; [exact H1 | apply H2; reflexivity].
Defined.


(** ** Deleting *)

Lemma removeLastChar_run (s : string) (e : list token) (c : bool) (r : string)
  (log : list (list token)) (g : string) :
  removeLastChar s (mkModel e c r log g)
  = (match stripExponent (Str.dropLast s) with
     | Some t => t
     | None => Str.dropLast s
     end,
     mkModel e c r log
       (match stripExponent (Str.dropLast s) with
        | Some _ => ""
        | None => g
        end)).
Proof.
  unfold removeLastChar. destruct (stripExponent (Str.dropLast s)); reflexivity.
Qed.

Lemma equation_updateUndoLog (m : Model) :
  equation (snd (updateUndoLog m)) = equation m.
Proof. reflexivity. Qed.

Lemma deleteLast_run (s : string) (pre : list token) (c : bool)
  (r : string) (log : list (list token)) (g : string) :
  truthy (Some s) = true ->
  equation (exec deleteLast (mkModel (pre ++ [Some s]) c r log g))
  = afterDelete pre s.
Proof.
  intros Ht. unfold exec, deleteLast, afterDelete.
  rewrite run_bind, getLastComponent_snoc, Ht. cbn [fst snd].
  rewrite Ht. cbn [negb].
  rewrite run_bind. rewrite run_bind, (checkNegativeFormat_run _ _ _ _ _ _ Ht).
  cbn [fst snd].
  rewrite run_bind, replaceLastComponent_snoc. cbn [fst snd].
  rewrite run_bind, isNegativeComponent_run. cbn [fst snd].
  rewrite equation_updateUndoLog.
  destruct (negativeGroup2 s) as [n|].
  - rewrite run_bind. cbn [get fst snd regExp2].
    destruct (String.length n =? 1)%nat.
    + cbn [popEquation modify snd equation setEquation]. apply pop_snoc.
    + rewrite run_bind, removeLastChar_run. cbn [fst snd].
      rewrite replaceLastComponent_snoc. reflexivity.
  - cbn [toStr].
    destruct (String.length s =? 1)%nat; cbn [orb].
    { cbn [popEquation modify snd equation setEquation]. apply pop_snoc. }
    destruct (isMinusDigit s); cbn [orb].
    { rewrite run_bind. cbn [popEquation modify fst snd].
      rewrite matched_run. cbn [equation setEquation]. apply pop_snoc. }
    destruct (isFunction (Some s) || isModifier (Some s)).
    { cbn [popEquation modify snd equation setEquation]. apply pop_snoc. }
    rewrite run_bind, removeLastChar_run. cbn [fst snd].
    rewrite replaceLastComponent_snoc. reflexivity.
Qed.

(** X10: [deleteLast] touches the last token only: it drops it or rewrites
    it, and with nothing to delete it leaves the whole state as it is. *)
Theorem deleteLast_touches_last_only (m : Model) :
  (truthy (orNull (Arr.fromEnd 1 (equation m))) = false -> exec deleteLast m = m)
  /\ (forall pre x, equation m = pre ++ [x] ->
      equation (exec deleteLast m) = pre
      \/ exists x', equation (exec deleteLast m) = pre ++ [x']).
Proof.
  destruct m as [e c r log g]. cbn [equation]. split.
  - destruct e as [|x pre _] using rev_ind; [reflexivity|].
    rewrite fromEnd_1_snoc. unfold orNull.
    destruct (truthy x) eqn:Ht; [now intros Hx; rewrite Hx in Ht|].
    intros _. unfold exec, deleteLast.
    rewrite run_bind, getLastComponent_snoc, Ht. reflexivity.
  - intros pre x ->. destruct (truthy x) eqn:Ht.
    + destruct x as [s|]; [|discriminate Ht].
      rewrite (deleteLast_run _ _ _ _ _ _ Ht). unfold afterDelete.
      destruct (negativeGroup2 s).
      * destruct (String.length _ =? 1)%nat; [now left | right; eauto].
      * destruct (_ || _); [now left | right; eauto].
    + right. exists x. unfold exec, deleteLast.
      rewrite run_bind, getLastComponent_snoc, Ht. reflexivity.
Qed.

(** X11: with the calculated flag clear, a digit key followed by the
    delete key leaves the equation it found, when the digit starts a token
    of its own. *)
Theorem deleteLast_undoes_new_digit (digit : string) (m : Model) :
  isDigitKey digit ->
  calculated m = false ->
  startsNewComponent (orNull (Arr.fromEnd 1 (equation m)))
    (length (equation m)) = true ->
  equation (exec deleteLast (exec (addDigit digit) m)) = equation m.
Proof.
  intros [d [-> Hd]]. destruct m as [e c r log g].
  cbn [calculated equation]. intros -> Hnew.
  assert (Hadd : exists log',
    exec (addDigit (String d "")) (mkModel e false r log g)
    = mkModel (e ++ [Some (String d "")]) false r log' g).
  { unfold exec. destruct e as [|x pre _] using rev_ind.
    - rewrite addDigit_on_empty. eexists. reflexivity.
    - rewrite fromEnd_1_snoc in Hnew. unfold orNull in Hnew.
      rewrite (addDigit_new _ _ _ _ _ _ Hnew). eexists. reflexivity. }
  destruct Hadd as [log' ->].
  rewrite deleteLast_run by reflexivity.
  unfold afterDelete. cbn [negativeGroup2 String.length Nat.eqb orb].
  reflexivity.
Qed.

Lemma deleteLast_undoes_new_digit_witness :
  equation (exec deleteLast
              (exec (addDigit "7") (after [KDigit "1"; KOperator "+"])))
  = [Some "1"; Some "+"].
Proof.
  apply (deleteLast_undoes_new_digit "7" (after [KDigit "1"; KOperator "+"]));
    try reflexivity.
  eexists; split; reflexivity.
Defined.


Lemma operand_first_shape (c : ascii) (t : string) :
  isOperandChar c = true ->
  isOperator (Some (String c t)) = false
  /\ isModifier (Some (String c t)) = false
  /\ isBracket (Some (String c t)) = false
  /\ isFunction (Some (String c t)) = false
  /\ isStr (Some (String c t)) "-" = false
  /\ Str.startsWith "-d" (String c t) = false
  /\ Str.startsWith "-" (String c t) = false
  /\ isMinusDigit (String c t) = false.
Proof.
  destruct c as [[] [] [] [] [] [] [] []]; intros H; try discriminate H;
    repeat split; try reflexivity; now destruct t as [|? []].
Qed.

Lemma operand_insideWrapper (t : string) :
  Str.forallb isOperandChar t = true -> Str.forallb insideWrapper t = true.
Proof.
  induction t as [|c t IH]; [reflexivity|].
  cbn [Str.forallb]. intros H. apply andb_true_iff in H. destruct H as [Hc Ht].
  rewrite (IH Ht), andb_true_r.
  destruct c as [[] [] [] [] [] [] [] []]; try discriminate Hc; reflexivity.
Qed.

Lemma dropLast_snoc (t : string) (c : ascii) :
  Str.dropLast (t ++ String c "")%string = t.
Proof.
  induction t as [|a t IH]; [reflexivity|].
  cbn [append Str.dropLast]. rewrite IH.
  destruct t; reflexivity.
Qed.

Lemma lastChar_snoc (t : string) (c : ascii) :
  Str.lastChar (t ++ String c "")%string = String c "".
Proof.
  induction t as [|a t IH]; [reflexivity|].
  cbn [append Str.lastChar]. rewrite IH. destruct t; reflexivity.
Qed.

Lemma snoc_cases (t : string) :
  t = EmptyString \/ exists t' c, t = (t' ++ String c "")%string.
Proof.
  induction t as [|a t IH]; [now left|]. right.
  destruct IH as [->|[t' [c ->]]].
  - now exists EmptyString, a.
  - now exists (String a t'), c.
Qed.

Lemma forallb_snoc (p : ascii -> bool) (t : string) (c : ascii) :
  Str.forallb p (t ++ String c "")%string = Str.forallb p t && p c.
Proof.
  induction t as [|a t IH]; cbn [append Str.forallb].
  - now rewrite andb_true_r.
  - now rewrite IH, andb_assoc.
Qed.

Lemma stripExponent_operand (t : string) :
  Str.forallb isOperandChar t = true -> stripExponent t = None.
Proof.
  destruct (snoc_cases t) as [->|[t' [c ->]]]; [reflexivity|].
  rewrite forallb_snoc. intros H. apply andb_true_iff in H. destruct H as [_ Hc].
  unfold stripExponent. rewrite lastChar_snoc.
  destruct c as [[] [] [] [] [] [] [] []]; try discriminate Hc; reflexivity.
Qed.

(** X12: with the calculated flag clear, a digit key followed by the
    delete key gives back a literal of digits and points, unless the
    literal is the plain zero the digit replaces. *)
Theorem deleteLast_undoes_merged_digit
  (digit t : string) (pre : list token) (m : Model) :
  isDigitKey digit ->
  calculated m = false ->
  equation m = pre ++ [Some t] ->
  plainLiteral t = true ->
  t <> "0" ->
  digitCount t < MAX_DIGITS ->
  equation (exec (addDigit digit) m) = pre ++ [Some (t ++ digit)%string]
  /\ equation (exec deleteLast (exec (addDigit digit) m)) = equation m.
Proof.
  intros Hd. pose proof (digitKey_count _ Hd) as Hone.
  destruct Hd as [d [-> Hd]]. destruct m as [e c r log g].
  cbn [calculated equation]. intros -> -> Hp Hz Hn.
  unfold plainLiteral in Hp. apply andb_true_iff in Hp. destruct Hp as [Hne Hop].
  destruct t as [|a t]; [discriminate Hne|].
  assert (Ha : isOperandChar a = true).
  { cbn [Str.forallb] in Hop. now apply andb_true_iff in Hop. }
  destruct (operand_first_shape a t Ha)
    as [H1 [H2 [H3 [H4 [H5 [H6 [H7 H8]]]]]]].
  assert (Hnew : startsNewComponent (Some (String a t))
                   (length (pre ++ [Some (String a t)])) = false).
  { unfold startsNewComponent. now rewrite H1, H2, H3, H4. }
  destruct (addDigit_merge (String d "") (String a t) pre r log g eq_refl Hnew)
    as [_ [He Hc]].
  assert (Hcand : digitCandidate (String a t) (String d "")
                    (if Str.startsWith "-d" (String a t) then "" else g)
                  = (String a t ++ String d "")%string).
  { unfold digitCandidate.
    rewrite (negativeGroup2_unwrapped _ (operand_insideWrapper _ Hop)).
    unfold isStr, token_eqb in H5. rewrite H5.
    destruct (String.eqb_spec (String a t) "0") as [E|_]; [contradiction|].
    reflexivity. }
  rewrite Hcand, digitCount_append, Hone in He.
  replace (digitCount (String a t) + 1 <=? MAX_DIGITS)%nat with true in He
    by (symmetry; apply Nat.leb_le; lia).
  unfold exec. split; [exact He|].
  destruct (snd (addDigit (String d "") _)) as [e' c' r' log' g'].
  cbn [equation] in He. subst e'.
  assert (Hop' : Str.forallb isOperandChar (String a t ++ String d "")%string = true).
  { rewrite forallb_snoc, Hop. unfold isOperandChar. now rewrite Hd. }
  fold (exec deleteLast (mkModel (pre ++ [Some (String a t ++ String d "")%string])
                           c' r' log' g')).
  rewrite deleteLast_run by reflexivity. unfold afterDelete.
  rewrite (negativeGroup2_unwrapped _ (operand_insideWrapper _ Hop')).
  rewrite dropLast_snoc, (stripExponent_operand _ Hop).
  change (String a t ++ String d "")%string with (String a (t ++ String d "")).
  destruct (operand_first_shape a (t ++ String d "") Ha)
    as [_ [G2 [_ [G4 [_ [_ [_ G8]]]]]]].
  rewrite G2, G4, G8.
  replace (String.length (String a (t ++ String d "")) =? 1)%nat with false.
  - reflexivity.
  - symmetry. apply Nat.eqb_neq. cbn [String.length].
    rewrite length_append. cbn. lia.
Qed.

Lemma deleteLast_undoes_merged_digit_witness :
  equation (exec (addDigit "5") (after [KDigit "1"; KDecimal])) = [Some "1.5"]
  /\ equation (exec deleteLast
                 (exec (addDigit "5") (after [KDigit "1"; KDecimal])))
     = [Some "1."].
Proof.
  apply (deleteLast_undoes_merged_digit "5" "1." []
           (after [KDigit "1"; KDecimal])); try reflexivity.
  - eexists; split; reflexivity.
  - discriminate.
  - vm_compute. lia.
Defined.


(** ** The decimal point *)

Lemma addComponent_run (v : token) (e : list token) (c : bool) (r : string)
  (log : list (list token)) (g : string) :
  addComponent v (mkModel e c r log g)
  = (tt, mkModel (e ++ [v]) false r (recorded log (e ++ [v])) g).
Proof. reflexivity. Qed.

Lemma nil_or_snoc (A : Type) (l : list A) :
  l = [] \/ exists pre x, l = pre ++ [x].
Proof.
  induction l as [|x l _] using rev_ind; [now left|right; now exists l, x].
Qed.

Lemma addDecimal_run (e : list token) (c : bool) (r : string)
  (log : list (list token)) (g : string) :
  equation (exec addDecimal (mkModel e c r log g)) = afterDecimal e.
Proof.
  unfold exec, afterDecimal.
  destruct (nil_or_snoc _ e) as [->|[pre [x ->]]].
  - reflexivity.
  - unfold addDecimal. rewrite run_bind, getLastComponent_snoc. cbn [fst snd].
    rewrite fromEnd_1_snoc. unfold orNull.
    destruct (truthy x) eqn:Ht.
    + destruct x as [s|]; [|discriminate Ht]. rewrite !Ht. cbn [negb orb].
      destruct (isOperator (Some s) || isModifier (Some s)).
      * now rewrite addComponent_run.
      * destruct (isFunction (Some s)).
        -- rewrite run_bind, addComponent_run. cbn [fst snd].
           rewrite addComponent_run. cbn [snd equation].
           now rewrite <- app_assoc.
        -- rewrite run_bind, (checkNegativeFormat_run _ _ _ _ _ _ Ht).
           cbn [fst snd].
           rewrite run_bind, replaceLastComponent_snoc. cbn [fst snd].
           rewrite pop_snoc. unfold withDecimal. cbn [toStr].
           destruct (Str.contains "." s); [reflexivity|]. cbn [negb].
           rewrite run_bind, isNegativeComponent_run. cbn [fst snd].
           rewrite run_bind. cbn [get fst snd regExp2].
           rewrite replaceLastComponent_snoc. cbn [snd equation].
           destruct (negativeGroup2 s); reflexivity.
    + replace (truthy None) with false by reflexivity. cbn [negb orb].
      now rewrite addComponent_run.
Qed.

Lemma contains_append (c : ascii) (a b : string) :
  Str.contains c (a ++ b)%string = Str.contains c a || Str.contains c b.
Proof.
  unfold Str.contains. induction a as [|x a IH]; [reflexivity|].
  cbn [append Str.existsb]. now rewrite IH, orb_assoc.
Qed.

Lemma withDecimal_point (s : string) : Str.contains "." (withDecimal s) = true.
Proof.
  unfold withDecimal, negativeFormat.
  destruct (Str.contains "." s) eqn:H.
  - destruct (Str.startsWith "-d" s); [|exact H].
    now rewrite !contains_append, H, orb_true_r.
  - destruct (negativeGroup2 s).
    + rewrite !contains_append. cbn. now rewrite !orb_true_r.
    + rewrite contains_append. cbn. now rewrite orb_true_r.
Qed.

(** X13: after the decimal key the last component of the buffer holds a
    decimal point, whatever the buffer was. *)
Theorem addDecimal_leaves_point (m : Model) :
  hasPoint (Arr.fromEnd 1 (equation (exec addDecimal m))) = true.
Proof.
  destruct m as [e c r log g]. rewrite addDecimal_run. unfold afterDecimal.
  destruct (negb (truthy _) || isOperator _ || isModifier _).
  - now rewrite fromEnd_1_snoc.
  - destruct (isFunction _).
    + change [Some "*"; Some ("0" ++ DECIMAL)%string]
        with ([Some "*"] ++ [Some ("0" ++ DECIMAL)%string]).
      now rewrite app_assoc, fromEnd_1_snoc.
    + rewrite fromEnd_1_snoc. apply withDecimal_point.
Qed.

(** X14: a second decimal key changes nothing in the buffer, unless the
    last component starts with the two characters the negative-format
    check looks for. *)
Theorem addDecimal_twice (m : Model) :
  Str.startsWith "-d" (toStr (orNull (Arr.fromEnd 1 (equation m)))) = false ->
  equation (exec addDecimal (exec addDecimal m))
  = equation (exec addDecimal m).
Proof.
  destruct m as [e c r log g]. cbn [equation]. intros Hd.
  assert (Hstable : forall pre s, Str.contains "." s = true ->
            Str.startsWith "-d" s = false ->
            afterDecimal (pre ++ [Some s]) = pre ++ [Some s]).
  { intros pre s Hp Hs. unfold afterDecimal.
    rewrite fromEnd_1_snoc, pop_snoc. unfold orNull.
    assert (Ht : truthy (Some s) = true) by (destruct s; [discriminate Hp|reflexivity]).
    rewrite Ht. cbn [negb orb toStr].
    destruct (isOperator (Some s)) eqn:Ho.
    { apply memberOf_In in Ho. unfold OPERATORS in Ho. simpl in Ho.
      repeat (destruct Ho as [<-|Ho]; [discriminate Hp|]). contradiction. }
    destruct (isModifier (Some s)) eqn:Hm.
    { apply memberOf_In in Hm. unfold MODIFIERS in Hm. simpl in Hm.
      repeat (destruct Hm as [<-|Hm]; [discriminate Hp|]). contradiction. }
    destruct (isFunction (Some s)) eqn:Hf.
    { apply memberOf_In in Hf. unfold FUNCTIONS in Hf. simpl in Hf.
      repeat (destruct Hf as [<-|Hf]; [discriminate Hp|]). contradiction. }
    rewrite ?Ht. cbn [negb orb]. unfold withDecimal, negativeFormat. now rewrite Hp, Hs. }
  unfold exec at 2.
  destruct (snd (addDecimal (mkModel e c r log g))) as [e' c' r' log' g'] eqn:E.
  assert (He : e' = afterDecimal e).
  { rewrite <- addDecimal_run with (c := c) (r := r) (log := log) (g := g).
    unfold exec. now rewrite E. }
  rewrite !addDecimal_run. subst e'. clear E.
  assert (Hshape : exists pre s, afterDecimal e = pre ++ [Some s]
            /\ Str.contains "." s = true /\ Str.startsWith "-d" s = false).
  { unfold afterDecimal.
    destruct (negb (truthy _) || isOperator _ || isModifier _).
    - exists e, ("0" ++ DECIMAL)%string. now repeat split.
    - destruct (isFunction _).
      + exists (e ++ [Some "*"]), ("0" ++ DECIMAL)%string.
        rewrite <- app_assoc. now repeat split.
      + exists (Arr.pop e), (withDecimal (toStr (orNull (Arr.fromEnd 1 e)))).
        split; [reflexivity|]. split; [apply withDecimal_point|].
        unfold withDecimal, negativeFormat. rewrite Hd.
        destruct (Str.contains "." _); [exact Hd|].
        destruct (negativeGroup2 _); [reflexivity|].
        destruct (toStr _) as [|a [|b s]] eqn:Es.
        * reflexivity.
        * cbn. now destruct (Ascii.eqb a "-").
        * unfold Str.startsWith in *. cbn [append prefix] in *.
          destruct (ascii_dec "-" a); [|reflexivity].
          destruct (ascii_dec "d" b); [|reflexivity]. now destruct s. }
  destruct Hshape as [pre [s [-> [Hp Hs]]]]. now apply Hstable.
Qed.

Lemma addDecimal_twice_witness :
  equation (exec addDecimal (exec addDecimal (after [KDigit "7"])))
  = equation (exec addDecimal (after [KDigit "7"])).
Proof.
  apply (addDecimal_twice (after [KDigit "7"])). reflexivity.
Defined.


(** ** Brackets *)

Lemma countComponent_run (val : string) (e : list token) (c : bool)
  (r : string) (log : list (list token)) (g : string) :
  countComponent val (mkModel e c r log g)
  = (length (List.filter (fun eqComp => isStr eqComp val) e),
     mkModel e c r log g).
Proof. reflexivity. Qed.

Lemma countFunctions_run (e : list token) (c : bool)
  (r : string) (log : list (list token)) (g : string) :
  countFunctions (mkModel e c r log g)
  = (length (List.filter isFunction e), mkModel e c r log g).
Proof. reflexivity. Qed.

Lemma isEmpty_run (e : list token) (c : bool)
  (r : string) (log : list (list token)) (g : string) :
  isEmpty (mkModel e c r log g) = ((length e =? 0)%nat, mkModel e c r log g).
Proof. reflexivity. Qed.

Lemma getLastComponent_peek (e : list token) (c : bool)
  (r : string) (log : list (list token)) (g : string) :
  getLastComponent false (mkModel e c r log g)
  = (orNull (Arr.fromEnd 1 e), mkModel e c r log g).
Proof.
  unfold getLastComponent. rewrite run_bind. cbn [get fst snd equation].
  now rewrite correctInto_run.
Qed.

Lemma addBracket_run (e : list token) (c : bool) (r : string)
  (log : list (list token)) (g : string) :
  equation (exec addBracket (mkModel e c r log g))
  = e ++ bracketTokens (bracketing e).
Proof.
  unfold exec, addBracket, bracketing.
  rewrite run_bind, getLastComponent_peek. cbn [fst snd].
  rewrite run_bind, countComponent_run. cbn [fst snd].
  rewrite run_bind, countFunctions_run. cbn [fst snd].
  rewrite run_bind, countComponent_run. cbn [fst snd].
  rewrite run_bind, isEmpty_run. cbn [fst snd].
  fold (countOpened e) (countClosed e).
  rewrite run_bind.
  destruct (length e =? 0)%nat.
  { cbn [ret fst snd]. unfold BRACKET_OPEN. cbn [addComponents].
    rewrite run_bind, addComponent_run. reflexivity. }
  destruct (isBracket _).
  { destruct (isStr _ _ && _); cbn [ret fst snd];
      unfold BRACKET_OPEN, BRACKET_CLOSE; cbn [addComponents];
      rewrite run_bind, addComponent_run; reflexivity. }
  rewrite run_bind, isNumeric_run. cbn [fst snd].
  destruct (matchesNumeric _ && _).
  { cbn [ret fst snd]. unfold BRACKET_OPEN. cbn [addComponents append].
    rewrite run_bind, addComponent_run. cbn [fst snd].
    rewrite run_bind, addComponent_run. cbn [fst snd ret equation bracketTokens].
    now rewrite <- app_assoc. }
  destruct (isOperator _).
  { cbn [ret fst snd]. unfold BRACKET_OPEN. cbn [addComponents].
    rewrite run_bind, addComponent_run. reflexivity. }
  destruct (negb _ && negb _ && _); cbn [ret fst snd];
    unfold BRACKET_OPEN, BRACKET_CLOSE; cbn [addComponents];
    rewrite run_bind, addComponent_run; reflexivity.
Qed.

Lemma countOpened_app (a b : list token) :
  countOpened (a ++ b) = countOpened a + countOpened b.
Proof. unfold countOpened. rewrite !filter_app, !length_app. lia. Qed.

Lemma countClosed_app (a b : list token) :
  countClosed (a ++ b) = countClosed a + countClosed b.
Proof. unfold countClosed. now rewrite filter_app, length_app. Qed.

Lemma bracketing_closes (e : list token) :
  bracketing e = Closes -> countClosed e < countOpened e.
Proof.
  unfold bracketing.
  destruct (length e =? 0)%nat; [discriminate|].
  destruct (isBracket _).
  { destruct (isStr _ _ && (countClosed e <? countOpened e)%nat) eqn:H;
      [|discriminate].
    intros _. apply andb_true_iff in H. now apply Nat.ltb_lt. }
  destruct (matchesNumeric _ && _); [discriminate|].
  destruct (isOperator _); [discriminate|].
  destruct (negb _ && negb _ && (countClosed e <? countOpened e)%nat) eqn:H;
    [|discriminate].
  intros _. apply andb_true_iff in H. now apply Nat.ltb_lt.
Qed.

(** X15: the bracket key only appends, and it never closes more brackets
    than the buffer has open: an opening bracket, alone or after a
    multiplication sign, or a closing bracket when fewer are closed than
    opened. *)
Theorem addBracket_appends (m : Model) :
  equation (exec addBracket m) = equation m ++ [Some "("]
  \/ (equation (exec addBracket m) = equation m ++ [Some "*"; Some "("]
      /\ matchesNumeric (toStr (orNull (Arr.fromEnd 1 (equation m)))) = true
      /\ countOpened (equation m) = countClosed (equation m))
  \/ (equation (exec addBracket m) = equation m ++ [Some ")"]
      /\ countClosed (equation m) < countOpened (equation m)).
Proof.
  destruct m as [e c r log g]. rewrite addBracket_run. cbn [equation].
  destruct (bracketing e) eqn:B.
  - now left.
  - right. right. split; [reflexivity|]. now apply bracketing_closes.
  - right. left. split; [reflexivity|].
    unfold bracketing in B.
    destruct (length e =? 0)%nat; [discriminate|].
    destruct (isBracket _); [now destruct (isStr _ _ && _)|].
    destruct (matchesNumeric _ && (countOpened e =? countClosed e)%nat) eqn:H.
    + apply andb_true_iff in H. destruct H as [H1 H2].
      split; [exact H1|now apply Nat.eqb_eq].
    + destruct (isOperator _); [discriminate|].
      now destruct (negb _ && negb _ && _).
Qed.

(** X16: when no more brackets are closed than opened, counting the
    function tokens as openers, the bracket key keeps it so. *)
Theorem addBracket_keeps_balance (m : Model) :
  countClosed (equation m) <= countOpened (equation m) ->
  countClosed (equation (exec addBracket m))
  <= countOpened (equation (exec addBracket m)).
Proof.
  destruct m as [e c r log g]. rewrite addBracket_run. cbn [equation].
  intros H. rewrite countOpened_app, countClosed_app.
  destruct (bracketing e) eqn:B.
  - cbn. lia.
  - apply bracketing_closes in B. cbn. lia.
  - cbn. lia.
Qed.

Lemma addBracket_keeps_balance_witness :
  countClosed (equation (exec addBracket
                 (after [KFunction "sqrt("; KDigit "4"])))
  <= countOpened (equation (exec addBracket
                    (after [KFunction "sqrt("; KDigit "4"]))).
Proof.
  apply (addBracket_keeps_balance (after [KFunction "sqrt("; KDigit "4"])).
  vm_compute. lia.
Defined.


(** ** Operators and functions after an operand *)

Lemma restart_result (e : list token)
  (r : string) (log : list (list token)) (g : string) :
  restart true (mkModel e true r log g)
  = (tt, mkModel [Some r] false r (recorded (recorded log []) [Some r]) g).
Proof. reflexivity. Qed.

Lemma getPenultimateComponent_keeps_front (pre : list token) (x : token)
  (c : bool) (r : string) (log : list (list token)) (g : string) :
  exists y, snd (getPenultimateComponent true (mkModel (pre ++ [x]) c r log g))
            = mkModel (pre ++ [y]) c r log g.
Proof.
  destruct (nil_or_snoc _ pre) as [->|[pre' [p ->]]].
  - exists x. reflexivity.
  - rewrite getPenultimateComponent_snoc. eexists. reflexivity.
Qed.

Lemma settledOperand_not_minus (x : token) :
  settledOperand x = true -> isStr x "-" = false.
Proof.
  unfold settledOperand. destruct x as [s|]; [|reflexivity].
  unfold isStr, token_eqb. destruct (String.eqb_spec s "-") as [->|]; [|reflexivity].
  discriminate.
Qed.

Lemma addOperator_operand_run (operator t : string) (pre : list token)
  (r : string) (log : list (list token)) (g : string) :
  settledOperand (stripDecimal (Some t)) = true ->
  equation (snd (addOperator operator (mkModel (pre ++ [Some t]) false r log g)))
  = pre ++ [stripDecimal (Some t); Some operator].
Proof.
  intros Hs. pose proof (settledOperand_not_minus _ Hs) as Hminus.
  unfold settledOperand in Hs.
  apply andb_true_iff in Hs. destruct Hs as [Hs Hd].
  apply andb_true_iff in Hs. destruct Hs as [Hs He].
  apply andb_true_iff in Hs. destruct Hs as [Hs Hf].
  apply andb_true_iff in Hs. destruct Hs as [Ht Ho].
  apply negb_true_iff in Hd, He, Hf, Ho.
  assert (Htt : truthy (Some t) = true).
  { unfold stripDecimal, dangling in Ht.
    destruct (truthy (Some t)) eqn:E; [reflexivity|].
    cbn [andb] in Ht. now rewrite E in Ht. }
  destruct (stripDecimal (Some t)) as [s|] eqn:Es; [|discriminate Ht].
  cbn [toStr] in *.
  unfold addOperator.
  rewrite run_bind, restart_idle. cbn [fst snd].
  rewrite run_bind, getLastComponent_snoc, Htt, Es. cbn [fst snd].
  rewrite run_bind.
  destruct (getPenultimateComponent_keeps_front pre (Some s) false r log g)
    as [y Hy].
  rewrite Hy. rewrite run_bind. cbn [get fst snd].
  rewrite Ht, Hminus. cbn [negb andb].
  rewrite run_bind, (checkNegativeFormat_plain _ _ Hd). cbn [fst snd].
  rewrite run_bind, replaceLastComponent_snoc. cbn [fst snd].
  rewrite Ho, Hf. cbn [toStr]. rewrite He.
  rewrite addComponent_run. cbn [snd equation].
  now rewrite <- app_assoc.
Qed.

(** X17: after an operand, an operator is appended and a trailing decimal
    point of the operand dropped; an operator typed on a shown result
    continues from that result. *)
Theorem addOperator_appends_after_operand
  (operator t : string) (pre : list token) (m : Model) :
  (if calculated m then [Some (lastCalculationResult m)] else equation m)
  = pre ++ [Some t] ->
  settledOperand (stripDecimal (Some t)) = true ->
  equation (exec (addOperator operator) m)
  = pre ++ [stripDecimal (Some t); Some operator].
Proof.
  destruct m as [e c r log g]. cbn [calculated lastCalculationResult equation].
  intros He Hs. unfold exec. destruct c.
  - unfold addOperator. rewrite run_bind, restart_result. cbn [fst snd].
    rewrite He.
    pose proof (addOperator_operand_run operator t pre r
                  (recorded (recorded log []) (pre ++ [Some t])) g Hs) as H.
    unfold addOperator in H. rewrite run_bind, restart_idle in H.
    exact H.
  - subst e. now apply addOperator_operand_run.
Qed.

Lemma addOperator_appends_after_operand_witness :
  equation (exec (addOperator "+") (after [KDigit "1"; KDecimal]))
  = [Some "1"; Some "+"].
Proof.
  apply (addOperator_appends_after_operand "+" "1." []
           (after [KDigit "1"; KDecimal])); reflexivity.
Defined.

(** X18: on an empty buffer only the minus sign is taken as an operator. *)
Theorem addOperator_on_empty (operator : string) (m : Model) :
  calculated m = false ->
  equation m = [] ->
  equation (exec (addOperator operator) m)
  = if String.eqb operator "-" then [Some "-"] else [].
Proof.
  destruct m as [e c r log g]. cbn [calculated equation]. intros -> ->.
  unfold exec, addOperator.
  rewrite run_bind, restart_idle. cbn [fst snd].
  rewrite run_bind, getLastComponent_nil. cbn [fst snd].
  rewrite run_bind. cbn [getPenultimateComponent]. 
  change (getPenultimateComponent true (mkModel [] false r log g))
    with (@None string, mkModel [] false r log g).
  cbn [fst snd]. rewrite run_bind. cbn [get fst snd].
  destruct (String.eqb_spec operator "-") as [->|_]; reflexivity.
Qed.

Lemma addOperator_on_empty_witness :
  equation (exec (addOperator "*") (started ""))
  = if String.eqb "*" "-" then [Some "-"] else [].
Proof.
  apply (addOperator_on_empty "*" (started "")); reflexivity.
Defined.

Lemma equation_then_addComponent (k : M unit) (v : token) (m : Model) :
  equation (snd ((k ;; addComponent v) m)) = equation (snd (k m)) ++ [v].
Proof.
  rewrite run_bind. destruct (snd (k m)) as [e c r log g].
  now rewrite addComponent_run.
Qed.

(** X19: whatever the buffer holds, the function key leaves the function
    token as its last component. *)
Theorem addFunction_ends_with_function (func : string) (m : Model) :
  Arr.fromEnd 1 (equation (exec (addFunction func) m)) = Some (Some func).
Proof.
  unfold exec, addFunction.
  rewrite run_bind. destruct (snd (restart false m)) as [e c r log g].
  rewrite run_bind.
  destruct (snd (getLastComponent true (mkModel e c r log g)))
    as [e' c' r' log' g'].
  destruct (_ || _).
  - rewrite addComponent_run. cbn [snd equation]. apply fromEnd_1_snoc.
  - rewrite equation_then_addComponent. apply fromEnd_1_snoc.
Qed.

(** X20: with the calculated flag clear, after an operand the function key
    multiplies: it appends a multiplication sign and then the function
    token.  An operand is a last component that is not empty, no operator,
    function or opening bracket, that neither ends in a decimal point or
    in [E] nor starts with the two characters the negative-format check
    looks for. *)
Theorem addFunction_multiplies_after_operand
  (func t : string) (pre : list token) (m : Model) :
  calculated m = false ->
  equation m = pre ++ [Some t] ->
  settledOperand (Some t) = true ->
  dangling (Some t) = false ->
  isOpenBracket (Some t) = false ->
  equation (exec (addFunction func) m)
  = pre ++ [Some t; Some "*"; Some func].
Proof.
  destruct m as [e c r log g]. cbn [calculated equation].
  intros -> -> Hs Hd Hb.
  assert (Hstrip : stripDecimal (Some t) = Some t)
    by (unfold stripDecimal; now rewrite Hd).
  assert (Hparts : truthy (Some t) = true /\ isOperator (Some t) = false
                   /\ isFunction (Some t) = false).
  { unfold settledOperand in Hs.
    repeat (apply andb_true_iff in Hs; destruct Hs as [Hs ?]).
    repeat split; try assumption; now apply negb_true_iff. }
  destruct Hparts as [Ht [Ho Hf]].
  unfold exec, addFunction.
  rewrite run_bind, restart_idle. cbn [fst snd].
  rewrite run_bind, getLastComponent_snoc, Ht, Hstrip. cbn [fst snd].
  rewrite Ht, Ho, Hb, Hf. cbn [negb orb].
  rewrite equation_then_addComponent.
  rewrite addOperator_operand_run by (now rewrite Hstrip).
  rewrite Hstrip, <- app_assoc. reflexivity.
Qed.

Lemma addFunction_multiplies_after_operand_witness :
  equation (exec (addFunction "sqrt(") (after [KDigit "2"]))
  = [Some "2"; Some "*"; Some "sqrt("].
Proof.
  apply (addFunction_multiplies_after_operand "sqrt(" "2" []
           (after [KDigit "2"])); reflexivity.
Defined.


(** ** A modifier after a dangling decimal point *)

(** X21: when the token before the last carries a dangling decimal point
    and the last token takes no modifier, [addModifier] writes the
    corrected token before the last over the last one:
    [getPenultimateComponent] stores its correction in the last slot, and
    nothing puts the last token back. *)
Theorem addModifier_overwrites_rejected_token
  (modifier : string) (p x : token) (pre : list token) (m : Model) :
  calculated m = false ->
  equation m = (pre ++ [p]) ++ [x] ->
  dangling p = true ->
  acceptsModifier (stripDecimal x) = false ->
  equation (exec (addModifier modifier) m) = (pre ++ [p]) ++ [stripDecimal p].
Proof.
  destruct m as [e c r log g]. cbn [calculated equation].
  intros -> -> Hd Ha.
  assert (Htp : truthy p = true).
  { unfold dangling in Hd. now apply andb_true_iff in Hd. }
  unfold exec, addModifier.
  rewrite run_bind, restart_idle. cbn [fst snd].
  rewrite run_bind, getLastComponent_snoc. cbn [fst snd].
  rewrite run_bind, getPenultimateComponent_snoc, Hd. cbn [fst snd].
  destruct (truthy x) eqn:Htx.
  - destruct (Bool.bool_dec (truthy (stripDecimal x)) true) as [Hts|Hts].
    + rewrite addModifier_tail by exact Hts. now rewrite Ha.
    + apply not_true_is_false in Hts. rewrite Hts. reflexivity.
  - reflexivity.
Qed.

Lemma addModifier_overwrites_rejected_token_witness :
  equation (exec (addModifier "!")
              (after [KDigit "1"; KDecimal; KBracket; KDelete]))
  = [Some "1."; Some "1"].
Proof.
  apply (addModifier_overwrites_rejected_token "!" (Some "1.") (Some "*") []
           (after [KDigit "1"; KDecimal; KBracket; KDelete])); reflexivity.
Defined.


(** ** The lone minus sign *)

(** X22: with the calculated flag clear, on a lone minus sign [addDigit]
    builds the plain [(-digit)] from a digit key exactly when [RegExp.$2]
    is empty or a zero: any other capture left by an earlier match goes
    into the token or, over the cap, keeps the digit out. *)
Theorem addDigit_lone_minus_plain (digit : string) (m : Model) :
  isDigitKey digit ->
  calculated m = false ->
  equation m = [Some "-"%string] ->
  (equation (exec (addDigit digit) m) = [Some ("(-" ++ digit ++ ")")%string]
   <-> regExp2 m = EmptyString \/ regExp2 m = "0"%string).
Proof.
  intros Hd. destruct m as [e c r log g]. cbn [calculated equation regExp2].
  intros -> ->. rewrite addDigit_lone_minus. split.
  - destruct (digitCount (minusCandidate g digit) <=? MAX_DIGITS)%nat.
    + intros H. apply (proj1 (minusCandidate_pristine g digit)).
      apply (f_equal (fun l => toStr (hd None l))) in H. exact H.
    + discriminate.
  - intros H. rewrite (proj2 (minusCandidate_pristine g digit) H).
    replace (digitCount ("(-" ++ digit ++ ")")%string) with 1; [reflexivity|].
    unfold digitCount. cbn [append Str.filter].
    change (Str.isDigit "(") with false. change (Str.isDigit "-") with false.
    cbv iota. rewrite filter_append.
    fold (digitCount digit). rewrite length_append.
    fold (digitCount digit). rewrite (digitKey_count _ Hd). reflexivity.
Qed.

Lemma addDigit_lone_minus_plain_witness :
  equation (exec (addDigit "5") (after [KOperator "-"])) = [Some "(-5)"%string]
  <-> regExp2 (after [KOperator "-"]) = EmptyString
      \/ regExp2 (after [KOperator "-"]) = "0"%string.
Proof.
  apply (addDigit_lone_minus_plain "5" (after [KOperator "-"]));
    [eexists; split; reflexivity | reflexivity | reflexivity].
Defined.


(** ** The view: thousands separators *)

Lemma string_ind3 (P : string -> Prop) :
  P EmptyString ->
  (forall a, P (String a EmptyString)) ->
  (forall a b, P (String a (String b EmptyString))) ->
  (forall a b c r, P r -> P (String a (String b (String c r)))) ->
  forall s, P s.
Proof.
  intros H0 H1 H2 H3 s.
  assert (H : P s /\ (forall a, P (String a s))
              /\ (forall a b, P (String a (String b s)))).
  { induction s as [|x s [IH0 [IH1 IH2]]].
    - repeat split; auto.
    - repeat split; auto. }
  apply H.
Qed.

Lemma append_assoc (a b c : string) :
  ((a ++ b) ++ c = a ++ (b ++ c))%string.
Proof. induction a as [|x a IH]; [reflexivity|]. cbn [append]. now rewrite IH. Qed.

Lemma reversed_append (a b : string) :
  View.reversed (a ++ b)%string = (View.reversed b ++ View.reversed a)%string.
Proof.
  induction a as [|x a IH]; cbn [append View.reversed].
  - now rewrite append_empty.
  - now rewrite IH, append_assoc.
Qed.

Lemma reversed_involutive (s : string) : View.reversed (View.reversed s) = s.
Proof.
  induction s as [|x s IH]; [reflexivity|].
  cbn [View.reversed]. rewrite reversed_append, IH. reflexivity.
Qed.

Lemma reversed_length (s : string) :
  String.length (View.reversed s) = String.length s.
Proof.
  induction s as [|x s IH]; [reflexivity|].
  cbn [View.reversed String.length]. rewrite length_append, IH. cbn. lia.
Qed.

Lemma filter_reversed (p : ascii -> bool) (s : string) :
  Str.filter p (View.reversed s) = View.reversed (Str.filter p s).
Proof.
  induction s as [|x s IH]; [reflexivity|].
  cbn [View.reversed Str.filter]. rewrite filter_append, IH.
  cbn [Str.filter]. destruct (p x); [reflexivity|now rewrite append_empty].
Qed.

Lemma forallb_append (p : ascii -> bool) (a b : string) :
  Str.forallb p (a ++ b)%string = Str.forallb p a && Str.forallb p b.
Proof.
  induction a as [|x a IH]; [reflexivity|].
  cbn [append Str.forallb]. now rewrite IH, andb_assoc.
Qed.

Lemma forallb_reversed (p : ascii -> bool) (s : string) :
  Str.forallb p (View.reversed s) = Str.forallb p s.
Proof.
  induction s as [|x s IH]; [reflexivity|].
  cbn [View.reversed Str.forallb]. rewrite forallb_append, IH.
  cbn [Str.forallb]. rewrite andb_true_r. apply andb_comm.
Qed.

(** On one line the groups are taken three by three. *)
Lemma matchGroups_three (a b c : ascii) (r : string) :
  View.oneLine (String a (String b (String c r))) = true ->
  View.matchGroups (String a (String b (String c r)))
  = String a (String b (String c EmptyString)) :: View.matchGroups r.
Proof.
  unfold View.oneLine. cbn [Str.forallb View.matchGroups]. intros H.
  apply andb_true_iff in H. destruct H as [Ha H].
  apply andb_true_iff in H. destruct H as [Hb H].
  apply andb_true_iff in H. destruct H as [Hc _].
  apply negb_true_iff in Ha, Hb, Hc. now rewrite Ha, Hb, Hc.
Qed.

Lemma oneLine_tail (a b c : ascii) (r : string) :
  View.oneLine (String a (String b (String c r))) = true ->
  View.oneLine r = true.
Proof.
  unfold View.oneLine. cbn [Str.forallb]. intros H.
  apply andb_true_iff in H. destruct H as [_ H].
  apply andb_true_iff in H. destruct H as [_ H].
  now apply andb_true_iff in H.
Qed.

Lemma matchGroups_nonempty (s : string) :
  View.oneLine s = true -> s <> EmptyString -> View.matchGroups s <> [].
Proof.
  induction s as [|a|a b|a b c r _] using string_ind3; intros H Hne.
  - contradiction.
  - unfold View.oneLine in H. cbn [Str.forallb] in H.
    apply andb_true_iff in H. destruct H as [Ha _].
    apply negb_true_iff in Ha. cbn [View.matchGroups]. rewrite Ha. discriminate.
  - unfold View.oneLine in H. cbn [Str.forallb] in H.
    apply andb_true_iff in H. destruct H as [Ha H].
    apply andb_true_iff in H. destruct H as [Hb _].
    apply negb_true_iff in Ha, Hb. cbn [View.matchGroups]. rewrite Ha, Hb.
    discriminate.
  - rewrite (matchGroups_three _ _ _ _ H). discriminate.
Qed.

Lemma concat_cons (sep x : string) (l : list string) :
  l <> [] -> String.concat sep (x :: l) = (x ++ sep ++ String.concat sep l)%string.
Proof. destruct l; [contradiction|reflexivity]. Qed.

(** Deleting the separators from the joined groups gives the string. *)
Lemma matchGroups_without (s : string) :
  View.oneLine s = true ->
  Str.existsb (Ascii.eqb ",") s = false ->
  View.withoutSeparators (String.concat View.SEPARATOR (View.matchGroups s)) = s.
Proof.
  assert (Hc : forall a, Ascii.eqb "," a = false ->
                 negb (Ascii.eqb a ",") = true).
  { intros a H. rewrite Ascii.eqb_sym. now rewrite H. }
  induction s as [|a|a b|a b c r IH] using string_ind3; intros H Hs.
  - reflexivity.
  - unfold View.oneLine in H. cbn [Str.forallb] in H.
    apply andb_true_iff in H. destruct H as [Ha _].
    apply negb_true_iff in Ha. cbn [View.matchGroups]. rewrite Ha.
    cbn [Str.existsb] in Hs. apply orb_false_iff in Hs. destruct Hs as [Hs _].
    cbn [String.concat]. unfold View.withoutSeparators. cbn [Str.filter].
    now rewrite (Hc _ Hs).
  - unfold View.oneLine in H. cbn [Str.forallb] in H.
    apply andb_true_iff in H. destruct H as [Ha H].
    apply andb_true_iff in H. destruct H as [Hb _].
    apply negb_true_iff in Ha, Hb. cbn [View.matchGroups]. rewrite Ha, Hb.
    cbn [Str.existsb] in Hs. apply orb_false_iff in Hs. destruct Hs as [Hs1 Hs].
    apply orb_false_iff in Hs. destruct Hs as [Hs2 _].
    cbn [String.concat]. unfold View.withoutSeparators. cbn [Str.filter].
    now rewrite (Hc _ Hs1), (Hc _ Hs2).
  - rewrite (matchGroups_three _ _ _ _ H).
    pose proof (oneLine_tail _ _ _ _ H) as Hr.
    cbn [Str.existsb] in Hs. apply orb_false_iff in Hs. destruct Hs as [Hs1 Hs].
    apply orb_false_iff in Hs. destruct Hs as [Hs2 Hs].
    apply orb_false_iff in Hs. destruct Hs as [Hs3 Hs].
    specialize (IH Hr Hs).
    destruct r as [|d r].
    + cbn [View.matchGroups String.concat]. unfold View.withoutSeparators.
      cbn [Str.filter]. now rewrite (Hc _ Hs1), (Hc _ Hs2), (Hc _ Hs3).
    + rewrite concat_cons by (apply matchGroups_nonempty; [exact Hr|discriminate]).
      unfold View.withoutSeparators in *. rewrite !filter_append, IH.
      change (Str.filter (fun c => negb (Ascii.eqb c ",")) View.SEPARATOR)
        with EmptyString.
      cbn [append Str.filter].
      now rewrite (Hc _ Hs1), (Hc _ Hs2), (Hc _ Hs3).
Qed.

(** The joined groups of [n] characters hold [(n - 1) / 3] separators. *)
Lemma matchGroups_length (s : string) :
  View.oneLine s = true ->
  String.length (String.concat View.SEPARATOR (View.matchGroups s))
  = String.length s + (String.length s - 1) / 3.
Proof.
  induction s as [|a|a b|a b c r IH] using string_ind3; intros H.
  - reflexivity.
  - unfold View.oneLine in H. cbn [Str.forallb] in H.
    apply andb_true_iff in H. destruct H as [Ha _].
    apply negb_true_iff in Ha. cbn [View.matchGroups]. now rewrite Ha.
  - unfold View.oneLine in H. cbn [Str.forallb] in H.
    apply andb_true_iff in H. destruct H as [Ha H].
    apply andb_true_iff in H. destruct H as [Hb _].
    apply negb_true_iff in Ha, Hb. cbn [View.matchGroups]. now rewrite Ha, Hb.
  - rewrite (matchGroups_three _ _ _ _ H).
    pose proof (oneLine_tail _ _ _ _ H) as Hr. specialize (IH Hr).
    destruct r as [|d r]; [reflexivity|].
    rewrite concat_cons by (apply matchGroups_nonempty; [exact Hr|discriminate]).
    cbn [append String.length]. unfold View.SEPARATOR at 1.
    cbn [append String.length]. rewrite IH.
    cbn [String.length].
    replace (S (S (S (S (String.length r)))) - 1) with (S (String.length r) - 1 + 1 * 3) by lia.
    rewrite Nat.div_add by lia. lia.
Qed.

Lemma takeWhile_dropWhile (p : ascii -> bool) (s : string) :
  (Str.takeWhile p s ++ Str.dropWhile p s)%string = s.
Proof.
  induction s as [|c s IH]; [reflexivity|].
  cbn [Str.takeWhile Str.dropWhile]. destruct (p c); [|reflexivity].
  cbn [append]. now rewrite IH.
Qed.

Lemma takeWhile_forallb (p : ascii -> bool) (s : string) :
  Str.forallb p (Str.takeWhile p s) = true.
Proof.
  induction s as [|c s IH]; [reflexivity|].
  cbn [Str.takeWhile]. destruct (p c) eqn:H; [|reflexivity].
  cbn [Str.forallb]. now rewrite H, IH.
Qed.

Lemma forallb_weaken (p q : ascii -> bool) (s : string) :
  (forall c, p c = true -> q c = true) ->
  Str.forallb p s = true -> Str.forallb q s = true.
Proof.
  intros Hpq. induction s as [|c s IH]; [reflexivity|].
  cbn [Str.forallb]. intros H. apply andb_true_iff in H. destruct H as [Hc Hs].
  now rewrite (Hpq _ Hc), (IH Hs).
Qed.

Lemma digit_oneLine (c : ascii) :
  Str.isDigit c = true -> negb (Str.isLineTerminator c) = true.
Proof.
  destruct c as [[] [] [] [] [] [] [] []]; intros H; try discriminate H;
    reflexivity.
Qed.

Lemma digit_no_separator (c : ascii) :
  Str.isDigit c = true -> Ascii.eqb "," c = false.
Proof.
  destruct c as [[] [] [] [] [] [] [] []]; intros H; try discriminate H;
    reflexivity.
Qed.

Lemma digits_reversed_oneLine (p1 : string) :
  Str.forallb Str.isDigit p1 = true -> View.oneLine (View.reversed p1) = true.
Proof.
  intros H. unfold View.oneLine. rewrite forallb_reversed.
  revert H. apply forallb_weaken. exact digit_oneLine.
Qed.

Lemma digits_no_separator (p1 : string) :
  Str.forallb Str.isDigit p1 = true -> Str.existsb (Ascii.eqb ",") p1 = false.
Proof.
  induction p1 as [|c p1 IH]; [reflexivity|].
  cbn [Str.forallb Str.existsb]. intros H.
  apply andb_true_iff in H. destruct H as [Hc Hp].
  now rewrite (digit_no_separator _ Hc), (IH Hp).
Qed.

Lemma reversed_nonempty (s : string) :
  s <> EmptyString -> View.reversed s <> EmptyString.
Proof.
  intros H E. apply H. rewrite <- (reversed_involutive s), E. reflexivity.
Qed.

Lemma existsb_reversed (p : ascii -> bool) (s : string) :
  Str.existsb p (View.reversed s) = Str.existsb p s.
Proof.
  assert (Happ : forall a b, Str.existsb p (a ++ b)%string
                             = Str.existsb p a || Str.existsb p b).
  { intros a b. induction a as [|x a IH]; [reflexivity|].
    cbn [append Str.existsb]. now rewrite IH, orb_assoc. }
  induction s as [|x s IH]; [reflexivity|].
  cbn [View.reversed Str.existsb]. rewrite Happ, IH.
  cbn [Str.existsb]. rewrite orb_false_r. apply orb_comm.
Qed.

(** The separators put into a run of digits. *)
Lemma digits_grouped (p1 : string) :
  Str.forallb Str.isDigit p1 = true ->
  View.withoutSeparators
    (View.reversed (String.concat View.SEPARATOR
                      (View.matchGroups (View.reversed p1)))) = p1
  /\ String.length
       (View.reversed (String.concat View.SEPARATOR
                         (View.matchGroups (View.reversed p1))))
     = String.length p1 + (String.length p1 - 1) / 3.
Proof.
  intros H. pose proof (digits_reversed_oneLine _ H) as Hl. split.
  - unfold View.withoutSeparators. rewrite filter_reversed.
    fold (View.withoutSeparators
            (String.concat View.SEPARATOR (View.matchGroups (View.reversed p1)))).
    rewrite matchGroups_without; [apply reversed_involutive|exact Hl|].
    rewrite existsb_reversed. now apply digits_no_separator.
  - rewrite reversed_length, (matchGroups_length _ Hl), reversed_length.
    reflexivity.
Qed.

Lemma regexpReplacer_run (sign p1 : string) (e : list token) (c : bool)
  (r : string) (log : list (list token)) (g : string) :
  Str.forallb Str.isDigit p1 = true -> p1 <> EmptyString ->
  View.regexpReplacer sign p1 (mkModel e c r log g)
  = (Returned (sign ++ View.reversed
                         (String.concat View.SEPARATOR
                            (View.matchGroups (View.reversed p1))))%string,
     mkModel e c r log "").
Proof.
  intros H Hne. unfold View.regexpReplacer.
  pose proof (matchGroups_nonempty _ (digits_reversed_oneLine _ H)
                (reversed_nonempty _ Hne)) as Hg.
  destruct (View.matchGroups (View.reversed p1)) as [|x l]; [contradiction|].
  reflexivity.
Qed.

Lemma leadingNumber_some (s sign p1 rest : string) :
  View.leadingNumber s = Some (sign, p1, rest) ->
  s = (sign ++ p1 ++ rest)%string
  /\ Str.forallb Str.isDigit p1 = true /\ p1 <> EmptyString
  /\ (sign = EmptyString \/ sign = "-"%string).
Proof.
  unfold View.leadingNumber.
  set (body := if Str.startsWith "-" s then Str.drop 1 s else s).
  assert (Hbody : s = ((if Str.startsWith "-" s then "-"%string else EmptyString)
                       ++ body)%string).
  { unfold body. destruct s as [|a s]; [reflexivity|].
    unfold Str.startsWith. cbn [prefix].
    destruct (ascii_dec "-" a) as [<-|_]; [|reflexivity].
    destruct s; reflexivity. }
  destruct (Str.takeWhile Str.isDigit body) as [|d ds] eqn:Et;
    cbn [Str.isEmpty]; [discriminate|].
  intros [= <- <- <-]. split; [|split; [|split]].
  - rewrite <- Et, takeWhile_dropWhile. exact Hbody.
  - rewrite <- Et. apply takeWhile_forallb.
  - discriminate.
  - destruct (Str.startsWith "-" s); [now right|now left].
Qed.

Lemma addSeparators_run (s : string) (m : Model) :
  eval (View.addSeparators s) m
  = Returned (match negativeGroup2 s with
              | Some n => ("(-" ++ View.grouped n ++ ")")%string
              | None => View.grouped s
              end).
Proof.
  destruct m as [e c r log g]. unfold eval, View.addSeparators.
  rewrite run_bind, isNegativeComponent_run. cbn [fst snd].
  rewrite run_bind. cbn [get fst snd regExp2].
  assert (Hin : forall t g',
    fst ((match View.leadingNumber t with
          | Some (sign, p1, rest) =>
              modify (setRegExp2 p1) ;;
              r0 <- View.regexpReplacer sign p1 ;;
              ret (match r0 with
                   | Returned t0 => Returned (t0 ++ rest)%string
                   | Thrown e0 => Thrown e0
                   end)
          | None => ret (Returned t)
          end) (mkModel e c r log g'))
    = Returned (View.grouped t)).
  { intros t g'. unfold View.grouped.
    destruct (View.leadingNumber t) as [[[sign p1] rest]|] eqn:El; [|reflexivity].
    destruct (leadingNumber_some _ _ _ _ El) as [_ [Hd [Hne _]]].
    rewrite run_bind. cbn [modify fst snd setRegExp2 equation calculated
                           lastCalculationResult undoLog regExp2].
    rewrite run_bind. unfold setRegExp2. cbn [equation calculated lastCalculationResult undoLog]. rewrite (regexpReplacer_run _ _ _ _ _ _ _ Hd Hne).
    cbn [fst snd ret]. now rewrite append_assoc. }
  rewrite run_bind.
  destruct (negativeGroup2 s) as [n|]; rewrite Hin; reflexivity.
Qed.

Lemma grouped_without (s : string) :
  Str.existsb (Ascii.eqb ",") s = false ->
  View.withoutSeparators (View.grouped s) = s.
Proof.
  assert (Hplain : forall t, Str.existsb (Ascii.eqb ",") t = false ->
                     View.withoutSeparators t = t).
  { induction t as [|x t IH]; [reflexivity|].
    cbn [Str.existsb]. intros H. apply orb_false_iff in H.
    destruct H as [Hx Ht]. unfold View.withoutSeparators in *.
    cbn [Str.filter]. rewrite Ascii.eqb_sym, Hx. cbn [negb].
    now rewrite (IH Ht). }
  assert (Happ : forall a b, Str.existsb (Ascii.eqb ",") (a ++ b)%string
                   = Str.existsb (Ascii.eqb ",") a
                     || Str.existsb (Ascii.eqb ",") b).
  { intros a b. induction a as [|x a IH]; [reflexivity|].
    cbn [append Str.existsb]. now rewrite IH, orb_assoc. }
  intros H. unfold View.grouped.
  destruct (View.leadingNumber s) as [[[sign p1] rest]|] eqn:El;
    [|now apply Hplain].
  destruct (leadingNumber_some _ _ _ _ El) as [Hs [Hd [_ _]]].
  rewrite Hs in H. rewrite !Happ in H.
  apply orb_false_iff in H. destruct H as [H1 H].
  apply orb_false_iff in H. destruct H as [_ H3].
  unfold View.withoutSeparators. rewrite !filter_append.
  fold (View.withoutSeparators sign) (View.withoutSeparators rest).
  fold (View.withoutSeparators
          (View.reversed (String.concat View.SEPARATOR
                            (View.matchGroups (View.reversed p1))))).
  destruct (digits_grouped _ Hd) as [Hg _].
  now rewrite Hg, (Hplain _ H1), (Hplain _ H3), <- Hs.
Qed.

(** X27: the replacer puts [(n - 1) / 3] separators into a run of [n]
    digits and nothing else: deleting them gives the digits back. *)
Theorem regexpReplacer_inserts_separators (sign p1 : string) (m : Model) :
  Str.forallb Str.isDigit p1 = true ->
  p1 <> EmptyString ->
  exists t,
    eval (View.regexpReplacer sign p1) m = Returned (sign ++ t)%string
    /\ View.withoutSeparators t = p1
    /\ String.length t = String.length p1 + (String.length p1 - 1) / 3.
Proof.
  intros H Hne. destruct m as [e c r log g]. unfold eval.
  rewrite (regexpReplacer_run _ _ _ _ _ _ _ H Hne). cbn [fst].
  eexists. split; [reflexivity|]. now apply digits_grouped.
Qed.

Lemma regexpReplacer_inserts_separators_witness :
  exists t,
    eval (View.regexpReplacer "-" "1234567") (started "")
    = Returned ("-" ++ t)%string
    /\ View.withoutSeparators t = "1234567"%string
    /\ String.length t = 7 + (7 - 1) / 3.
Proof.
  apply (regexpReplacer_inserts_separators "-" "1234567" (started ""));
    [reflexivity | discriminate].
Defined.

(** X28: [addSeparators] raises nothing: the replacer is only given runs
    of digits. *)
Theorem addSeparators_returns (s : string) (m : Model) :
  exists t, eval (View.addSeparators s) m = Returned t.
Proof. eexists. apply addSeparators_run. Qed.

(** X29: [addSeparators] only inserts separators: deleting them gives the
    component back, for a component that holds none and is either no
    wrapped negative or nothing but one. *)
Theorem addSeparators_round_trip (s : string) (m : Model) :
  Str.contains "," s = false ->
  (negativeGroup2 s = None
   \/ exists g, s = ("(-" ++ g ++ ")")%string
                /\ Str.forallb insideWrapper g = true) ->
  exists t, eval (View.addSeparators s) m = Returned t
            /\ View.withoutSeparators t = s.
Proof.
  unfold Str.contains. intros Hs Hw. rewrite addSeparators_run.
  eexists. split; [reflexivity|].
  destruct Hw as [Hn|[g [-> Hg]]].
  - rewrite Hn. now apply grouped_without.
  - rewrite (negativeGroup2_wrapped _ Hg).
    assert (Hgs : Str.existsb (Ascii.eqb ",") g = false).
    { cbn [append Str.existsb] in Hs. cbn in Hs.
      revert Hs. clear. induction g as [|x g IH]; [reflexivity|].
      cbn [append Str.existsb]. intros H. apply orb_false_iff in H.
      destruct H as [Hx H]. now rewrite Hx, (IH H). }
    unfold View.withoutSeparators. cbn [append Str.filter].
    cbn [Ascii.eqb Bool.eqb andb negb]. rewrite filter_append.
    fold (View.withoutSeparators (View.grouped g)).
    rewrite (grouped_without _ Hgs). reflexivity.
Qed.

Lemma addSeparators_round_trip_witness :
  exists t, eval (View.addSeparators "(-1234.5)") (started "") = Returned t
            /\ View.withoutSeparators t = "(-1234.5)"%string.
Proof.
  apply (addSeparators_round_trip "(-1234.5)" (started "")); [reflexivity|].
  right. exists "1234.5"%string. split; reflexivity.
Defined.


(** ** The text of [formatValue] *)

Lemma substring_prefix (a b : string) (n : nat) :
  substring 0 (String.length a + n) (a ++ b)%string
  = (a ++ substring 0 n b)%string.
Proof.
  induction a as [|c a IH]; [reflexivity|].
  cbn [String.length append plus substring]. now rewrite IH.
Qed.

Lemma substring_length_le (n : nat) (s : string) :
  String.length (substring 0 n s) <= n.
Proof.
  revert s. induction n as [|n IH]; intros s; [now destruct s|].
  destruct s as [|c s]; cbn [substring String.length]; [lia|].
  specialize (IH s). lia.
Qed.

Lemma substring_digits (n : nat) (s : string) :
  Str.forallb Str.isDigit s = true ->
  Str.forallb Str.isDigit (substring 0 n s) = true.
Proof.
  revert s. induction n as [|n IH]; intros s H; [now destruct s|].
  destruct s as [|c s]; [reflexivity|].
  cbn [substring Str.forallb] in *. apply andb_true_iff in H.
  destruct H as [Hc Hs]. now rewrite Hc, (IH _ Hs).
Qed.

Lemma digits_filter (s : string) :
  Str.forallb Str.isDigit s = true ->
  Str.filter Str.isDigit s = s
  /\ Str.filter (fun c => negb (Str.isDigit c)) s = EmptyString.
Proof.
  induction s as [|c s IH]; [now split|].
  cbn [Str.forallb Str.filter]. intros H. apply andb_true_iff in H.
  destruct H as [Hc Hs]. destruct (IH Hs) as [H1 H2].
  rewrite Hc. cbn [negb]. now rewrite H1, H2.
Qed.

Lemma substring_short (n : nat) (a b : string) :
  n <= String.length a -> substring 0 n (a ++ b)%string = substring 0 n a.
Proof.
  revert a. induction n as [|n IH]; intros a H.
  - now destruct a, b.
  - destruct a as [|c a]; cbn [String.length] in H; [lia|].
    cbn [append substring]. rewrite IH by lia. reflexivity.
Qed.

Lemma substring_exact (n : nat) (a : string) :
  n <= String.length a -> String.length (substring 0 n a) = n.
Proof.
  revert a. induction n as [|n IH]; intros a H; [now destruct a|].
  destruct a as [|c a]; cbn [String.length] in H; [lia|].
  cbn [substring String.length]. rewrite IH by lia. reflexivity.
Qed.

Lemma withoutTrailingZeros_digits (r : string) :
  Str.forallb Str.isDigit r = true ->
  Str.forallb Str.isDigit (withoutTrailingZeros r) = true.
Proof.
  induction r as [|c r IH]; [reflexivity|].
  cbn [Str.forallb withoutTrailingZeros]. intros H.
  apply andb_true_iff in H. destruct H as [Hc Hr]. specialize (IH Hr).
  destruct (withoutTrailingZeros r) as [|d t].
  - destruct (Ascii.eqb c "0"); [reflexivity|].
    cbn [Str.forallb]. now rewrite Hc.
  - cbn [Str.forallb] in *. now rewrite Hc, IH.
Qed.

Lemma withoutTrailingZeros_length (r : string) :
  String.length (withoutTrailingZeros r) <= String.length r.
Proof.
  induction r as [|c r IH]; [reflexivity|].
  cbn [withoutTrailingZeros String.length].
  destruct (withoutTrailingZeros r) as [|d t].
  - destruct (Ascii.eqb c "0"); cbn [String.length]; lia.
  - cbn [String.length] in *. lia.
Qed.

Lemma withoutTrailingZeros_id (r : string) :
  Str.endsWith "0" r = false -> withoutTrailingZeros r = r.
Proof.
  unfold Str.endsWith. induction r as [|c r IH]; [reflexivity|].
  destruct r as [|d r].
  - cbn [Str.lastChar withoutTrailingZeros]. intros H.
    destruct (Ascii.eqb_spec c "0") as [->|_]; [discriminate H|reflexivity].
  - intros H. change (Str.lastChar (String c (String d r)))
      with (Str.lastChar (String d r)) in H.
    specialize (IH H). cbn [withoutTrailingZeros] in *. rewrite IH.
    reflexivity.
Qed.

Lemma stripFraction_no_point (s : string) :
  Str.contains "." s = false -> stripFraction s = s.
Proof.
  unfold Str.contains. induction s as [|c s IH]; [reflexivity|].
  cbn [Str.existsb stripFraction]. intros H. apply orb_false_iff in H.
  destruct H as [Hc Hs]. rewrite Ascii.eqb_sym, Hc. cbn [andb].
  now rewrite (IH Hs).
Qed.

Lemma stripFraction_at_point (p f : string) :
  Str.contains "." p = false ->
  Str.forallb Str.isDigit f = true ->
  stripFraction (p ++ String "." f)%string
  = (p ++ String "." (withoutTrailingZeros f))%string.
Proof.
  intros Hp Hf. induction p as [|c p IH].
  - cbn [append stripFraction]. rewrite Hf.
    change (Ascii.eqb "." ".") with true. cbn [andb].
    destruct (Str.endsWith "0" f) eqn:He; [reflexivity|].
    rewrite (withoutTrailingZeros_id _ He).
    now rewrite (stripFraction_no_point _ (digits_no_point _ Hf)).
  - unfold Str.contains in Hp. cbn [Str.existsb] in Hp.
    apply orb_false_iff in Hp. destruct Hp as [Hc Hp].
    cbn [append stripFraction]. rewrite Ascii.eqb_sym, Hc. cbn [andb].
    now rewrite (IH Hp).
Qed.

Lemma lastChar_digits (x d : string) :
  Str.forallb Str.isDigit d = true -> d <> EmptyString ->
  Str.endsWith "." (x ++ d)%string = false.
Proof.
  intros Hd Hne. destruct (snoc_cases d) as [->|[d' [c ->]]]; [contradiction|].
  rewrite forallb_snoc in Hd. apply andb_true_iff in Hd. destruct Hd as [_ Hc].
  unfold Str.endsWith. rewrite <- append_assoc, lastChar_snoc.
  destruct c as [[] [] [] [] [] [] [] []]; try discriminate Hc; reflexivity.
Qed.

Lemma nonDigitCount_fixed (sign int frac : string) :
  isSign sign = true ->
  Str.forallb Str.isDigit int = true ->
  Str.forallb Str.isDigit frac = true ->
  nonDigitCount (sign ++ int ++ String "." frac)%string
  = String.length sign + 1.
Proof.
  intros Hs Hi Hf. unfold nonDigitCount.
  rewrite !filter_append. cbn [Str.filter].
  change (negb (Str.isDigit ".")) with true. cbv iota.
  destruct (digits_filter _ Hi) as [_ ->].
  destruct (digits_filter _ Hf) as [_ ->].
  unfold isSign in Hs. apply orb_true_iff in Hs.
  destruct Hs as [Hs|Hs]; apply String.eqb_eq in Hs; subst sign; reflexivity.
Qed.

Lemma digitCount_digits (s : string) :
  Str.forallb Str.isDigit s = true -> digitCount s = String.length s.
Proof.
  intros H. unfold digitCount. now destruct (digits_filter _ H) as [-> _].
Qed.

Lemma digitCount_sign (sign : string) :
  isSign sign = true -> digitCount sign = 0 /\ Str.contains "." sign = false.
Proof.
  unfold isSign. intros Hs. apply orb_true_iff in Hs.
  destruct Hs as [Hs|Hs]; apply String.eqb_eq in Hs; subst sign; now split.
Qed.

(** X25: for a value with at most nine integer digits, [formatValue] shows
    the integer part and as many digits of the fraction as the budget of
    nine leaves, trailing zeros dropped, and so never more than nine
    digits. *)
Theorem truncated_fixed (sign int frac : string) :
  isSign sign = true ->
  Str.forallb Str.isDigit int = true ->
  Str.forallb Str.isDigit frac = true ->
  String.length int <= MAX_DIGITS ->
  truncated (sign ++ int ++ String "." frac)%string
  = (sign ++ int
     ++ fractionText
          (withoutTrailingZeros
             (substring 0 (MAX_DIGITS - String.length int) frac)))%string
  /\ digitCount (truncated (sign ++ int ++ String "." frac)%string)
     <= MAX_DIGITS.
Proof.
  intros Hs Hi Hf Hlen.
  set (f := substring 0 (MAX_DIGITS - String.length int) frac).
  assert (Hfd : Str.forallb Str.isDigit f = true)
    by now apply substring_digits.
  assert (Hwd := withoutTrailingZeros_digits _ Hfd).
  assert (Hcut : Str.substr 0
                   (MAX_DIGITS
                    + nonDigitCount (sign ++ int ++ String "." frac)%string)
                   (sign ++ int ++ String "." frac)%string
                 = ((sign ++ int) ++ String "." f)%string).
  { rewrite (nonDigitCount_fixed _ _ _ Hs Hi Hf). unfold Str.substr.
    replace (MAX_DIGITS + (String.length sign + 1))
      with (String.length sign
            + (String.length int + S (MAX_DIGITS - String.length int)))
      by lia.
    rewrite !substring_prefix. cbn [substring]. fold f.
    now rewrite append_assoc. }
  destruct (digitCount_sign _ Hs) as [Hs0 Hsp].
  assert (Hnp : Str.contains "." (sign ++ int)%string = false).
  { rewrite contains_append, Hsp. now rewrite (digits_no_point _ Hi). }
  assert (Heq : truncated (sign ++ int ++ String "." frac)%string
                = (sign ++ int ++ fractionText (withoutTrailingZeros f))%string).
  { unfold truncated. rewrite Hcut, (stripFraction_at_point _ _ Hnp Hfd).
    unfold stripPoint, fractionText.
    destruct (withoutTrailingZeros f) as [|d t] eqn:Ew; cbn [Str.isEmpty].
    - change ((sign ++ int) ++ ".")%string
        with ((sign ++ int) ++ String "." EmptyString)%string.
      unfold Str.endsWith. rewrite lastChar_snoc, dropLast_snoc.
      cbn [String.eqb Ascii.eqb Bool.eqb andb].
      now rewrite append_empty.
    - change ((sign ++ int) ++ String "." (String d t))%string
        with ((sign ++ int) ++ String "." EmptyString ++ String d t)%string.
      rewrite <- append_assoc.
      rewrite (lastChar_digits _ _ Hwd) by discriminate.
      now rewrite !append_assoc. }
  split; [exact Heq|]. rewrite Heq, !digitCount_append, Hs0.
  rewrite (digitCount_digits _ Hi).
  assert (Hfr : digitCount (fractionText (withoutTrailingZeros f))
                <= MAX_DIGITS - String.length int).
  { unfold fractionText.
    pose proof (withoutTrailingZeros_length f) as H1.
    pose proof (substring_length_le (MAX_DIGITS - String.length int) frac) as H2.
    fold f in H2.
    destruct (withoutTrailingZeros f) as [|d t] eqn:Ew; cbn [Str.isEmpty].
    - cbn. lia.
    - change (String "." (String d t)) with ("." ++ String d t)%string.
      rewrite digitCount_append. change (digitCount ".") with 0.
      try rewrite Ew in Hwd. rewrite (digitCount_digits _ Hwd). lia. }
  lia.
Qed.

Lemma truncated_fixed_witness :
  truncated "-12.500000000"
  = ("-" ++ "12"
     ++ fractionText
          (withoutTrailingZeros
             (substring 0 (MAX_DIGITS - String.length "12") "500000000")))%string
  /\ digitCount (truncated "-12.500000000") <= MAX_DIGITS.
Proof.
  apply (truncated_fixed "-" "12" "500000000"); try reflexivity.
  vm_compute. lia.
Defined.

(** X26: with more than nine integer digits the text is the sign and the
    first ten digits: one more than the budget. *)
Theorem truncated_ten_digits (sign int frac : string) :
  isSign sign = true ->
  Str.forallb Str.isDigit int = true ->
  Str.forallb Str.isDigit frac = true ->
  MAX_DIGITS < String.length int ->
  truncated (sign ++ int ++ String "." frac)%string
  = (sign ++ substring 0 (MAX_DIGITS + 1) int)%string
  /\ digitCount (truncated (sign ++ int ++ String "." frac)%string)
     = MAX_DIGITS + 1.
Proof.
  intros Hs Hi Hf Hlen.
  set (i := substring 0 (MAX_DIGITS + 1) int).
  assert (Hid : Str.forallb Str.isDigit i = true) by now apply substring_digits.
  assert (Hil : String.length i = MAX_DIGITS + 1)
    by (apply substring_exact; lia).
  assert (Hcut : Str.substr 0
                   (MAX_DIGITS
                    + nonDigitCount (sign ++ int ++ String "." frac)%string)
                   (sign ++ int ++ String "." frac)%string
                 = (sign ++ i)%string).
  { rewrite (nonDigitCount_fixed _ _ _ Hs Hi Hf). unfold Str.substr.
    replace (MAX_DIGITS + (String.length sign + 1))
      with (String.length sign + (MAX_DIGITS + 1)) by lia.
    rewrite substring_prefix, substring_short by lia. reflexivity. }
  destruct (digitCount_sign _ Hs) as [Hs0 Hsp].
  assert (Heq : truncated (sign ++ int ++ String "." frac)%string
                = (sign ++ i)%string).
  { unfold truncated. rewrite Hcut, stripFraction_no_point.
    - unfold stripPoint. rewrite (lastChar_digits _ _ Hid); [reflexivity|].
      intros E. rewrite E in Hil. cbn in Hil. lia.
    - rewrite contains_append, Hsp. now rewrite (digits_no_point _ Hid). }
  split; [exact Heq|].
  now rewrite Heq, digitCount_append, Hs0, (digitCount_digits _ Hid).
Qed.

Lemma truncated_ten_digits_witness :
  truncated "1234567890.500000000"
  = ("" ++ substring 0 (MAX_DIGITS + 1) "1234567890")%string
  /\ digitCount (truncated "1234567890.500000000") = MAX_DIGITS + 1.
Proof.
  apply (truncated_ten_digits "" "1234567890" "500000000"); try reflexivity.
  vm_compute. lia.
Defined.


Lemma roundsMantissa_unsigned_witness :
  roundsMantissa "123456789.95"
  = (MAX_DIGITS <=? String.length "123456789")%nat && fractionRoundsUp "95".
Proof. apply (roundsMantissa_unsigned "123456789" "95"). reflexivity. Defined.

Lemma roundsMantissa_negative_witness :
  roundsMantissa "-12345678.95"
  = (8 <=? String.length "12345678")%nat && fractionRoundsUp "95".
Proof. apply (roundsMantissa_negative "12345678" "95"). reflexivity. Defined.

(** ** Undo after one key *)

Lemma trimLog_keeps_one (l : list (list token)) (a : list token) :
  exists l', trimLog (l ++ [a]) = l' ++ [a].
Proof.
  unfold trimLog, Arr.sliceFrom.
  destruct (Nat.ltb_spec 300 (length (l ++ [a]))) as [H|H]; [|now exists l].
  rewrite length_app in H. cbn [length] in H.
  exists (skipn 100 l). rewrite skipn_app.
  now replace (100 - length l) with 0 by lia.
Qed.

Lemma quiet_base (l : list (list token)) (e0 : list token) :
  quiet e0 (l ++ [e0]).
Proof. now exists l. Qed.

Lemma quiet_recorded (e0 : list token) (log : list (list token)) :
  quiet e0 log -> quiet e0 (recorded log e0).
Proof.
  intros [l ->]. unfold recorded, quiet.
  rewrite fromEnd_1_snoc, arraysEqual_refl. cbn [negb].
  apply trimLog_keeps_one.
Qed.

Lemma trail_quiet (e0 e' : list token) (log : list (list token)) :
  quiet e0 log -> trail e0 e' log.
Proof. now left. Qed.

Lemma trail_recorded_quiet (e0 e' : list token) (log : list (list token)) :
  quiet e0 log -> trail e0 e' (recorded log e').
Proof.
  intros [l ->]. unfold recorded, trail, quiet. rewrite fromEnd_1_snoc.
  destruct (arraysEqual (Some e0) e') eqn:He; cbn [negb].
  - apply arraysEqual_eq in He. subst e'. left. apply trimLog_keeps_one.
  - right. unfold Arr.push. apply trimLog_keeps_two.
Qed.

Lemma trail_recorded (e0 e' : list token) (log : list (list token)) :
  trail e0 e' log -> trail e0 e' (recorded log e').
Proof.
  intros [Hq|[l ->]]; [now apply trail_recorded_quiet|].
  right. unfold recorded. rewrite fromEnd_1_snoc, arraysEqual_refl.
  cbn [negb]. apply trimLog_keeps_two.
Qed.

Lemma undo_trail (e0 e' : list token) (c : bool) (r : string)
  (log : list (list token)) (g : string) :
  trail e0 e' log -> e' <> e0 ->
  equation (exec undo (mkModel e' c r log g)) = e0.
Proof.
  intros [[l ->]|[l ->]] Hne.
  - unfold exec, undo. rewrite run_bind. cbn [get fst snd undoLog].
    rewrite snoc_nonempty. cbv iota. rewrite run_bind, popInto_snoc.
    cbn [fst snd]. rewrite run_bind. cbn [get fst snd equation undoLog].
    replace (arraysEqual (Some e') e0) with false; [reflexivity|].
    symmetry. destruct (arraysEqual (Some e') e0) eqn:He; [|reflexivity].
    apply arraysEqual_eq in He. contradiction.
  - now apply undo_two_snapshots with (l := l).
Qed.

Create HintDb trail.

#[local] Hint Resolve quiet_base quiet_recorded trail_quiet
  trail_recorded_quiet trail_recorded : trail.

Ltac trailing :=
  unfold trailed; cbn [equation undoLog snd]; solve [eauto 6 with trail].

Lemma trailed_resetEquation (e0 : list token) (c : bool) (r : string)
  (l0 : list (list token)) (g : string) :
  trailed e0 (snd (resetEquation (mkModel e0 c r (l0 ++ [e0]) g))).
Proof.
  change (snd (resetEquation (mkModel e0 c r (l0 ++ [e0]) g)))
    with (mkModel [] false r (recorded (l0 ++ [e0]) []) g).
  trailing.
Qed.

Lemma trailed_addComponent (v : token) (e0 : list token) (c : bool)
  (r : string) (l0 : list (list token)) (g : string) :
  trailed e0 (snd (addComponent v (mkModel e0 c r (l0 ++ [e0]) g))).
Proof. rewrite addComponent_run. trailing. Qed.

Lemma trailed_addBracket (e0 : list token) (c : bool) (r : string)
  (l0 : list (list token)) (g : string) :
  bracketing e0 <> MultipliesAndOpens ->
  trailed e0 (snd (addBracket (mkModel e0 c r (l0 ++ [e0]) g))).
Proof.
  unfold addBracket, bracketing.
  rewrite run_bind, getLastComponent_peek. cbn [fst snd].
  rewrite run_bind, countComponent_run. cbn [fst snd].
  rewrite run_bind, countFunctions_run. cbn [fst snd].
  rewrite run_bind, countComponent_run. cbn [fst snd].
  rewrite run_bind, isEmpty_run. cbn [fst snd].
  fold (countOpened e0) (countClosed e0).
  rewrite run_bind.
  destruct (length e0 =? 0)%nat.
  { intros _. cbn [ret fst snd]. unfold BRACKET_OPEN. cbn [addComponents].
    rewrite run_bind, addComponent_run. cbn [ret snd]. trailing. }
  destruct (isBracket _).
  { intros _. destruct (isStr _ _ && _); cbn [ret fst snd];
      unfold BRACKET_OPEN, BRACKET_CLOSE; cbn [addComponents];
      rewrite run_bind, addComponent_run; cbn [ret snd]; trailing. }
  rewrite run_bind, isNumeric_run. cbn [fst snd].
  destruct (matchesNumeric _ && _); [intros H; now elim H|].
  destruct (isOperator _).
  { intros _. cbn [ret fst snd]. unfold BRACKET_OPEN. cbn [addComponents].
    rewrite run_bind, addComponent_run. cbn [ret snd]. trailing. }
  intros _. destruct (negb _ && negb _ && _); cbn [ret fst snd];
    unfold BRACKET_OPEN, BRACKET_CLOSE; cbn [addComponents];
    rewrite run_bind, addComponent_run; cbn [ret snd]; trailing.
Qed.

(** The last component, when it is truthy, is the last token. *)
Lemma truthy_last (pre : list token) (x : token) :
  orNull (Arr.fromEnd 1 (pre ++ [x])) = if truthy x then x else None.
Proof. now rewrite fromEnd_1_snoc. Qed.

Lemma trailed_addDecimal (e0 : list token) (c : bool) (r : string)
  (l0 : list (list token)) (g : string) :
  Str.startsWith "-d" (toStr (orNull (Arr.fromEnd 1 e0))) = false ->
  isFunction (orNull (Arr.fromEnd 1 e0)) = false ->
  trailed e0 (snd (addDecimal (mkModel e0 c r (l0 ++ [e0]) g))).
Proof.
  destruct (nil_or_snoc _ e0) as [->|[pre [x ->]]].
  { intros _ _. change (snd (addDecimal (mkModel [] c r (l0 ++ [[]]) g)))
      with (snd (addComponent (Some ("0" ++ DECIMAL)%string)
                   (mkModel [] c r (l0 ++ [[]]) g))).
    apply trailed_addComponent. }
  rewrite truthy_last. intros Hd Hf.
  unfold addDecimal. rewrite run_bind, getLastComponent_snoc. cbn [fst snd].
  destruct (truthy x) eqn:Ht.
  - destruct x as [s|]; [|discriminate Ht]. cbn [toStr] in Hd.
    rewrite !Ht, Hf. cbn [negb orb].
    destruct (isOperator (Some s) || isModifier (Some s)).
    + apply trailed_addComponent.
    + rewrite run_bind, (checkNegativeFormat_plain _ _ Hd). cbn [fst snd].
      rewrite run_bind, replaceLastComponent_snoc. cbn [fst snd toStr].
      destruct (Str.contains "." s); cbn [negb].
      * cbn [ret snd]. trailing.
      * rewrite run_bind, isNegativeComponent_run. cbn [fst snd].
        rewrite run_bind. cbn [get fst snd regExp2].
        rewrite replaceLastComponent_snoc. trailing.
  - replace (truthy None) with false by reflexivity. cbn [negb orb].
    apply trailed_addComponent.
Qed.

Lemma popEquation_run (pre : list token) (x : token) (c : bool) (r : string)
  (log : list (list token)) (g : string) :
  popEquation (mkModel (pre ++ [x]) c r log g) = (tt, mkModel pre c r log g).
Proof.
  unfold popEquation, modify. cbn [equation setEquation calculated
    lastCalculationResult undoLog regExp2]. now rewrite pop_snoc.
Qed.

Lemma updateUndoLog_run (e : list token) (c : bool) (r : string)
  (log : list (list token)) (g : string) :
  updateUndoLog (mkModel e c r log g) = (tt, mkModel e c r (recorded log e) g).
Proof. reflexivity. Qed.

Lemma trailed_deleteLast (e0 : list token) (c : bool) (r : string)
  (l0 : list (list token)) (g : string) :
  Str.startsWith "-d" (toStr (orNull (Arr.fromEnd 1 e0))) = false ->
  trailed e0 (snd (deleteLast (mkModel e0 c r (l0 ++ [e0]) g))).
Proof.
  destruct (nil_or_snoc _ e0) as [->|[pre [x ->]]].
  { intros _. unfold deleteLast. rewrite run_bind, getLastComponent_nil.
    cbn [fst snd truthy negb ret]. trailing. }
  rewrite truthy_last. intros Hd.
  unfold deleteLast. rewrite run_bind, getLastComponent_snoc. cbn [fst snd].
  destruct (truthy x) eqn:Ht.
  2:{ replace (truthy None) with false by reflexivity. cbn [negb ret snd].
      trailing. }
  destruct x as [s|]; [|discriminate Ht]. cbn [toStr] in Hd.
  rewrite Ht. cbn [negb].
  rewrite run_bind, (checkNegativeFormat_plain _ _ Hd). cbn [fst snd].
  rewrite run_bind, replaceLastComponent_snoc. cbn [fst snd].
  rewrite run_bind. rewrite run_bind, isNegativeComponent_run. cbn [fst snd].
  destruct (negativeGroup2 s) as [n|].
  - rewrite run_bind. cbn [get fst snd regExp2].
    destruct (String.length n =? 1)%nat.
    + rewrite popEquation_run. cbn [snd]. rewrite updateUndoLog_run. trailing.
    + rewrite run_bind, removeLastChar_run. cbn [fst snd].
      rewrite replaceLastComponent_snoc. cbn [snd].
      rewrite updateUndoLog_run. trailing.
  - cbn [toStr].
    destruct (String.length s =? 1)%nat.
    { rewrite popEquation_run. cbn [snd]. rewrite updateUndoLog_run. trailing. }
    destruct (isMinusDigit s).
    { rewrite run_bind. cbn [modify fst snd]. rewrite matched_run.
      rewrite popEquation_run. cbn [snd]. rewrite updateUndoLog_run. trailing. }
    destruct (isFunction (Some s) || isModifier (Some s)).
    { rewrite popEquation_run. cbn [snd]. rewrite updateUndoLog_run. trailing. }
    rewrite run_bind, removeLastChar_run. cbn [fst snd].
    rewrite replaceLastComponent_snoc. cbn [snd].
    rewrite updateUndoLog_run. trailing.
Qed.

Lemma trailed_changeSign (e0 : list token) (r : string)
  (l0 : list (list token)) (g : string) :
  trailed e0 (snd (changeSign (mkModel e0 false r (l0 ++ [e0]) g))).
Proof.
  unfold changeSign. rewrite run_bind, restart_idle. cbn [fst snd].
  destruct (nil_or_snoc _ e0) as [->|[pre [x ->]]].
  { rewrite run_bind, getLastComponent_nil. cbn [fst snd truthy andb ret]. trailing. }
  rewrite run_bind, getLastComponent_snoc. cbn [fst snd].
  destruct (truthy x) eqn:Ht.
  2:{ replace (truthy None) with false by reflexivity. cbn [andb ret snd].
      trailing. }
  destruct x as [s|]; [|discriminate Ht]. rewrite Ht. cbn [andb].
  destruct (negb (isOperator (Some s)) && negb (isStr (Some s) "0"));
    [|cbn [ret snd]; trailing].
  rewrite run_bind. cbn [modify fst snd toStr]. rewrite matched_run.
  rewrite run_bind, isNegativeComponent_run. cbn [fst snd].
  rewrite run_bind. cbn [get fst snd regExp2].
  rewrite run_bind, replaceLastComponent_snoc. cbn [fst snd ret]. trailing.
Qed.

Lemma trailed_addDigit (digit : string) (e0 : list token) (r : string)
  (l0 : list (list token)) (g : string) :
  Str.startsWith "-d" (toStr (orNull (Arr.fromEnd 1 e0))) = false ->
  trailed e0 (snd (addDigit digit (mkModel e0 false r (l0 ++ [e0]) g))).
Proof.
  destruct (nil_or_snoc _ e0) as [->|[pre [x ->]]].
  { intros _. rewrite addDigit_on_empty. trailing. }
  rewrite truthy_last. intros Hd.
  destruct (startsNewComponent (if truthy x then x else None)
              (length (pre ++ [x]))) eqn:Hnew.
  { rewrite (addDigit_new _ _ _ _ _ _ Hnew). trailing. }
  destruct (truthy x) eqn:Ht; [|discriminate Hnew].
  destruct x as [s|]; [|discriminate Ht]. cbn [toStr] in Hd.
  unfold addDigit.
  rewrite run_bind, restart_idle. cbn [fst snd].
  rewrite run_bind, getLastComponent_snoc, Ht. cbn [fst snd].
  rewrite run_bind. cbn [get fst snd equation].
  unfold startsNewComponent in Hnew. rewrite Hnew.
  rewrite run_bind, (checkNegativeFormat_plain _ _ Hd). cbn [fst snd].
  rewrite run_bind, replaceLastComponent_snoc. cbn [fst snd].
  rewrite run_bind, isNegativeComponent_run. cbn [fst snd].
  rewrite run_bind. cbn [get fst snd regExp2].
  rewrite run_bind, countDigits_run. cbn [fst snd].
  destruct (digitCount _ <=? MAX_DIGITS)%nat.
  - rewrite run_bind, replaceLastComponent_snoc. cbn [fst snd ret]. trailing.
  - rewrite run_bind, updateUndoLog_run. cbn [fst snd ret]. trailing.
Qed.

Lemma stripDecimal_id (x : token) : dangling x = false -> stripDecimal x = x.
Proof. intros H. unfold stripDecimal. now rewrite H. Qed.

Lemma getPenultimateComponent_log (e : list token) (c : bool) (r : string)
  (log : list (list token)) (g : string) :
  exists pen e', getPenultimateComponent true (mkModel e c r log g)
                 = (pen, mkModel e' c r log g)
    /\ (forall pre x, e = pre ++ [x] -> exists y, e' = pre ++ [y])
    /\ (e = [] -> e' = []).
Proof.
  destruct (nil_or_snoc _ e) as [->|[pre [x ->]]].
  { exists None, []. split; [reflexivity|]. split; [|reflexivity].
    intros pre x H. now destruct pre. }
  destruct (nil_or_snoc _ pre) as [->|[pre' [p ->]]].
  - exists None, [x]. split; [reflexivity|]. split.
    + intros pre0 x0 H. apply app_inj_tail in H. destruct H as [<- <-].
      now exists x.
    + discriminate.
  - rewrite getPenultimateComponent_snoc. eexists _, _.
    split; [reflexivity|]. split.
    + intros pre0 x0 H. apply app_inj_tail in H. destruct H as [<- <-].
      eexists. reflexivity.
    + intros H. now destruct pre'.
Qed.

Lemma trailed_addOperator (operator : string) (e0 : list token) (r : string)
  (l0 : list (list token)) (g : string) :
  Str.startsWith "-d" (toStr (orNull (Arr.fromEnd 1 e0))) = false ->
  dangling (orNull (Arr.fromEnd 1 e0)) = false ->
  truthy (orNull (Arr.fromEnd 1 e0)) || (length e0 =? 0)%nat = true ->
  trailed e0 (snd (addOperator operator (mkModel e0 false r (l0 ++ [e0]) g))).
Proof.
  unfold addOperator. rewrite run_bind, restart_idle. cbn [fst snd].
  destruct (nil_or_snoc _ e0) as [->|[pre [x ->]]].
  { intros _ _ _. rewrite run_bind, getLastComponent_nil. cbn [fst snd].
    rewrite run_bind.
    change (getPenultimateComponent true (mkModel [] false r (l0 ++ [[]]) g))
      with (@None string, mkModel [] false r (l0 ++ [[]]) g).
    cbn [fst snd]. rewrite run_bind. cbn [get fst snd].
    destruct (String.eqb operator "-"); cbn [truthy negb andb ret snd];
      [|trailing].
    change (isStr None "-") with false. cbn [andb].
    rewrite run_bind. cbn [checkNegativeFormat ret fst snd].
    rewrite run_bind.
    change (replaceLastComponent None (mkModel [] false r (l0 ++ [[]]) g))
      with (tt, mkModel [] false r (recorded (l0 ++ [[]]) []) g).
    cbn [fst snd]. change (isOperator None) with false.
    change (isFunction None) with false. cbn [truthy andb].
    rewrite addComponent_run. trailing. }
  rewrite truthy_last, length_app. cbn [length].
  replace (length pre + 1 =? 0)%nat with false
    by (symmetry; apply Nat.eqb_neq; lia).
  rewrite orb_false_r.
  destruct (truthy x) eqn:Ht; [|discriminate 3].
  destruct x as [s|]; [|discriminate Ht]. cbn [toStr].
  intros Hd Hg _. rewrite run_bind, getLastComponent_snoc, Ht.
  rewrite (stripDecimal_id _ Hg). cbn [fst snd].
  rewrite run_bind.
  destruct (getPenultimateComponent_log (pre ++ [Some s]) false r
              (l0 ++ [pre ++ [Some s]]) g) as [pen [e' [Hp [Hshape _]]]].
  rewrite Hp. cbn [fst snd].
  destruct (Hshape pre (Some s) eq_refl) as [y ->].
  rewrite run_bind. cbn [get fst snd]. rewrite Ht. cbn [negb andb].
  destruct (isStr (Some s) "-" && _); [cbn [ret snd]; trailing|].
  destruct (isStr (Some s) "-" && _); [cbn [ret snd]; trailing|].
  rewrite run_bind, (checkNegativeFormat_plain _ _ Hd). cbn [fst snd].
  rewrite run_bind, replaceLastComponent_snoc. cbn [fst snd].
  destruct (isOperator (Some s)).
  { rewrite replaceLastComponent_snoc. trailing. }
  destruct (isFunction (Some s)).
  { destruct (String.eqb operator "-"); [rewrite addComponent_run|cbn [ret snd]];
      trailing. }
  cbn [toStr].
  destruct (endsInE s).
  { rewrite run_bind. cbn [modify fst snd]. rewrite matched_run.
    destruct (String.eqb operator "-");
      [rewrite replaceLastComponent_snoc|cbn [ret snd]]; trailing. }
  rewrite addComponent_run. trailing.
Qed.

Lemma trailed_addModifier (modifier : string) (e0 : list token) (r : string)
  (l0 : list (list token)) (g : string) :
  Str.startsWith "-d" (toStr (orNull (Arr.fromEnd 1 e0))) = false ->
  dangling (orNull (Arr.fromEnd 1 e0)) = false ->
  trailed e0 (snd (addModifier modifier (mkModel e0 false r (l0 ++ [e0]) g))).
Proof.
  unfold addModifier. rewrite run_bind, restart_idle. cbn [fst snd].
  destruct (nil_or_snoc _ e0) as [->|[pre [x ->]]].
  { intros _ _. rewrite run_bind, getLastComponent_nil. cbn [fst snd].
    rewrite run_bind.
    change (getPenultimateComponent true (mkModel [] false r (l0 ++ [[]]) g))
      with (@None string, mkModel [] false r (l0 ++ [[]]) g).
    cbn [fst snd truthy negb ret]. trailing. }
  rewrite truthy_last. intros Hd Hg.
  rewrite run_bind, getLastComponent_snoc. cbn [fst snd].
  rewrite run_bind.
  destruct (getPenultimateComponent_log (pre ++ [stripDecimal x]) false r
              (l0 ++ [pre ++ [x]]) g) as [pen [e' [Hp [Hshape _]]]].
  rewrite Hp. cbn [fst snd].
  destruct (Hshape pre (stripDecimal x) eq_refl) as [y ->].
  destruct (truthy x) eqn:Ht.
  2:{ replace (truthy None) with false by reflexivity. cbn [negb ret snd].
      trailing. }
  destruct x as [s|]; [|discriminate Ht]. cbn [toStr] in Hd.
  rewrite (stripDecimal_id _ Hg), Ht. cbn [negb].
  rewrite run_bind, isNumeric_run. cbn [fst snd].
  destruct (matchesNumeric (toStr (Some s)) || isModifier (Some s)
            || isCloseBracket (Some s)); [|cbn [ret snd]; trailing].
  rewrite run_bind, (checkNegativeFormat_plain _ _ Hd). cbn [fst snd].
  rewrite run_bind, replaceLastComponent_snoc. cbn [fst snd toStr].
  destruct (endsInE s).
  - cbn [modify snd]. rewrite matched_run. trailing.
  - rewrite addComponent_run. trailing.
Qed.

Lemma trailed_addFunction (func : string) (e0 : list token) (r : string)
  (l0 : list (list token)) (g : string) :
  dangling (orNull (Arr.fromEnd 1 e0)) = false ->
  negb (truthy (orNull (Arr.fromEnd 1 e0)))
  || isOperator (orNull (Arr.fromEnd 1 e0))
  || isOpenBracket (orNull (Arr.fromEnd 1 e0))
  || isFunction (orNull (Arr.fromEnd 1 e0)) = true ->
  trailed e0 (snd (addFunction func (mkModel e0 false r (l0 ++ [e0]) g))).
Proof.
  unfold addFunction. rewrite run_bind, restart_idle. cbn [fst snd].
  destruct (nil_or_snoc _ e0) as [->|[pre [x ->]]].
  { intros _ _. rewrite run_bind, getLastComponent_nil. cbn [fst snd].
    cbn [truthy negb orb]. rewrite addComponent_run. trailing. }
  rewrite truthy_last. intros Hg Hn.
  rewrite run_bind, getLastComponent_snoc. cbn [fst snd].
  destruct (truthy x) eqn:Ht.
  - rewrite (stripDecimal_id _ Hg), Hn. rewrite addComponent_run. trailing.
  - rewrite Hn. rewrite addComponent_run. trailing.
Qed.

(** A key that records at most one change leaves the log with the old top,
    or with the new equation right over it. *)
Lemma trailed_press (k : Key) (e0 : list token) (c : bool) (r : string)
  (l0 : list (list token)) (g : string) :
  singleRecord k (mkModel e0 c r (l0 ++ [e0]) g) = true ->
  trailed e0 (exec (press k) (mkModel e0 c r (l0 ++ [e0]) g)).
Proof.
  unfold singleRecord, exec. cbn [equation calculated].
  destruct k; cbn [press]; intros H;
    repeat match type of H with
    | _ && _ = true => apply andb_true_iff in H; destruct H as [H ?]
    end;
    repeat match goal with
    | Hn : negb _ = true |- _ => apply negb_true_iff in Hn
    end; try subst c.
  - rewrite run_bind. cbn [ret snd]. now apply trailed_addDigit.
  - now apply trailed_addOperator.
  - now apply trailed_addModifier.
  - now apply trailed_addFunction.
  - now apply trailed_addDecimal.
  - now apply trailed_deleteLast.
  - rewrite run_bind. cbn [ret snd]. apply trailed_changeSign.
  - apply trailed_addBracket. intros E. rewrite E in H. discriminate H.
  - apply trailed_resetEquation.
  - discriminate H.
Qed.

(** C1 (amended): in a state whose log top is the current equation, [undo]
    right after a key that changes the equation and records at most one
    change restores the equation the key started from.  The keys that
    record at most one change are listed by [singleRecord]: the clear and
    the delete key; the bracket key unless it multiplies; the decimal key
    unless it follows a function; and, with the calculated flag clear, the
    sign and the digit keys, the operator and modifier keys on a last
    component without dangling decimal point, and the function key where it
    needs no multiplication sign. *)
Theorem undo_after_single_record (k : Key) (m : Model) :
  inSync m ->
  singleRecord k m = true ->
  equation (exec (press k) m) <> equation m ->
  equation (exec undo (exec (press k) m)) = equation m.
Proof.
  destruct m as [e c r log g]. unfold inSync. cbn [equation undoLog].
  intros Hs Hk Hne. destruct (fromEnd_1_some_inv _ _ _ Hs) as [l0 ->].
  pose proof (trailed_press k e c r l0 g Hk) as Ht.
  destruct (exec (press k) (mkModel e c r (l0 ++ [e]) g))
    as [e' c' r' log' g'].
  unfold trailed in Ht. cbn [equation undoLog] in Ht, Hne.
  now apply undo_trail.
Qed.

Lemma undo_after_single_record_witness :
  equation (exec undo (exec (press (KOperator "*"))
                         (after [KDigit "1"; KOperator "+"; KDigit "2"])))
  = equation (after [KDigit "1"; KOperator "+"; KDigit "2"]).
Proof.
  apply (undo_after_single_record (KOperator "*")
           (after [KDigit "1"; KOperator "+"; KDigit "2"]));
    [vm_compute; reflexivity | vm_compute; reflexivity
    | vm_compute; discriminate].
Defined.

(** The conditions of the amended claim are needed.  With the calculated
    flag set a digit first clears the equation, which is recorded; an
    operator first records the last component without its dangling point;
    a function after an operand is preceded by a multiplication sign with
    a snapshot of its own, and so is the zero of a decimal point after a
    function. *)
Lemma undo_after_result_example :
  equation (mkModel [Some "5"; Some "+"; Some "3"] true "8"
              [[Some "5"; Some "+"; Some "3"]] "")
  = [Some "5"; Some "+"; Some "3"]
  /\ equation (exec undo (exec (press (KDigit "7"))
                 (mkModel [Some "5"; Some "+"; Some "3"] true "8"
                    [[Some "5"; Some "+"; Some "3"]] "")))
     = [].
Proof. split; reflexivity. Qed.

Lemma undo_after_dangling_point_example :
  equation (after [KDigit "1"; KDecimal]) = [Some "1."]
  /\ equation (after [KDigit "1"; KDecimal; KOperator "+"; KUndo])
     = [Some "1"].
Proof. split; reflexivity. Qed.

Lemma undo_after_function_example :
  equation (after [KDigit "2"; KFunction "sqrt("; KUndo])
  = [Some "2"; Some "*"]
  /\ equation (after [KFunction "sqrt("; KDecimal; KUndo])
     = [Some "sqrt("; Some "*"].
Proof. split; reflexivity. Qed.
